(** * FLUID-SIM: the particle solver of [src/grid.hpp] and [src/grid.cpp]

    A shallow embedding of [CreateGrid], [UpdateGrid] and
    [ComputeAverageVelocity], and of the part of [src/main.cpp] that
    drives them, followed by the properties of the solver.

    Numbers.  A C++ [float] is an IEEE-754 binary32 value and a [double] a
    binary64 value; both are [spec_float] with the operations of
    [SpecFloat] at precision 24 / 53 (one rounding to nearest-even per
    operation, no contraction into fused multiply-add, a single NaN).
    An [int] is a [Z]; signed overflow is undefined in C++, so the
    statements about sizes assume the products fit.

    Memory.  [std::vector] is a list; [v[i]] is the total lookup [v !!! i]
    and an assignment to [v[i]] is a list insert.  Indexing out of range is
    undefined in C++; the lookups of the model then return a zero and the
    inserts do nothing, and every statement below is about grids whose
    arrays have the dimensions their [nx], [ny], [nz] announce.

    Loops.  The [#pragma omp parallel for] loops are run in index order.
    Each iteration writes only the cells of its own index, which is what
    the per-cell lemmas of the second half establish; the last part shows
    that any other order of the iterations gives the same grid. *)

From Stdlib Require Import ZArith Bool Lia Floats.SpecFloat.
From stdpp Require Import base tactics option list list_numbers.

Open Scope Z_scope.

(** ** Floating-point layer *)

Definition float : Type := spec_float.

#[global] Instance float_inhabited : Inhabited float := populate (S754_zero false).

(** [float]: binary32. *)
Module F32.
Definition prec : Z := 24.
Definition emax : Z := 128.
Definition add : float -> float -> float := SFadd prec emax.
Definition sub : float -> float -> float := SFsub prec emax.
Definition mul : float -> float -> float := SFmul prec emax.
Definition div : float -> float -> float := SFdiv prec emax.
Definition sqrt : float -> float := SFsqrt prec emax.
Definition opp : float -> float := SFopp.
Definition ltb : float -> float -> bool := SFltb.
Definition leb : float -> float -> bool := SFleb.
(** Conversion of an [int] to [float] (rounds above 2^24). *)
Definition of_int (n : Z) : float := binary_normalize prec emax n 0 false.
(** The literal written [n/d] in decimal, for [n] and [d] below 2^24: the
    quotient of two exact values is rounded once, as the literal is. *)
Definition lit (n d : Z) : float := div (of_int n) (of_int d).
(** IEEE [fmin]: a NaN argument is ignored. *)
Definition fmin (a b : float) : float :=
  match a, b with
  | S754_nan, _ => b
  | _, S754_nan => a
  | _, _ => if ltb a b then a else b
  end.
(** [std::clamp(v, lo, hi)]. *)
Definition clamp (v lo hi : float) : float :=
  if ltb v lo then lo else if ltb hi v then hi else v.
End F32.

(** [double]: binary64, used by the accumulators of the diagnostics. *)
Module F64.
Definition prec : Z := 53.
Definition emax : Z := 1024.
Definition add : float -> float -> float := SFadd prec emax.
Definition div : float -> float -> float := SFdiv prec emax.
Definition of_int (n : Z) : float := binary_normalize prec emax n 0 false.
(** Widening of a [float]: exact. *)
Definition of_f32 (a : float) : float :=
  match a with
  | S754_finite s m e => binary_round prec emax s m e
  | _ => a
  end.
(** Narrowing to [float]: one rounding. *)
Definition to_f32 (a : float) : float :=
  match a with
  | S754_finite s m e => binary_round F32.prec F32.emax s m e
  | _ => a
  end.
End F64.

Declare Scope f32_scope.
Delimit Scope f32_scope with f32.
Infix "+" := F32.add : f32_scope.
Infix "-" := F32.sub : f32_scope.
Infix "*" := F32.mul : f32_scope.
Infix "/" := F32.div : f32_scope.
Notation "- x" := (F32.opp x) : f32_scope.
Infix "<?" := F32.ltb : f32_scope.
Infix "<=?" := F32.leb : f32_scope.
Notation "x >? y" := (F32.ltb y x) : f32_scope.

Definition f0 : float := S754_zero false.
Definition f1 : float := F32.of_int 1.

(** Classification used in the statements. *)
Definition is_nan (a : float) : bool :=
  match a with S754_nan => true | _ => false end.
Definition is_zero (a : float) : bool :=
  match a with S754_zero _ => true | _ => false end.
Definition is_finite (a : float) : bool :=
  match a with S754_zero _ | S754_finite _ _ _ => true | _ => false end.

(** Equality of values: [+0] and [-0] are the same number. *)
Definition same_value (a b : float) : Prop :=
  a = b \/ (is_zero a = true /\ is_zero b = true).

(** [b] is the negation of [a] as a number. *)
Definition negation_of (a b : float) : Prop :=
  b = F32.opp a \/ (is_zero a = true /\ is_zero b = true).

(** ** Data model ([grid.hpp]) *)

Module Vertex.
Record t : Type := mk {
  x : float; y : float; z : float;
  r : float; g : float; b : float
}.
(** A value-initialised [Vertex]. *)
Definition zero : t := mk f0 f0 f0 f0 f0 f0.
Definition set_pos (v : t) (x' y' z' : float) : t := mk x' y' z' (r v) (g v) (b v).
Definition set_color (v : t) (r' g' b' : float) : t := mk (x v) (y v) (z v) r' g' b'.
End Vertex.

#[global] Instance vertex_inhabited : Inhabited Vertex.t := populate Vertex.zero.

(** [std::vector<std::vector<std::vector<float>>>]. *)
Abbreviation field := (list (list (list float))).

Definition get3 (a : field) (i j k : Z) : float :=
  ((a !!! Z.to_nat i) !!! Z.to_nat j) !!! Z.to_nat k.

Definition set3 (a : field) (i j k : Z) (v : float) : field :=
  alter (alter (<[Z.to_nat k := v]>) (Z.to_nat j)) (Z.to_nat i) a.

(** [f.resize(nx, vector(ny, vector(nz, 0.0f)))] on an empty vector. *)
Definition zero_field (nx ny nz : Z) : field :=
  replicate (Z.to_nat nx) (replicate (Z.to_nat ny) (replicate (Z.to_nat nz) f0)).

Module Grille.
Record t : Type := mk {
  vertices : list Vertex.t;
  nx : Z; ny : Z; nz : Z;
  vx : field; vy : field; vz : field;
  ax : field; ay : field; az : field;
  pressure : field; div : field
}.
(** The constructor [Grille(nx_, ny_, nz_)]. *)
Definition Grille (nx_ ny_ nz_ : Z) : t :=
  mk [] nx_ ny_ nz_
     (zero_field nx_ ny_ nz_) (zero_field nx_ ny_ nz_) (zero_field nx_ ny_ nz_)
     (zero_field nx_ ny_ nz_) (zero_field nx_ ny_ nz_) (zero_field nx_ ny_ nz_)
     (zero_field nx_ ny_ nz_) (zero_field nx_ ny_ nz_).
Definition set_vertices (s : t) (v : list Vertex.t) : t :=
  mk v (nx s) (ny s) (nz s) (vx s) (vy s) (vz s) (ax s) (ay s) (az s) (pressure s) (div s).
Definition set_v (s : t) (vx' vy' vz' : field) : t :=
  mk (vertices s) (nx s) (ny s) (nz s) vx' vy' vz' (ax s) (ay s) (az s) (pressure s) (div s).
Definition set_a (s : t) (ax' ay' az' : field) : t :=
  mk (vertices s) (nx s) (ny s) (nz s) (vx s) (vy s) (vz s) ax' ay' az' (pressure s) (div s).
Definition set_div (s : t) (d : field) : t :=
  mk (vertices s) (nx s) (ny s) (nz s) (vx s) (vy s) (vz s) (ax s) (ay s) (az s) (pressure s) d.
(** [grid.vertices[id]] and the assignment to it. *)
Definition vertex (s : t) (id : Z) : Vertex.t := vertices s !!! Z.to_nat id.
Definition set_vertex (s : t) (id : Z) (v : Vertex.t) : t :=
  set_vertices s (<[Z.to_nat id := v]> (vertices s)).
End Grille.

Definition idx3 (i j k ny nz : Z) : Z := i * (ny * nz) + j * nz + k.

(** ** Loops *)

(** [for (int i = 0; i < n; ++i) body]. *)
Definition for_range {S : Type} (n : Z) (body : Z -> S -> S) (s : S) : S :=
  foldl (fun s i => body i s) s (seqZ 0 n).

(** The three nested loops over the lattice. *)
Definition for3 {S : Type} (nx ny nz : Z) (body : Z -> Z -> Z -> S -> S) (s : S) : S :=
  for_range nx (fun i => for_range ny (fun j => for_range nz (fun k => body i j k))) s.

(** ** [CreateGrid] *)

Definition CreateGrid (resolution_x resolution_y resolution_z : Z) (scale : float)
  : Grille.t :=
  let grid := Grille.Grille resolution_x resolution_y resolution_z in
  let nx := resolution_x in
  let ny := resolution_y in
  let nz := resolution_z in
  let grid := Grille.set_vertices grid (replicate (Z.to_nat (nx * ny * nz)) Vertex.zero) in
  for3 nx ny nz (fun i j k grid =>
    let id := idx3 i j k ny nz in
    let x := (F32.of_int i * scale)%f32 in
    let y := (F32.of_int j * scale + F32.of_int 5)%f32 in
    let z := (F32.of_int k * scale)%f32 in
    Grille.set_vertex grid id (Vertex.mk x y z f0 f0 f0)) grid.

(** ** [UpdateGrid] *)

(** The constants declared at the head of [UpdateGrid]. *)
Module Const.
Definition g : float := (- F32.lit 981 100)%f32.
Definition nu : float := F32.lit 13 10.
Definition radius : float := f1.
Definition h : float := F32.lit 12 10.
Definition stiffness : float := F32.lit 6 10.
Definition wallStiffness : float := F32.of_int 2.
Definition wallDamping : float := F32.lit 8 10.
Definition epsilon : float := F32.lit 1 10000.
Definition minX : float := f0.
Definition maxX : float := F32.of_int 20.
Definition minY : float := f0.
Definition maxY : float := F32.of_int 60.
Definition minZ : float := f0.
Definition maxZ : float := F32.of_int 20.
End Const.
Import Const.

(** [restDensity], from the bounds of the domain and [N = nx * ny * nz]. *)
Definition restDensity (N : Z) : float :=
  ((maxX - minX) * (maxY - minY) * (maxZ - minZ) / F32.of_int N)%f32.

(** *** Phase 0: accelerations *)

Definition reset_cell (i j k : Z) (grid : Grille.t) : Grille.t :=
  Grille.set_a grid
    (set3 (Grille.ax grid) i j k f0)
    (set3 (Grille.ay grid) i j k g)
    (set3 (Grille.az grid) i j k f0).

Definition reset_pass (grid : Grille.t) : Grille.t :=
  for3 (Grille.nx grid) (Grille.ny grid) (Grille.nz grid) reset_cell grid.

(** *** Phase 1: density *)

(** Body of the inner loops: the neighbour [(ii, jj, kk)] seen from
    [(i, j, k)], whose vertex is [v]. *)
Definition density_pair (grid : Grille.t) (i j k : Z) (v : Vertex.t)
    (ii jj kk : Z) (density : float) : float :=
  if (ii =? i) && (jj =? j) && (kk =? k) then density
  else
    let nid := idx3 ii jj kk (Grille.ny grid) (Grille.nz grid) in
    let n := Grille.vertex grid nid in
    let dx := (Vertex.x v - Vertex.x n)%f32 in
    let dy := (Vertex.y v - Vertex.y n)%f32 in
    let dz := (Vertex.z v - Vertex.z n)%f32 in
    let r2 := (dx * dx + dy * dy + dz * dz)%f32 in
    if (r2 >? f0)%f32 && (r2 <? h * h)%f32 then
      let r := F32.sqrt r2 in
      let q := (f1 - r / h)%f32 in
      (density + q * q)%f32
    else density.

Definition density_at (grid : Grille.t) (i j k : Z) : float :=
  let id := idx3 i j k (Grille.ny grid) (Grille.nz grid) in
  let v := Grille.vertex grid id in
  for3 (Grille.nx grid) (Grille.ny grid) (Grille.nz grid)
    (density_pair grid i j k v) f0.

Definition density_cell (i j k : Z) (grid : Grille.t) : Grille.t :=
  Grille.set_div grid (set3 (Grille.div grid) i j k (density_at grid i j k)).

Definition density_pass (grid : Grille.t) : Grille.t :=
  for3 (Grille.nx grid) (Grille.ny grid) (Grille.nz grid) density_cell grid.

(** *** Phase 2: forces *)

Definition fPress (PA PB q : float) : float :=
  (- F32.lit 5 10 * (PA + PB) * q)%f32.

(** Body of the inner loops of the force pass; [acc] is
    [(ax_local, ay_local, az_local)]. *)
Definition force_pair (grid : Grille.t) (restDensity : float) (i j k : Z)
    (A : Vertex.t) (PA : float) (ii jj kk : Z) (acc : float * float * float)
  : float * float * float :=
  if (ii =? i) && (jj =? j) && (kk =? k) then acc
  else
    let nid := idx3 ii jj kk (Grille.ny grid) (Grille.nz grid) in
    let B := Grille.vertex grid nid in
    let dx := (Vertex.x B - Vertex.x A)%f32 in
    let dy := (Vertex.y B - Vertex.y A)%f32 in
    let dz := (Vertex.z B - Vertex.z A)%f32 in
    let r := F32.sqrt (dx * dx + dy * dy + dz * dz)%f32 in
    if (r <=? f0)%f32 || (r >? h)%f32 then acc
    else
      let q := (f1 - r / h)%f32 in
      let rhoB := get3 (Grille.div grid) ii jj kk in
      let PB := (stiffness * (rhoB - restDensity))%f32 in
      let nx_ := (dx / r)%f32 in
      let ny_ := (dy / r)%f32 in
      let nz_ := (dz / r)%f32 in
      let fP := fPress PA PB q in
      let '(ax_local, ay_local, az_local) := acc in
      let ax_local := (ax_local + fP * nx_)%f32 in
      let ay_local := (ay_local + fP * ny_)%f32 in
      let az_local := (az_local + fP * nz_)%f32 in
      let vxDiff := (get3 (Grille.vx grid) ii jj kk - get3 (Grille.vx grid) i j k)%f32 in
      let vyDiff := (get3 (Grille.vy grid) ii jj kk - get3 (Grille.vy grid) i j k)%f32 in
      let vzDiff := (get3 (Grille.vz grid) ii jj kk - get3 (Grille.vz grid) i j k)%f32 in
      ((ax_local + nu * vxDiff * q)%f32,
       (ay_local + nu * vyDiff * q)%f32,
       (az_local + nu * vzDiff * q)%f32).

(** The two wall tests of one axis ("Murs"). *)
Definition wall_force (min max p a_local : float) : float :=
  let a_local :=
    if (p - radius <? min)%f32
    then (a_local + wallStiffness * (min - (p - radius)))%f32 else a_local in
  if (p + radius >? max)%f32
  then (a_local - wallStiffness * ((p + radius) - max))%f32 else a_local.

(** Blue to red gradient shared by the two colour modes. *)
Definition gradient (t : float) : float * float * float :=
  (t, (F32.lit 2 10 * (f1 - t))%f32, (f1 - t)%f32).

Definition pressure_color (PA restDensity : float) : float * float * float :=
  let Pnorm :=
    F32.clamp ((PA - (- restDensity)) / (restDensity * F32.of_int 2))%f32 f0 f1 in
  gradient Pnorm.

(** The accelerations stored for [(i, j, k)] by the force pass. *)
Definition force_at (grid : Grille.t) (restDensity : float) (i j k : Z)
  : float * float * float :=
  let id := idx3 i j k (Grille.ny grid) (Grille.nz grid) in
  let A := Grille.vertex grid id in
  let rhoA := get3 (Grille.div grid) i j k in
  let PA := (stiffness * (rhoA - restDensity))%f32 in
  let ax_local := get3 (Grille.ax grid) i j k in
  let ay_local := get3 (Grille.ay grid) i j k in
  let az_local := get3 (Grille.az grid) i j k in
  let '(ax_local, ay_local, az_local) :=
    for3 (Grille.nx grid) (Grille.ny grid) (Grille.nz grid)
      (force_pair grid restDensity i j k A PA) (ax_local, ay_local, az_local) in
  (wall_force minX maxX (Vertex.x A) ax_local,
   wall_force minY maxY (Vertex.y A) ay_local,
   wall_force minZ maxZ (Vertex.z A) az_local).

Definition force_cell (restDensity : float) (pressure speed : bool)
    (i j k : Z) (grid : Grille.t) : Grille.t :=
  let id := idx3 i j k (Grille.ny grid) (Grille.nz grid) in
  let rhoA := get3 (Grille.div grid) i j k in
  let PA := (stiffness * (rhoA - restDensity))%f32 in
  let '(ax_local, ay_local, az_local) := force_at grid restDensity i j k in
  let grid :=
    Grille.set_a grid
      (set3 (Grille.ax grid) i j k ax_local)
      (set3 (Grille.ay grid) i j k ay_local)
      (set3 (Grille.az grid) i j k az_local) in
  if pressure then
    let '(r, g, b) := pressure_color PA restDensity in
    Grille.set_vertex grid id (Vertex.set_color (Grille.vertex grid id) r g b)
  else if negb speed then
    Grille.set_vertex grid id (Vertex.set_color (Grille.vertex grid id) f0 f0 f1)
  else grid.

Definition force_pass (restDensity : float) (pressure speed : bool)
    (grid : Grille.t) : Grille.t :=
  for3 (Grille.nx grid) (Grille.ny grid) (Grille.nz grid)
    (force_cell restDensity pressure speed) grid.

(** *** Phase 3: integration *)

(** The clamp-and-reflect test of one axis. *)
Definition wall_clamp (min max p v : float) : float * float :=
  if (p <? min + epsilon)%f32 then ((min + epsilon)%f32, (- v * wallDamping)%f32)
  else if (p >? max - epsilon)%f32 then ((max - epsilon)%f32, (- v * wallDamping)%f32)
  else (p, v).

(** The source calls [sqrt] and [fmin] without [std::].  Whether the
    overload on [float] or the one on [double] is selected, the [float]
    that is stored is the same: the square root of a [float] taken in
    [double] and rounded to [float] is the correctly rounded root, and the
    minimum of two [float]s is exact. *)
Definition speed_color (vx vy vz : float) : float * float * float :=
  let norm_v := F32.sqrt (vx * vx + vy * vy + vz * vz)%f32 in
  let v_norm := F32.fmin (norm_v / F32.of_int 15)%f32 f1 in
  gradient v_norm.

(** What the integration writes for one particle: its vertex (position
    and colour) and its velocity. *)
Definition integrate_at (dt : float) (speed : bool) (v : Vertex.t)
    (vx vy vz ax_ ay_ az_ : float) : Vertex.t * (float * float * float) :=
  let vx := (vx + ax_ * dt)%f32 in
  let vy := (vy + ay_ * dt)%f32 in
  let vz := (vz + az_ * dt)%f32 in
  let x := (Vertex.x v + vx * dt)%f32 in
  let y := (Vertex.y v + vy * dt)%f32 in
  let z := (Vertex.z v + vz * dt)%f32 in
  let '(x, vx) := wall_clamp minX maxX x vx in
  let '(y, vy) := wall_clamp minY maxY y vy in
  let '(z, vz) := wall_clamp minZ maxZ z vz in
  let v := Vertex.set_pos v x y z in
  let v :=
    if speed then
      let '(r, g, b) := speed_color vx vy vz in Vertex.set_color v r g b
    else v in
  (v, (vx, vy, vz)).

Definition integrate_cell (dt : float) (speed : bool) (i j k : Z)
    (grid : Grille.t) : Grille.t :=
  let id := idx3 i j k (Grille.ny grid) (Grille.nz grid) in
  let '(v, (vx, vy, vz)) :=
    integrate_at dt speed (Grille.vertex grid id)
      (get3 (Grille.vx grid) i j k) (get3 (Grille.vy grid) i j k)
      (get3 (Grille.vz grid) i j k)
      (get3 (Grille.ax grid) i j k) (get3 (Grille.ay grid) i j k)
      (get3 (Grille.az grid) i j k) in
  let grid :=
    Grille.set_v grid
      (set3 (Grille.vx grid) i j k vx)
      (set3 (Grille.vy grid) i j k vy)
      (set3 (Grille.vz grid) i j k vz) in
  Grille.set_vertex grid id v.

Definition integrate_pass (dt : float) (speed : bool) (grid : Grille.t) : Grille.t :=
  for3 (Grille.nx grid) (Grille.ny grid) (Grille.nz grid)
    (integrate_cell dt speed) grid.

Definition UpdateGrid (dt : float) (grid : Grille.t) (pressure speed : bool)
  : Grille.t :=
  let N := Grille.nx grid * Grille.ny grid * Grille.nz grid in
  let restDensity := restDensity N in
  let grid := reset_pass grid in
  let grid := density_pass grid in
  let grid := force_pass restDensity pressure speed grid in
  integrate_pass dt speed grid.

(** ** [ComputeAverageVelocity] *)

Definition ComputeAverageVelocity (grid : Grille.t) : Vertex.t :=
  let count := Grille.nx grid * Grille.ny grid * Grille.nz grid in
  let '(total_vx, total_vy, total_vz) :=
    for3 (Grille.nx grid) (Grille.ny grid) (Grille.nz grid)
      (fun i j k '(total_vx, total_vy, total_vz) =>
         (F64.add total_vx (F64.of_f32 (get3 (Grille.vx grid) i j k)),
          F64.add total_vy (F64.of_f32 (get3 (Grille.vy grid) i j k)),
          F64.add total_vz (F64.of_f32 (get3 (Grille.vz grid) i j k))))
      (f0, f0, f0) in
  Vertex.mk
    (F64.to_f32 (F64.div total_vx (F64.of_int count)))
    (F64.to_f32 (F64.div total_vy (F64.of_int count)))
    (F64.to_f32 (F64.div total_vz (F64.of_int count)))
    f0 f0 f0.

(** A run of [UpdateGrid] calls, one [(dt, pressure, speed)] per call. *)
Definition run (calls : list (float * bool * bool)) (grid : Grille.t) : Grille.t :=
  foldl (fun grid '(dt, pressure, speed) => UpdateGrid dt grid pressure speed)
    grid calls.

(** ** The application ([main.cpp])

    The part of [main.cpp] that drives the solver: the globals that select
    what [UpdateGrid] is called with, the keys that change them, the
    scroll callback and the body of the render loop.  The camera vectors,
    the mouse callback (which needs [sin] and [cos]) and the OpenGL calls
    write none of these globals and are not part of the model. *)

Module Key.
(** [glfwGetKey(window, GLFW_KEY_...) == GLFW_PRESS] for the three keys
    that act on the simulation. *)
Record t : Type := mk { SPACE : bool; R : bool; E : bool }.
End Key.

Module Globals.
Record t : Type := mk {
  fov : float;
  simulation : bool; pressure : bool; speed : bool;
  pressureKeyPressedLast : bool; speedKeyPressedLast : bool;
  deltaTime : float; lastFrame : float
}.
(** The initial values of the globals. *)
Definition init : t := mk (F32.of_int 45) false false false false false f0 f0.
Definition set_fov (g : t) (fov' : float) : t :=
  mk fov' (simulation g) (pressure g) (speed g) (pressureKeyPressedLast g)
    (speedKeyPressedLast g) (deltaTime g) (lastFrame g).
Definition set_time (g : t) (deltaTime' lastFrame' : float) : t :=
  mk (fov g) (simulation g) (pressure g) (speed g) (pressureKeyPressedLast g)
    (speedKeyPressedLast g) deltaTime' lastFrame'.
End Globals.

(** [processInput], for the globals of the model. *)
Definition processInput (keys : Key.t) (g : Globals.t) : Globals.t :=
  let simulation :=
    if Key.SPACE keys then negb (Globals.simulation g) else Globals.simulation g in
  let pressureKeyPressed := Key.R keys in
  let speedKeyPressed := Key.E keys in
  let pressure := Globals.pressure g in
  let speed := Globals.speed g in
  let '(pressure, speed) :=
    if pressureKeyPressed && negb (Globals.pressureKeyPressedLast g) then
      let pressure := negb pressure in
      let speed := if speed then false else speed in
      (pressure, speed)
    else (pressure, speed) in
  let '(pressure, speed) :=
    if speedKeyPressed && negb (Globals.speedKeyPressedLast g) then
      let speed := negb speed in
      let pressure := if pressure then false else pressure in
      (pressure, speed)
    else (pressure, speed) in
  Globals.mk (Globals.fov g) simulation pressure speed
    pressureKeyPressed speedKeyPressed (Globals.deltaTime g) (Globals.lastFrame g).

(** [scroll_callback]; [yoffset] is a [double]. *)
Definition scroll_callback (yoffset : float) (g : Globals.t) : Globals.t :=
  let fov := (Globals.fov g - F64.to_f32 yoffset)%f32 in
  let fov := if (fov <? f1)%f32 then f1 else fov in
  let fov := if (fov >? F32.of_int 45)%f32 then F32.of_int 45 else fov in
  Globals.set_fov g fov.

(** One turn of the render loop of [main]: [time] is the [double] that
    [glfwGetTime] returns, [keys] the state of the keyboard. *)
Definition main_iteration (st : Globals.t * Grille.t) (input : float * Key.t)
  : Globals.t * Grille.t :=
  let '(g, grid) := st in
  let '(time, keys) := input in
  let currentFrame := F64.to_f32 time in
  let deltaTime := (currentFrame - Globals.lastFrame g)%f32 in
  let g := Globals.set_time g deltaTime currentFrame in
  let g := processInput keys g in
  let grid :=
    if Globals.simulation g
    then UpdateGrid (Globals.deltaTime g) grid (Globals.pressure g) (Globals.speed g)
    else grid in
  (g, grid).

(** The state of [main] when it enters the loop, and after the turns
    [inputs]. *)
Definition main_init : Globals.t * Grille.t :=
  (Globals.init, CreateGrid 10 50 10 (F32.lit 8 10)).
Definition main_loop (inputs : list (float * Key.t)) : Globals.t * Grille.t :=
  foldl main_iteration main_init inputs.

(** ** Well-formed grids and vocabulary of the statements *)

Definition INT_MAX : Z := 2147483647.

Definition shape3 (nx ny nz : Z) (a : field) : Prop :=
  length a = Z.to_nat nx /\
  Forall (fun row =>
    length row = Z.to_nat ny /\
    Forall (fun col : list float => length col = Z.to_nat nz) row) a.

(** A grid as [CreateGrid] builds it and [UpdateGrid] keeps it: positive
    resolutions whose product is an [int], and arrays of that size. *)
Record wf (grid : Grille.t) : Prop := {
  wf_nx : 0 < Grille.nx grid;
  wf_ny : 0 < Grille.ny grid;
  wf_nz : 0 < Grille.nz grid;
  wf_int : Grille.nx grid * Grille.ny grid * Grille.nz grid <= INT_MAX;
  wf_vertices :
    length (Grille.vertices grid)
    = Z.to_nat (Grille.nx grid * Grille.ny grid * Grille.nz grid);
  wf_vx : shape3 (Grille.nx grid) (Grille.ny grid) (Grille.nz grid) (Grille.vx grid);
  wf_vy : shape3 (Grille.nx grid) (Grille.ny grid) (Grille.nz grid) (Grille.vy grid);
  wf_vz : shape3 (Grille.nx grid) (Grille.ny grid) (Grille.nz grid) (Grille.vz grid);
  wf_ax : shape3 (Grille.nx grid) (Grille.ny grid) (Grille.nz grid) (Grille.ax grid);
  wf_ay : shape3 (Grille.nx grid) (Grille.ny grid) (Grille.nz grid) (Grille.ay grid);
  wf_az : shape3 (Grille.nx grid) (Grille.ny grid) (Grille.nz grid) (Grille.az grid);
  wf_div : shape3 (Grille.nx grid) (Grille.ny grid) (Grille.nz grid) (Grille.div grid)
}.

(** Lattice coordinates of a grid. *)
Definition in_grid (grid : Grille.t) (i j k : Z) : Prop :=
  0 <= i < Grille.nx grid /\ 0 <= j < Grille.ny grid /\ 0 <= k < Grille.nz grid.

(** The particle of lattice coordinate [(i, j, k)]. *)
Definition particle (grid : Grille.t) (i j k : Z) : Vertex.t :=
  Grille.vertex grid (idx3 i j k (Grille.ny grid) (Grille.nz grid)).

Definition position (v : Vertex.t) : float * float * float :=
  (Vertex.x v, Vertex.y v, Vertex.z v).
Definition color (v : Vertex.t) : float * float * float :=
  (Vertex.r v, Vertex.g v, Vertex.b v).
Definition velocity (grid : Grille.t) (i j k : Z) : float * float * float :=
  (get3 (Grille.vx grid) i j k, get3 (Grille.vy grid) i j k,
   get3 (Grille.vz grid) i j k).
Definition acceleration (grid : Grille.t) (i j k : Z) : float * float * float :=
  (get3 (Grille.ax grid) i j k, get3 (Grille.ay grid) i j k,
   get3 (Grille.az grid) i j k).

(** The iteration space of [for3], in the order the loops visit it. *)
Definition cells (nx ny nz : Z) : list (Z * Z * Z) :=
  i ← seqZ 0 nx; j ← seqZ 0 ny; k ← seqZ 0 nz; [(i, j, k)].

(** Containment: [lo <= p <= hi] with the bounds the integration uses. *)
Definition within (min max p : float) : Prop :=
  ((min + epsilon <=? p)%f32 = true) /\ ((p <=? max - epsilon)%f32 = true).
Definition strictly_within (min max p : float) : Prop :=
  ((min + epsilon <? p)%f32 = true) /\ ((p <? max - epsilon)%f32 = true).
Definition contained (v : Vertex.t) : Prop :=
  within minX maxX (Vertex.x v) /\ within minY maxY (Vertex.y v) /\
  within minZ maxZ (Vertex.z v).
Definition strictly_contained (v : Vertex.t) : Prop :=
  strictly_within minX maxX (Vertex.x v) /\ strictly_within minY maxY (Vertex.y v) /\
  strictly_within minZ maxZ (Vertex.z v).
(** What the clamp really ensures, axis by axis. *)
Definition nan_or_within (min max p : float) : Prop :=
  p = S754_nan \/ within min max p.
Definition contained_or_nan (v : Vertex.t) : Prop :=
  nan_or_within minX maxX (Vertex.x v) /\ nan_or_within minY maxY (Vertex.y v) /\
  nan_or_within minZ maxZ (Vertex.z v).

(** *** The density as the specification words it

    Written from the positions alone: the sum, in index order and from
    [0.0f], of [(1 - r/h)^2] over the other particles with
    [0 < r^2 < h*h]. *)
Definition dist2 (a b : float * float * float) : float :=
  let '(ax, ay, az) := a in
  let '(bx, by_, bz) := b in
  let dx := (ax - bx)%f32 in
  let dy := (ay - by_)%f32 in
  let dz := (az - bz)%f32 in
  (dx * dx + dy * dy + dz * dz)%f32.

Definition kernel (r2 : float) : float :=
  let q := (f1 - F32.sqrt r2 / h)%f32 in (q * q)%f32.

Definition near (r2 : float) : bool := (r2 >? f0)%f32 && (r2 <? h * h)%f32.

Definition other (i j k : Z) (c : Z * Z * Z) : bool :=
  let '(ii, jj, kk) := c in negb ((ii =? i) && (jj =? j) && (kk =? k)).

Definition density_spec (nx ny nz : Z) (pos : list (float * float * float))
    (i j k : Z) : float :=
  let at_ (c : Z * Z * Z) := let '(ii, jj, kk) := c in pos !!! Z.to_nat (idx3 ii jj kk ny nz) in
  let A := at_ (i, j, k) in
  let neighbours :=
    List.filter (fun c => near (dist2 A (at_ c)))
      (List.filter (other i j k) (cells nx ny nz)) in
  foldl F32.add f0 ((fun c => kernel (dist2 A (at_ c))) <$> neighbours).

(** *** The pressure term of one ordered pair

    The three products [fPress * nx_], [fPress * ny_], [fPress * nz_] that
    [force_pair] adds for the subject [A] and its neighbour [B], or [None]
    when the pair is skipped. *)
Definition distance (A B : Vertex.t) : float :=
  let dx := (Vertex.x B - Vertex.x A)%f32 in
  let dy := (Vertex.y B - Vertex.y A)%f32 in
  let dz := (Vertex.z B - Vertex.z A)%f32 in
  F32.sqrt (dx * dx + dy * dy + dz * dz)%f32.

Definition pressure_pair (A B : Vertex.t) (PA PB : float)
  : option (float * float * float) :=
  let dx := (Vertex.x B - Vertex.x A)%f32 in
  let dy := (Vertex.y B - Vertex.y A)%f32 in
  let dz := (Vertex.z B - Vertex.z A)%f32 in
  let r := F32.sqrt (dx * dx + dy * dy + dz * dz)%f32 in
  if (r <=? f0)%f32 || (r >? h)%f32 then None
  else
    let q := (f1 - r / h)%f32 in
    let fP := fPress PA PB q in
    Some ((fP * (dx / r))%f32, (fP * (dy / r))%f32, (fP * (dz / r))%f32).

(** The pressure [stiffness * (rho - restDensity)] of the force pass. *)
Definition pressure_of (rho restDensity : float) : float :=
  (stiffness * (rho - restDensity))%f32.

(** The vertex the force pass leaves: the colour follows the two modes,
    the position is not touched. *)
Definition force_vertex (pressure speed : bool) (PA restDensity : float)
    (v : Vertex.t) : Vertex.t :=
  if pressure then
    let '(r, g, b) := pressure_color PA restDensity in Vertex.set_color v r g b
  else if negb speed then Vertex.set_color v f0 f0 f1
  else v.

Definition same_dims (s s0 : Grille.t) : Prop :=
  Grille.nx s = Grille.nx s0 /\ Grille.ny s = Grille.ny s0 /\
  Grille.nz s = Grille.nz s0.

(** A function of a lattice coordinate, applied to a cell of [cells]. *)
Definition on_cell {T : Type} (f : Z -> Z -> Z -> T) (c : Z * Z * Z) : T :=
  let '(i, j, k) := c in f i j k.

(** ** Vocabulary of the per-cell lemmas

    What each pass leaves frozen while it runs: the invariants of its
    loop, relating the running grid [s] to the grid [s0] it started from. *)

Record reset_inv (s0 s : Grille.t) : Prop := {
  reset_wf : wf s;
  reset_dims : same_dims s s0;
  reset_vertices : Grille.vertices s = Grille.vertices s0;
  reset_v : (Grille.vx s, Grille.vy s, Grille.vz s)
            = (Grille.vx s0, Grille.vy s0, Grille.vz s0);
  reset_div : Grille.div s = Grille.div s0
}.

Record density_inv (s0 s : Grille.t) : Prop := {
  density_wf : wf s;
  density_dims : same_dims s s0;
  density_vertices : Grille.vertices s = Grille.vertices s0;
  density_v : (Grille.vx s, Grille.vy s, Grille.vz s)
              = (Grille.vx s0, Grille.vy s0, Grille.vz s0);
  density_a : (Grille.ax s, Grille.ay s, Grille.az s)
              = (Grille.ax s0, Grille.ay s0, Grille.az s0);
  density_pressure : Grille.pressure s = Grille.pressure s0
}.

Record force_inv (s0 s : Grille.t) : Prop := {
  force_wf : wf s;
  force_dims : same_dims s s0;
  force_div : Grille.div s = Grille.div s0;
  force_v : (Grille.vx s, Grille.vy s, Grille.vz s)
            = (Grille.vx s0, Grille.vy s0, Grille.vz s0);
  force_positions :
    forall id, position (Grille.vertex s id) = position (Grille.vertex s0 id)
}.

Record integrate_inv (s0 s : Grille.t) : Prop := {
  integrate_wf : wf s;
  integrate_dims : same_dims s s0;
  integrate_a : (Grille.ax s, Grille.ay s, Grille.az s)
                = (Grille.ax s0, Grille.ay s0, Grille.az s0);
  integrate_div : Grille.div s = Grille.div s0
}.

(** [integrate_at] on the cell [(i, j, k)] of a grid. *)
Definition integrate_grid (dt : float) (speed : bool) (s : Grille.t) (i j k : Z)
  : Vertex.t * (float * float * float) :=
  integrate_at dt speed (particle s i j k)
    (get3 (Grille.vx s) i j k) (get3 (Grille.vy s) i j k) (get3 (Grille.vz s) i j k)
    (get3 (Grille.ax s) i j k) (get3 (Grille.ay s) i j k) (get3 (Grille.az s) i j k).

(** The vertex [CreateGrid] writes at [(i, j, k)]. *)
Definition lattice_vertex (scale : float) (i j k : Z) : Vertex.t :=
  Vertex.mk (F32.of_int i * scale)%f32 (F32.of_int j * scale + F32.of_int 5)%f32
    (F32.of_int k * scale)%f32 f0 f0 f0.

Record create_inv (nx ny nz : Z) (s : Grille.t) : Prop := {
  create_wf : wf s;
  create_dims : (Grille.nx s, Grille.ny s, Grille.nz s) = (nx, ny, nz);
  create_v : (Grille.vx s, Grille.vy s, Grille.vz s)
             = (zero_field nx ny nz, zero_field nx ny nz, zero_field nx ny nz);
  create_a : (Grille.ax s, Grille.ay s, Grille.az s)
             = (zero_field nx ny nz, zero_field nx ny nz, zero_field nx ny nz);
  create_div : Grille.div s = zero_field nx ny nz
}.

(** The grid the force pass reads, and the accelerations it computes. *)
Definition before_force (grid : Grille.t) : Grille.t :=
  density_pass (reset_pass grid).
Definition rest_of (grid : Grille.t) : float :=
  restDensity (Grille.nx grid * Grille.ny grid * Grille.nz grid).
Definition forces (grid : Grille.t) (i j k : Z) : float * float * float :=
  force_at (before_force grid) (rest_of grid) i j k.

(** What one step writes for the particle [(i, j, k)]. *)
Definition step_cell (dt : float) (pressure speed : bool) (grid : Grille.t)
    (i j k : Z) : Vertex.t * (float * float * float) :=
  let '(a1, a2, a3) := forces grid i j k in
  integrate_at dt speed
    (force_vertex pressure speed
       (pressure_of (density_at grid i j k) (rest_of grid)) (rest_of grid)
       (particle grid i j k))
    (get3 (Grille.vx grid) i j k) (get3 (Grille.vy grid) i j k)
    (get3 (Grille.vz grid) i j k) a1 a2 a3.

(** *** Vocabulary of the statements on triples *)

(** The largest finite [float]. *)
Definition FLT_MAX : float := S754_finite false 16777215 104.

(** [b] is the opposite vector of [a]. *)
Definition opposite (a b : float * float * float) : Prop :=
  negation_of a.1.1 b.1.1 /\ negation_of a.1.2 b.1.2 /\ negation_of a.2 b.2.

(** [a + b] is a zero when [a] is a finite number, and NaN when [a] is an
    infinity or NaN. *)
Definition cancel (a b : float) : Prop :=
  if is_finite a then is_zero (a + b)%f32 = true else (a + b)%f32 = S754_nan.

Definition finite3 (a : float * float * float) : Prop :=
  is_finite a.1.1 = true /\ is_finite a.1.2 = true /\ is_finite a.2 = true.
Definition same_value3 (a b : float * float * float) : Prop :=
  same_value a.1.1 b.1.1 /\ same_value a.1.2 b.1.2 /\ same_value a.2 b.2.

(** *** Orders of magnitude

    Vocabulary of the bounds on binary32 values; [m * 2^e] is the value of
    [S754_finite _ m e]. *)

(** Order of magnitude of [m * 2^e]: the least [k] with [m * 2^e < 2^k]. *)
Definition magnitude (m : positive) (e : Z) : Z := Z.pos (digits2_pos m) + e.

(** Finite and below [2^k] in absolute value. *)
Definition small (k : Z) (x : float) : Prop :=
  match x with
  | S754_zero _ => True
  | S754_finite _ m e => magnitude m e <= k
  | _ => False
  end.

(** Finite, not zero, and at least [2^(k-1)] in absolute value. *)
Definition big (k : Z) (x : float) : Prop :=
  match x with
  | S754_finite _ m e => k <= magnitude m e
  | _ => False
  end.

(** Finite values have an exponent of at least [emin] and at most 24
    digits. *)
Definition regular (x : float) : Prop :=
  match x with
  | S754_finite _ m e => -149 <= e /\ Z.pos (digits2_pos m) <= 24
  | _ => True
  end.

(** Not NaN, not negative. *)
Definition nonneg (x : float) : Prop :=
  match x with
  | S754_zero _ | S754_infinity false | S754_finite false _ _ => True
  | _ => False
  end.

(** Positive, and at least [2^(k-1)]. *)
Definition atleast (k : Z) (x : float) : Prop :=
  match x with
  | S754_infinity false => True
  | S754_finite false m e => k <= magnitude m e
  | _ => False
  end.

(** Not negative and at most [2^B]. *)
Definition capped (B : Z) (x : float) : Prop :=
  match x with
  | S754_zero _ => True
  | S754_finite false m e => e <= B /\ Z.pos m <= 2 ^ (B - e)
  | _ => False
  end.

(** *** Vocabulary of the further properties *)

(** [int] arithmetic as the machine does it: the result of an operation,
    reduced to 32 bits in two's complement. *)
Definition int_of (z : Z) : Z := (z + 2 ^ 31) mod 2 ^ 32 - 2 ^ 31.

(** [idx3] with every operation of its body reduced to an [int]. *)
Definition idx3_int (i j k ny nz : Z) : Z :=
  int_of (int_of (int_of (i * int_of (ny * nz)) + int_of (j * nz)) + k).

(** What every loop body of [UpdateGrid] leaves alone: the dimensions and
    the [pressure] array. *)
Definition kept (s0 s : Grille.t) : Prop :=
  Grille.nx s = Grille.nx s0 /\ Grille.ny s = Grille.ny s0 /\
  Grille.nz s = Grille.nz s0 /\ Grille.pressure s = Grille.pressure s0.

(** The loop [l] of bodies [body], run from [s0], is cellwise: the
    invariant [I] holds throughout, and each iteration gives its own cell
    the value [new] and leaves the other cells as they are. *)
Definition cellwise {S O C : Type} (body : C -> S -> S) (I : S -> Prop)
    (obs : C -> S -> O) (new : C -> O) (l : list C) (s0 : S) : Prop :=
  I s0 /\
  (forall c s, c ∈ l -> I s -> I (body c s)) /\
  (forall c s, c ∈ l -> I s -> obs c s = obs c s0 -> obs c (body c s) = new c) /\
  (forall c c' s, c ∈ l -> c' ∈ l -> c <> c' -> I s -> obs c' (body c s) = obs c' s).

(** The passes of [UpdateGrid] with the iterations of each loop taken in
    the orders [l0], [l1], [l2] and [l3]. *)
Definition pass_in_order (l : list (Z * Z * Z))
    (body : Z -> Z -> Z -> Grille.t -> Grille.t) (s : Grille.t) : Grille.t :=
  foldl (fun s c => on_cell body c s) s l.

Definition UpdateGrid_in_order (l0 l1 l2 l3 : list (Z * Z * Z)) (dt : float)
    (grid : Grille.t) (pressure speed : bool) : Grille.t :=
  let N := Grille.nx grid * Grille.ny grid * Grille.nz grid in
  let restDensity := restDensity N in
  let grid := pass_in_order l0 reset_cell grid in
  let grid := pass_in_order l1 density_cell grid in
  let grid := pass_in_order l2 (force_cell restDensity pressure speed) grid in
  pass_in_order l3 (integrate_cell dt speed) grid.

(** [CreateGrid] with the iterations of its loop taken in the order [l]. *)
Definition CreateGrid_in_order (l : list (Z * Z * Z))
    (resolution_x resolution_y resolution_z : Z) (scale : float) : Grille.t :=
  let grid := Grille.Grille resolution_x resolution_y resolution_z in
  let nx := resolution_x in
  let ny := resolution_y in
  let nz := resolution_z in
  let grid := Grille.set_vertices grid (replicate (Z.to_nat (nx * ny * nz)) Vertex.zero) in
  pass_in_order l (fun i j k grid =>
    let id := idx3 i j k ny nz in
    let x := (F32.of_int i * scale)%f32 in
    let y := (F32.of_int j * scale + F32.of_int 5)%f32 in
    let z := (F32.of_int k * scale)%f32 in
    Grille.set_vertex grid id (Vertex.mk x y z f0 f0 f0)) grid.

(** A colour whose three channels are numbers between 0 and 1. *)
Definition valid_color (c : float * float * float) : Prop :=
  capped 0 c.1.1 /\ capped 0 c.1.2 /\ capped 0 c.2.

(** A triple of NaN. *)
Definition nan3 : float * float * float := (S754_nan, S754_nan, S754_nan).

(** [B] is out of the reach of [A]: the force pass skips the pair. *)
Definition out_of_reach (A B : Vertex.t) : Prop :=
  (distance A B <=? f0)%f32 || (distance A B >? h)%f32 = true.

(** No wall test of the force pass fires for [v]. *)
Definition clear_of_walls (v : Vertex.t) : Prop :=
  ((Vertex.x v - radius <? minX)%f32 = false /\
   (Vertex.x v + radius >? maxX)%f32 = false) /\
  ((Vertex.y v - radius <? minY)%f32 = false /\
   (Vertex.y v + radius >? maxY)%f32 = false) /\
  ((Vertex.z v - radius <? minZ)%f32 = false /\
   (Vertex.z v + radius >? maxZ)%f32 = false).

(** The viscosity term that the force pass adds, for the subject of
    velocity [vA], the neighbour of velocity [vB] and the weight [q]. *)
Definition viscosity_pair (vA vB : float * float * float) (q : float)
  : float * float * float :=
  ((nu * (vB.1.1 - vA.1.1) * q)%f32, (nu * (vB.1.2 - vA.1.2) * q)%f32,
   (nu * (vB.2 - vA.2) * q)%f32).

(** The field of view is between 1 and 45 degrees. *)
Definition fov_in_range (fov : float) : Prop :=
  (f1 <=? fov)%f32 = true /\ (fov <=? F32.of_int 45)%f32 = true.

(** What a turn of the loop keeps: the modes exclude each other, and the
    grid is the initial one after calls of [UpdateGrid] that never have
    the two modes set. *)
Definition loop_invariant (st : Globals.t * Grille.t) : Prop :=
  Globals.pressure st.1 && Globals.speed st.1 = false /\
  exists calls,
    st.2 = run calls main_init.2 /\
    Forall (fun c : float * bool * bool => c.1.2 && c.2 = false) calls.

(** *** Sample grids *)

(** One particle at rest in the middle of the domain. *)
Definition one_particle : Grille.t :=
  Grille.mk [Vertex.mk (F32.of_int 5) (F32.of_int 5) (F32.of_int 5) f0 f0 f0]
    1 1 1
    (zero_field 1 1 1) (zero_field 1 1 1) (zero_field 1 1 1)
    (zero_field 1 1 1) (zero_field 1 1 1) (zero_field 1 1 1)
    (zero_field 1 1 1) (zero_field 1 1 1).

(** Two particles one unit apart that fly at each other at [FLT_MAX]. *)
Definition two_particles : Grille.t :=
  Grille.mk [Vertex.mk (F32.of_int 5) (F32.of_int 5) (F32.of_int 5) f0 f0 f0;
             Vertex.mk (F32.of_int 6) (F32.of_int 5) (F32.of_int 5) f0 f0 f0]
    2 1 1
    [[[FLT_MAX]]; [[F32.opp FLT_MAX]]] (zero_field 2 1 1) (zero_field 2 1 1)
    (zero_field 2 1 1) (zero_field 2 1 1) (zero_field 2 1 1)
    (zero_field 2 1 1) (zero_field 2 1 1).

(** Two particles two units apart, farther than [h]. *)
Definition two_apart : Grille.t := CreateGrid 2 1 1 (F32.of_int 2).

(** ** Tactics *)

(** Well-formedness of a grid given in full. *)
Ltac wf_by_computation :=
  constructor;
  [ reflexivity | reflexivity | reflexivity | discriminate | reflexivity
  | split; [reflexivity | repeat constructor] .. ].

(** ** Facts about the floating-point operations *)

(** The constants are the binary32 values of the literals of the source:
    [-9.81f] is [0xC11CF5C3], [1.3f] is [0x3FA66666], [1.2f] is
    [0x3F99999A], [0.6f] is [0x3F19999A], [0.8f] is [0x3F4CCCCD] and
    [1e-4f] is [0x38D1B717]. *)
Lemma constant_encodings :
  g = S754_finite true 10286531 (-20) /\
  nu = S754_finite false 10905190 (-23) /\
  h = S754_finite false 10066330 (-23) /\
  stiffness = S754_finite false 10066330 (-24) /\
  wallDamping = S754_finite false 13421773 (-24) /\
  epsilon = S754_finite false 13743895 (-37) /\
  (minX + epsilon)%f32 = epsilon /\
  (maxX - epsilon)%f32 = S754_finite false 10485708 (-19) /\
  (maxY - epsilon)%f32 = S754_finite false 15728614 (-18).
Proof. vm_compute. repeat split. Qed.

Section FloatFacts.
Variables prec emax : Z.

Lemma binary_round_aux_opp s m e l :
  binary_round_aux prec emax (negb s) m e l
  = SFopp (binary_round_aux prec emax s m e l).
Proof.
  unfold binary_round_aux.
  destruct (shr_fexp prec emax m e l) as [mrs' e'].
  destruct (shr_fexp prec emax _ e' loc_Exact) as [mrs'' e''].
  destruct (shr_m mrs''); [reflexivity | | reflexivity].
  destruct (e'' <=? emax - prec); reflexivity.
Qed.

Lemma binary_round_opp s m e :
  binary_round prec emax (negb s) m e = SFopp (binary_round prec emax s m e).
Proof.
  unfold binary_round.
  destruct (shl_align m e _) as [mz ez]. apply binary_round_aux_opp.
Qed.

Lemma binary_normalize_opp m e :
  m <> 0 ->
  binary_normalize prec emax (- m) e false
  = SFopp (binary_normalize prec emax m e false).
Proof.
  destruct m as [|p|p]; intros Hm; [congruence | |]; simpl.
  - apply (binary_round_opp false).
  - apply (binary_round_opp true).
Qed.

Lemma SFmul_opp_r a b :
  SFmul prec emax a (SFopp b) = SFopp (SFmul prec emax a b).
Proof.
  destruct a as [sa|sa| |sa ma ea], b as [sb|sb| |sb mb eb];
    cbn [SFmul SFopp]; rewrite <- ?negb_xorb_r; try reflexivity.
  apply binary_round_aux_opp.
Qed.

Lemma SFmul_opp_l a b :
  SFmul prec emax (SFopp a) b = SFopp (SFmul prec emax a b).
Proof.
  destruct a as [sa|sa| |sa ma ea], b as [sb|sb| |sb mb eb];
    cbn [SFmul SFopp]; rewrite <- ?negb_xorb_l; try reflexivity.
  apply binary_round_aux_opp.
Qed.

Lemma SFdiv_opp_l a b :
  SFdiv prec emax (SFopp a) b = SFopp (SFdiv prec emax a b).
Proof.
  destruct a as [sa|sa| |sa ma ea], b as [sb|sb| |sb mb eb];
    cbn [SFdiv SFopp]; rewrite <- ?negb_xorb_l; try reflexivity.
  destruct (SFdiv_core_binary prec emax _ ea _ eb) as [[mz ez] lz].
  apply binary_round_aux_opp.
Qed.

Lemma SFadd_comm a b : SFadd prec emax a b = SFadd prec emax b a.
Proof.
  destruct a as [[]|[]| |sa ma ea], b as [[]|[]| |sb mb eb]; simpl;
    try reflexivity.
  rewrite (Z.min_comm eb ea), Z.add_comm. reflexivity.
Qed.

Lemma shl_align_same m e : shl_align m e e = (m, e).
Proof. unfold shl_align. rewrite Z.sub_diag. reflexivity. Qed.

Lemma SFadd_opp_finite s m e :
  SFadd prec emax (S754_finite s m e) (S754_finite (negb s) m e) = S754_zero false.
Proof.
  cbn [SFadd]. rewrite Z.min_id, shl_align_same. cbn [fst].
  destruct s; cbn [negb cond_Zopp];
    rewrite ?Z.add_opp_diag_l, ?Z.add_opp_diag_r; reflexivity.
Qed.

End FloatFacts.

Lemma SFcompare_antisym a b : SFcompare b a = CompOpp <$> SFcompare a b.
Proof.
  destruct a as [[]|[]| |[] ma ea], b as [[]|[]| |[] mb eb]; simpl;
    try reflexivity;
    rewrite (Z.compare_antisym ea eb); destruct (ea ?= eb); simpl;
    try reflexivity;
    rewrite (Pos.compare_cont_antisym ma mb Eq); reflexivity.
Qed.

Lemma SFcompare_None a b :
  SFcompare a b = None -> is_nan a = true \/ is_nan b = true.
Proof.
  destruct a as [[]|[]| |[] ma ea], b as [[]|[]| |[] mb eb]; simpl;
    intros H; try discriminate H; auto.
Qed.

(** *** Comparisons, zeros and negations in binary32 *)

Lemma ltb_false_leb a b :
  F32.ltb a b = false -> is_nan a = false -> is_nan b = false -> F32.leb b a = true.
Proof.
  unfold F32.ltb, F32.leb, SFltb, SFleb. rewrite (SFcompare_antisym a b).
  destruct (SFcompare a b) as [[]|] eqn:E; simpl; try done.
  intros _ Ha Hb. destruct (SFcompare_None _ _ E); congruence.
Qed.

Lemma ltb_true_flip a b : F32.ltb a b = true -> F32.ltb b a = false.
Proof.
  unfold F32.ltb, SFltb. rewrite (SFcompare_antisym a b).
  destruct (SFcompare a b) as [[]|]; simpl; done.
Qed.

Lemma leb_true_flip a b : F32.leb a b = true -> F32.ltb b a = false.
Proof.
  unfold F32.ltb, F32.leb, SFltb, SFleb. rewrite (SFcompare_antisym a b).
  destruct (SFcompare a b) as [[]|]; simpl; done.
Qed.

Lemma ltb_true_leb a b : F32.ltb a b = true -> F32.leb a b = true.
Proof.
  unfold F32.ltb, F32.leb, SFltb, SFleb.
  destruct (SFcompare a b) as [[]|]; simpl; done.
Qed.

Lemma ltb_not_nan_l a b : F32.ltb a b = true -> is_nan a = false.
Proof. destruct a as [[]|[]| |[] ma ea]; try done. Qed.

Lemma wall_clamp_within min max p v :
  is_nan (min + epsilon)%f32 = false ->
  is_nan (max - epsilon)%f32 = false ->
  ((min + epsilon)%f32 <=? (min + epsilon)%f32)%f32 = true ->
  ((max - epsilon)%f32 <=? (max - epsilon)%f32)%f32 = true ->
  ((min + epsilon)%f32 <=? (max - epsilon)%f32)%f32 = true ->
  nan_or_within min max (wall_clamp min max p v).1.
Proof.
  intros Hlo Hhi Hll Hhh Hlh. unfold wall_clamp, nan_or_within, within.
  destruct (p <? min + epsilon)%f32 eqn:E1; simpl; [auto|].
  destruct (max - epsilon <? p)%f32 eqn:E2; simpl; [auto|].
  destruct (is_nan p) eqn:Hp.
  - left. destruct p; done.
  - right. split; apply ltb_false_leb; done.
Qed.

Lemma SFadd_zero_r prec emax a s :
  is_zero a = false -> SFadd prec emax a (S754_zero s) = a.
Proof. destruct a as [[]|[]| |[] ma ea]; done. Qed.

Lemma SFadd_zero_same prec emax a d :
  is_zero d = true -> same_value (SFadd prec emax a d) a.
Proof.
  destruct d as [s| | |]; try done. intros _.
  destruct a as [[]|[]| |[] ma ea], s; simpl; (by left) || (by right).
Qed.

Lemma SFmul_zero_r prec emax a d :
  is_finite a = true -> is_zero d = true -> is_zero (SFmul prec emax a d) = true.
Proof. destruct a as [[]|[]| |[] ma ea], d as [[]|[]| |[] md ed]; done. Qed.

Lemma same_value_finite a b : same_value a b -> is_finite b = true -> is_finite a = true.
Proof. intros [->|[Ha Hb]]; [done|]. destruct a; done. Qed.

Lemma sub_negation a b : negation_of (a - b)%f32 (b - a)%f32.
Proof.
  unfold negation_of, F32.sub, F32.opp.
  destruct a as [[]|[]| |sa ma ea], b as [[]|[]| |sb mb eb];
    cbn [SFsub SFopp negb is_zero]; auto.
  - left. by rewrite negb_involutive.
  - left. by rewrite negb_involutive.
  - rewrite (Z.min_comm eb ea).
    set (x := cond_Zopp sa _). set (y := cond_Zopp sb _).
    destruct (decide (x - y = 0)) as [E|E].
    + right. replace (y - x) with 0 by lia. rewrite E. done.
    + left. replace (y - x) with (- (x - y)) by lia.
      by apply binary_normalize_opp.
Qed.

Lemma negation_mul_self a b : negation_of a b -> (b * b)%f32 = (a * a)%f32.
Proof.
  unfold F32.mul. intros [->|[Ha Hb]].
  - unfold F32.opp. rewrite SFmul_opp_l, SFmul_opp_r.
    by destruct (SFmul _ _ a a) as [[]|[]| |[] m e].
  - by destruct a as [[]| | |], b as [[]| | |].
Qed.

Lemma negation_div a b r : negation_of a b -> negation_of (a / r)%f32 (b / r)%f32.
Proof.
  unfold F32.div. intros [->|[Ha Hb]].
  - left. apply SFdiv_opp_l.
  - destruct a as [sa| | |], b as [sb| | |]; try done.
    destruct r as [sr|sr| |sr mr er]; cbn [SFdiv]; (by right) || (by left).
Qed.

Lemma negation_mul f a b : negation_of a b -> negation_of (f * a)%f32 (f * b)%f32.
Proof.
  unfold F32.mul. intros [->|[Ha Hb]].
  - left. apply SFmul_opp_r.
  - destruct a as [sa| | |], b as [sb| | |]; try done.
    destruct f as [sr|sr| |sr mr er]; cbn [SFmul]; (by right) || (by left).
Qed.

Lemma negation_sum a b : negation_of a b -> cancel a b.
Proof.
  unfold cancel, F32.add. intros [->|[Ha Hb]].
  - destruct a as [[]|[]| |s m e]; try done.
    cbn [F32.opp SFopp is_finite]. by rewrite SFadd_opp_finite.
  - by destruct a as [[]| | |], b as [[]| | |].
Qed.

Lemma leb_ltb_guard r :
  (f0 <? r)%f32 = true -> (r <=? h)%f32 = true ->
  (r <=? f0)%f32 || (r >? h)%f32 = false.
Proof.
  intros H1 H2. apply orb_false_iff. split.
  - unfold F32.ltb, F32.leb, SFltb, SFleb in *. rewrite (SFcompare_antisym f0 r).
    destruct (SFcompare f0 r) as [[]|]; done.
  - by apply leb_true_flip.
Qed.


(** ** Digits and rounding *)

Lemma digits2_pos_iter_xO m n :
  digits2_pos (Pos.iter xO m n) = (digits2_pos m + n)%positive.
Proof.
  induction n as [|n IH] using Pos.peano_ind.
  - simpl. lia.
  - rewrite Pos.iter_succ. simpl. rewrite IH. lia.
Qed.

Lemma digits2_pos_le m k : 0 <= k -> Z.pos m < 2 ^ k -> Z.pos (digits2_pos m) <= k.
Proof.
  revert k. induction m as [m IH|m IH|]; intros k Hk Hm; simpl.
  - assert (0 < k) by (destruct (decide (k = 0)) as [->|]; [simpl in Hm|]; lia).
    replace k with (Z.succ (k - 1)) in Hm by lia. rewrite Z.pow_succ_r in Hm by lia.
    specialize (IH (k - 1)). lia.
  - assert (0 < k) by (destruct (decide (k = 0)) as [->|]; [simpl in Hm|]; lia).
    replace k with (Z.succ (k - 1)) in Hm by lia. rewrite Z.pow_succ_r in Hm by lia.
    specialize (IH (k - 1)). lia.
  - destruct (decide (k = 0)) as [->|]; [simpl in Hm|]; lia.
Qed.

Lemma digits2_pos_bounds m :
  2 ^ (Z.pos (digits2_pos m) - 1) <= Z.pos m < 2 ^ Z.pos (digits2_pos m).
Proof.
  induction m as [m IH|m IH|]; simpl digits2_pos.
  - rewrite Pos2Z.inj_succ.
    replace (Z.succ (Z.pos (digits2_pos m)) - 1) with (Z.succ (Z.pos (digits2_pos m) - 1)) by lia.
    rewrite !Z.pow_succ_r by lia. lia.
  - rewrite Pos2Z.inj_succ.
    replace (Z.succ (Z.pos (digits2_pos m)) - 1) with (Z.succ (Z.pos (digits2_pos m) - 1)) by lia.
    rewrite !Z.pow_succ_r by lia. lia.
  - simpl. lia.
Qed.

Lemma digits2_pos_unique m k :
  2 ^ (k - 1) <= Z.pos m < 2 ^ k -> Z.pos (digits2_pos m) = k.
Proof.
  intros [Hlo Hhi]. pose proof (digits2_pos_bounds m) as [Blo Bhi].
  set (d := Z.pos (digits2_pos m)) in *.
  assert (0 < d) by (unfold d; lia).
  destruct (Z.lt_trichotomy d k) as [Hlt|[->|Hlt]]; [exfalso|done|exfalso].
  - assert (2 ^ d <= 2 ^ (k - 1)) by (apply Z.pow_le_mono_r; lia). lia.
  - destruct (decide (k <= 0)) as [Hk|Hk].
    + assert (2 ^ k <= 2 ^ 0) by (destruct (decide (k < 0));
        [rewrite Z.pow_neg_r by lia; simpl; lia|apply Z.pow_le_mono_r; lia]).
      simpl in *. lia.
    + assert (2 ^ k <= 2 ^ (d - 1)) by (apply Z.pow_le_mono_r; lia). lia.
Qed.

Lemma shr_1_m mrs : 0 <= shr_m mrs -> shr_m (shr_1 mrs) = shr_m mrs / 2.
Proof.
  destruct mrs as [[|[p|p|]|p] r s]; simpl; intros H; try lia.
  - done.
  - rewrite Pos2Z.inj_xI. apply (Z.div_unique _ _ _ 1); lia.
  - rewrite Pos2Z.inj_xO. apply (Z.div_unique _ _ _ 0); lia.
  - done.
Qed.

Lemma pow2_xO n : 2 ^ Z.pos n~0 = 2 ^ Z.pos n * 2 ^ Z.pos n.
Proof.
  replace (Z.pos n~0) with (Z.pos n + Z.pos n) by lia.
  apply Z.pow_add_r; lia.
Qed.

Lemma pow2_xI n : 2 ^ Z.pos n~1 = 2 * (2 ^ Z.pos n * 2 ^ Z.pos n).
Proof.
  replace (Z.pos n~1) with (Z.succ (Z.pos n~0)) by lia.
  rewrite Z.pow_succ_r by lia. by rewrite pow2_xO.
Qed.

Lemma iter_pos_shr_m n mrs :
  0 <= shr_m mrs ->
  shr_m (SpecFloat.iter_pos shr_1 n mrs) = shr_m mrs / 2 ^ Z.pos n.
Proof.
  revert mrs. induction n as [n IH|n IH|]; intros mrs H; simpl SpecFloat.iter_pos.
  - assert (H1 : 0 <= shr_m (shr_1 mrs)).
    { rewrite shr_1_m by done. apply Z.div_pos; lia. }
    assert (H2 : 0 <= shr_m (SpecFloat.iter_pos shr_1 n (shr_1 mrs))).
    { rewrite IH by done. apply Z.div_pos; lia. }
    rewrite IH, IH, shr_1_m by done.
    rewrite !Z.div_div by lia. by rewrite pow2_xI.
  - assert (H2 : 0 <= shr_m (SpecFloat.iter_pos shr_1 n mrs)).
    { rewrite IH by done. apply Z.div_pos; lia. }
    rewrite IH, IH by done. rewrite Z.div_div by lia. by rewrite pow2_xO.
  - rewrite shr_1_m by done. done.
Qed.

Lemma digits2_pos_mono m m' :
  (m <= m')%positive -> Z.pos (digits2_pos m) <= Z.pos (digits2_pos m').
Proof.
  intros Hle. pose proof (digits2_pos_bounds m) as [Blo _].
  pose proof (digits2_pos_bounds m') as [_ Bhi'].
  destruct (decide (Z.pos (digits2_pos m) <= Z.pos (digits2_pos m'))) as [|Hn]; [done|].
  exfalso.
  assert (2 ^ Z.pos (digits2_pos m') <= 2 ^ (Z.pos (digits2_pos m) - 1))
    by (apply Z.pow_le_mono_r; lia).
  lia.
Qed.

Section RoundingFacts.
Variables prec emax : Z.
Hypothesis Hprec : 0 < prec.

Lemma shr_m_of_loc m l : shr_m (shr_record_of_loc m l) = m.
Proof. by destruct l as [|[]]. Qed.

(** Shifting to the target exponent keeps a number that is above the
    smallest exponent positive, and keeps its order of magnitude. *)
Lemma shr_fexp_pos p e l :
  emin prec emax < Z.pos (digits2_pos p) + e ->
  exists p' e',
    shr_m (shr_fexp prec emax (Z.pos p) e l).1 = Z.pos p' /\
    (shr_fexp prec emax (Z.pos p) e l).2 = e' /\
    Z.pos (digits2_pos p') + e' = Z.pos (digits2_pos p) + e.
Proof.
  intros Hmin. unfold shr_fexp, shr. cbn [Zdigits2].
  set (d := Z.pos (digits2_pos p)) in *.
  destruct (fexp prec emax (d + e) - e) as [|n|n] eqn:En.
  - exists p, e. cbn [fst snd]. by rewrite shr_m_of_loc.
  - assert (Hn : Z.pos n < d) by (unfold fexp in En; lia).
    cbn [fst snd]. rewrite iter_pos_shr_m by (rewrite shr_m_of_loc; lia).
    rewrite shr_m_of_loc.
    pose proof (digits2_pos_bounds p) as [Blo Bhi]. fold d in Blo, Bhi.
    assert (Hq : 2 ^ (d - Z.pos n - 1) <= Z.pos p / 2 ^ Z.pos n < 2 ^ (d - Z.pos n)).
    { assert (E1 : 2 ^ (d - 1) = 2 ^ (d - Z.pos n - 1) * 2 ^ Z.pos n).
      { rewrite <- Z.pow_add_r by lia. f_equal. lia. }
      assert (E2 : 2 ^ d = 2 ^ (d - Z.pos n) * 2 ^ Z.pos n).
      { rewrite <- Z.pow_add_r by lia. f_equal. lia. }
      assert (0 < 2 ^ Z.pos n) by (apply Z.pow_pos_nonneg; lia).
      split.
      - apply Z.div_le_lower_bound; [done|]. lia.
      - apply Z.div_lt_upper_bound; [done|]. lia. }
    assert (0 < 2 ^ (d - Z.pos n - 1)) by (apply Z.pow_pos_nonneg; lia).
    destruct (Z.pos p / 2 ^ Z.pos n) as [|q|q] eqn:Eq; try lia.
    exists q, (e + Z.pos n). split_and!; [done..|].
    rewrite (digits2_pos_unique q (d - Z.pos n)); [lia|done].
  - exists p, e. cbn [fst snd]. by rewrite shr_m_of_loc.
Qed.

Lemma round_nearest_even_pos p l :
  exists p', round_nearest_even (Z.pos p) l = Z.pos p' /\
    Z.pos (digits2_pos p) <= Z.pos (digits2_pos p') <= Z.pos (digits2_pos p) + 1.
Proof.
  assert (Hs : Z.pos (digits2_pos p) <= Z.pos (digits2_pos (p + 1))
               <= Z.pos (digits2_pos p) + 1).
  { split; [apply digits2_pos_mono; lia|].
    pose proof (digits2_pos_bounds p) as [_ Bhi].
    apply digits2_pos_le; [lia|].
    rewrite Z.pow_add_r by lia. change (2 ^ 1) with 2. lia. }
  destruct l as [|[]]; cbn [round_nearest_even];
    try (exists p; split; [done|lia]).
  - destruct (Z.even (Z.pos p)); [exists p; split; [done|lia]|].
    exists (p + 1)%positive. split; [done|]. done.
  - exists (p + 1)%positive. split; [done|]. done.
Qed.

(** Rounding a positive number that is above the smallest exponent gives
    a positive number or an infinity, of the same order of magnitude. *)
Lemma binary_round_aux_pos s p e l :
  emin prec emax < Z.pos (digits2_pos p) + e ->
  exists p' e',
    binary_round_aux prec emax s (Z.pos p) e l
    = (if e' <=? emax - prec then S754_finite s p' e' else S754_infinity s) /\
    Z.pos (digits2_pos p) + e <= Z.pos (digits2_pos p') + e'
    <= Z.pos (digits2_pos p) + e + 1.
Proof.
  intros Hmin. unfold binary_round_aux.
  destruct (shr_fexp_pos p e l Hmin) as (p1 & e1 & Hm1 & He1 & Hd1).
  destruct (shr_fexp prec emax (Z.pos p) e l) as [mrs1 e1'].
  cbn [fst snd] in Hm1, He1. subst e1'. rewrite Hm1.
  destruct (round_nearest_even_pos p1 (loc_of_shr_record mrs1)) as (p2 & -> & Hd2).
  destruct (shr_fexp_pos p2 e1 loc_Exact ltac:(lia)) as (p3 & e3 & Hm3 & He3 & Hd3).
  destruct (shr_fexp prec emax (Z.pos p2) e1 loc_Exact) as [mrs3 e3'].
  cbn [fst snd] in Hm3, He3. subst e3'. rewrite Hm3.
  exists p3, e3. split; [done|lia].
Qed.
End RoundingFacts.

Lemma shl_align_digits p e e' :
  Z.pos (digits2_pos (shl_align p e e').1) + (shl_align p e e').2
  = Z.pos (digits2_pos p) + e.
Proof.
  unfold shl_align. destruct (e' - e) as [|d|d] eqn:E; cbn [fst snd]; try done.
  rewrite digits2_pos_iter_xO. lia.
Qed.


(** ** Orders of magnitude

    Bounds on the results of the binary32 operations, from the magnitudes
    of the operands. *)

Lemma small_mono k k' x : small k x -> k <= k' -> small k' x.
Proof. destruct x; simpl; try done. lia. Qed.

Lemma small_finite k x : small k x -> is_finite x = true.
Proof. by destruct x. Qed.

Lemma Zdigits2_nonneg m : 0 <= Zdigits2 m.
Proof. destruct m; simpl; lia. Qed.

Lemma Zdigits2_le m k : 0 <= m -> 0 <= k -> m < 2 ^ k -> Zdigits2 m <= k.
Proof.
  intros Hm Hk Hlt. destruct m as [|p|p]; simpl; try lia.
  by apply digits2_pos_le.
Qed.

(** A shift to the target exponent: the mantissa stays non-negative, the
    magnitude does not grow and the exponent is at least [emin]. *)
Lemma shr_fexp_le m e l :
  0 <= m ->
  let r := shr_fexp F32.prec F32.emax m e l in
  0 <= shr_m r.1 /\
  Zdigits2 (shr_m r.1) + r.2 <= Z.max (Zdigits2 m + e) (-149) /\
  Z.max (Zdigits2 m + e - 24) (-149) <= r.2 /\ e <= r.2.
Proof.
  intros Hm. unfold shr_fexp, shr. cbv zeta.
  set (d := Zdigits2 m). pose proof (Zdigits2_nonneg m) as Hd. fold d in Hd.
  destruct (fexp F32.prec F32.emax (d + e) - e) as [|n|n] eqn:En;
    cbn [fst snd]; rewrite ?shr_m_of_loc;
    unfold fexp, emin, F32.prec, F32.emax in En.
  - split_and!; [done|unfold d; lia|fold d; lia|lia].
  - rewrite iter_pos_shr_m by (rewrite shr_m_of_loc; lia).
    rewrite shr_m_of_loc.
    assert (H2 : 0 < 2 ^ Z.pos n) by (apply Z.pow_pos_nonneg; lia).
    assert (Hq : 0 <= m / 2 ^ Z.pos n) by (apply Z.div_pos; lia).
    split_and!; [done| |fold d; lia|lia].
    destruct (decide (m / 2 ^ Z.pos n = 0)) as [->|Hnz]; [simpl; lia|].
    assert (Hdn : Z.pos n < d).
    { destruct (decide (Z.pos n < d)) as [|Hge]; [done|]. exfalso. apply Hnz.
      apply Z.div_small. split; [done|].
      destruct m as [|p|p]; try lia. unfold d in Hge. simpl in Hge.
      pose proof (digits2_pos_bounds p) as [_ Bhi].
      assert (2 ^ Z.pos (digits2_pos p) <= 2 ^ Z.pos n)
        by (apply Z.pow_le_mono_r; lia).
      lia. }
    assert (Zdigits2 (m / 2 ^ Z.pos n) <= d - Z.pos n); [|lia].
    apply Zdigits2_le; [done|lia|].
    apply Z.div_lt_upper_bound; [done|].
    rewrite <- Z.pow_add_r by lia. replace (Z.pos n + (d - Z.pos n)) with d by lia.
    destruct m as [|p|p];
      [exfalso; apply Hnz; apply Z.div_0_l; lia|apply digits2_pos_bounds|lia].
  - split_and!; [done|unfold d; lia|fold d; lia|lia].
Qed.

Lemma Zdigits2_succ m : 0 <= m -> Zdigits2 (m + 1) <= Zdigits2 m + 1.
Proof.
  intros Hm. destruct m as [|p|p]; try lia; [simpl; lia|].
  change (Z.pos p + 1) with (Z.pos (p + 1)). cbn [Zdigits2].
  pose proof (digits2_pos_bounds p) as [_ Bhi].
  apply digits2_pos_le; [lia|].
  rewrite Z.pow_add_r by lia. change (2 ^ 1) with 2. lia.
Qed.

Lemma round_nearest_even_le m l :
  0 <= m ->
  0 <= round_nearest_even m l /\
  Zdigits2 (round_nearest_even m l) <= Zdigits2 m + 1.
Proof.
  intros Hm. pose proof (Zdigits2_succ m Hm). pose proof (Zdigits2_nonneg m).
  destruct l as [|[]]; cbn [round_nearest_even]; try (split; lia).
  destruct (Z.even m); split; lia.
Qed.

(** What the two shifts and the rounding in between do to the mantissa
    and the exponent. *)
Lemma round_stages s m e l :
  0 <= m ->
  binary_round_aux F32.prec F32.emax s m e l = S754_zero s \/
  exists m3 e3,
    binary_round_aux F32.prec F32.emax s m e l
    = (if e3 <=? 104 then S754_finite s m3 e3 else S754_infinity s) /\
    Z.pos (digits2_pos m3) + e3 <= Z.max (Zdigits2 m + e) (-149) + 1 /\
    -149 <= e3 /\ Z.pos (digits2_pos m3) <= 24.
Proof.
  intros Hm. unfold binary_round_aux.
  pose proof (shr_fexp_le m e l Hm) as (H1 & H2 & H3 & H4). cbv zeta in *.
  destruct (shr_fexp F32.prec F32.emax m e l) as [mrs1 e1]. cbn [fst snd] in *.
  pose proof (round_nearest_even_le (shr_m mrs1) (loc_of_shr_record mrs1) H1)
    as [H5 H6].
  set (m2 := round_nearest_even _ _) in *.
  pose proof (shr_fexp_le m2 e1 loc_Exact H5) as (H7 & H8 & H9 & H10).
  cbv zeta in *.
  destruct (shr_fexp F32.prec F32.emax m2 e1 loc_Exact) as [mrs3 e3]. cbn [fst snd] in *.
  destruct (shr_m mrs3) as [|p3|p3] eqn:E3; [by left| |lia].
  right. exists p3, e3. cbn [Zdigits2] in H8.
  unfold F32.prec, F32.emax. split_and!; [done|lia|lia|lia].
Qed.

(** Rounding [m * 2^e], of magnitude at most [K], gives a zero or a
    finite number of magnitude at most [K + 1]. *)
Lemma round_small s m e l K :
  0 <= m -> Zdigits2 m + e <= K -> -149 <= K -> K <= 104 ->
  small (K + 1) (binary_round_aux F32.prec F32.emax s m e l).
Proof.
  intros Hm HK Hlo Hhi.
  destruct (round_stages s m e l Hm) as [->|(m3 & e3 & -> & H1 & H2 & H3)]; [done|].
  assert (Hdig : 0 < Z.pos (digits2_pos m3)) by lia.
  destruct (e3 <=? 104) eqn:Ee; cbn [small]; unfold magnitude; lia.
Qed.

Lemma round_regular s m e l :
  0 <= m -> regular (binary_round_aux F32.prec F32.emax s m e l).
Proof.
  intros Hm.
  destruct (round_stages s m e l Hm) as [->|(m3 & e3 & -> & H1 & H2 & H3)]; [done|].
  by destruct (e3 <=? 104).
Qed.

(** *** Upper bounds on the results of the operations *)

Lemma digits2_pos_mul p q :
  Z.pos (digits2_pos (p * q)) <= Z.pos (digits2_pos p) + Z.pos (digits2_pos q).
Proof.
  apply digits2_pos_le; [lia|].
  pose proof (digits2_pos_bounds p) as [_ Hp].
  pose proof (digits2_pos_bounds q) as [_ Hq].
  rewrite Z.pow_add_r by lia. rewrite Pos2Z.inj_mul. nia.
Qed.

Lemma mul_small a b K x y :
  small a x -> small b y -> a + b <= K -> -149 <= K <= 104 ->
  small (K + 1) (x * y)%f32.
Proof.
  intros Hx Hy HK HKr.
  destruct x as [sx|sx| |sx mx ex], y as [sy|sy| |sy my ey]; try done.
  cbn [small] in Hx, Hy. unfold magnitude in *.
  unfold F32.mul. cbn [SFmul].
  apply round_small; [lia| |lia|lia].
  cbn [Zdigits2]. pose proof (digits2_pos_mul mx my). lia.
Qed.

Lemma mul_regular x y : regular (x * y)%f32.
Proof.
  destruct x as [sx|sx| |sx mx ex], y as [sy|sy| |sy my ey]; try done.
  unfold F32.mul. cbn [SFmul]. apply round_regular. lia.
Qed.

Lemma Zdigits2_abs_le m k : 0 <= k -> Z.abs m < 2 ^ k -> Zdigits2 m <= k.
Proof.
  intros Hk Hm. destruct m as [|p|p]; cbn [Zdigits2]; [lia|..];
    apply digits2_pos_le; done.
Qed.

Lemma shl_align_snd p e e' : e' <= e -> (shl_align p e e').2 = e'.
Proof.
  intros Hle. unfold shl_align. destruct (e' - e) as [|d|d] eqn:E; cbn [snd]; lia.
Qed.

Lemma pos_lt_pow_digits p : Z.pos p < 2 ^ Z.pos (digits2_pos p).
Proof. apply digits2_pos_bounds. Qed.

(** A mantissa aligned to the exponent [ez] is below [2^(a - ez)] when the
    number is below [2^a]. *)
Lemma shl_align_lt p e ez a :
  ez <= e -> magnitude p e <= a ->
  Z.pos (shl_align p e ez).1 < 2 ^ (a - ez).
Proof.
  intros Hle Ha. unfold magnitude in Ha.
  pose proof (shl_align_digits p e ez) as Hd. rewrite shl_align_snd in Hd by done.
  pose proof (pos_lt_pow_digits (shl_align p e ez).1) as Hlt.
  assert (2 ^ Z.pos (digits2_pos (shl_align p e ez).1) <= 2 ^ (a - ez))
    by (apply Z.pow_le_mono_r; lia).
  lia.
Qed.

Lemma binary_round_small s p e K :
  magnitude p e <= K -> -149 <= K -> K <= 104 ->
  small (K + 1) (binary_round F32.prec F32.emax s p e).
Proof.
  intros HK Hlo Hhi. unfold binary_round, magnitude in *.
  pose proof (shl_align_digits p e (fexp F32.prec F32.emax (Z.pos (digits2_pos p) + e))) as Hal.
  destruct (shl_align p e _) as [mz ez]. cbn [fst snd] in Hal.
  apply round_small; cbn [Zdigits2]; lia.
Qed.

Lemma binary_round_regular s p e : regular (binary_round F32.prec F32.emax s p e).
Proof.
  unfold binary_round. destruct (shl_align p e _) as [mz ez].
  apply round_regular. lia.
Qed.

Lemma binary_normalize_small m e s0 K :
  Zdigits2 m + e <= K -> -149 <= K -> K <= 104 ->
  small (K + 1) (binary_normalize F32.prec F32.emax m e s0).
Proof.
  intros HK Hlo Hhi. destruct m as [|p|p]; cbn [binary_normalize Zdigits2] in *;
    [done|by apply binary_round_small..].
Qed.

Lemma binary_normalize_regular m e s0 : regular (binary_normalize F32.prec F32.emax m e s0).
Proof. destruct m; cbn [binary_normalize]; [done|apply binary_round_regular..]. Qed.

Lemma cond_Zopp_abs s m : Z.abs (cond_Zopp s m) = Z.abs m.
Proof. destruct s; simpl; lia. Qed.

(** The mantissa of a sum or difference aligned at [ez]. *)
Lemma aligned_sum_small a sx mx ex sy my ey (op : Z -> Z -> Z) :
  (forall u v, Z.abs (op u v) <= Z.abs u + Z.abs v) ->
  magnitude mx ex <= a -> magnitude my ey <= a ->
  let ez := Z.min ex ey in
  Zdigits2 (op (cond_Zopp sx (Z.pos (shl_align mx ex ez).1))
               (cond_Zopp sy (Z.pos (shl_align my ey ez).1))) + ez <= a + 1.
Proof.
  intros Hop Hx Hy ez.
  pose proof (shl_align_lt mx ex ez a ltac:(lia) Hx) as Hmx.
  pose proof (shl_align_lt my ey ez a ltac:(lia) Hy) as Hmy.
  assert (Hpos : 0 < a - ez).
  { unfold magnitude in Hx, Hy. lia. }
  match goal with |- Zdigits2 ?m + _ <= _ =>
    assert (Zdigits2 m <= a - ez + 1); [|lia]
  end.
  apply Zdigits2_abs_le; [lia|].
  rewrite Z.pow_add_r by lia. change (2 ^ 1) with 2.
  match goal with |- Z.abs (op ?u ?v) < _ =>
    pose proof (Hop u v) as Hb; rewrite !cond_Zopp_abs in Hb
  end.
  lia.
Qed.

Lemma add_small a x y :
  small a x -> small a y -> -149 <= a + 1 -> a + 1 <= 104 ->
  small (a + 2) (x + y)%f32.
Proof.
  intros Hx Hy Hlo Hhi.
  destruct x as [sx|sx| |sx mx ex], y as [sy|sy| |sy my ey]; try done.
  - by destruct sx, sy.
  - cbn [F32.add SFadd]. apply (small_mono a); [done|lia].
  - cbn [F32.add SFadd]. apply (small_mono a); [done|lia].
  - unfold F32.add. cbn [SFadd]. cbn [small] in Hx, Hy.
    replace (a + 2) with (a + 1 + 1) by lia.
    apply binary_normalize_small; [|lia|lia].
    apply (aligned_sum_small a sx mx ex sy my ey Z.add); [lia|done|done].
Qed.

Lemma sub_small a x y :
  small a x -> small a y -> -149 <= a + 1 -> a + 1 <= 104 ->
  small (a + 2) (x - y)%f32.
Proof.
  intros Hx Hy Hlo Hhi.
  destruct x as [sx|sx| |sx mx ex], y as [sy|sy| |sy my ey]; try done.
  - by destruct sx, sy.
  - cbn [F32.sub SFsub small] in *. lia.
  - cbn [F32.sub SFsub]. apply (small_mono a); [done|lia].
  - unfold F32.sub. cbn [SFsub]. cbn [small] in Hx, Hy.
    replace (a + 2) with (a + 1 + 1) by lia.
    apply binary_normalize_small; [|lia|lia].
    apply (aligned_sum_small a sx mx ex sy my ey Z.sub); [lia|done|done].
Qed.

Lemma add_regular x y : regular x -> regular y -> regular (x + y)%f32.
Proof.
  intros Hx Hy.
  destruct x as [sx|sx| |sx mx ex], y as [sy|sy| |sy my ey]; try done;
    try (by destruct sx, sy).
  unfold F32.add. cbn [SFadd]. apply binary_normalize_regular.
Qed.

Lemma shiftl_pos_mul m s : 0 <= s ->
  match s with Z.pos _ => Z.shiftl m s | 0 => m | Z.neg _ => 0 end = m * 2 ^ s.
Proof.
  intros Hs. destruct s as [|p|p]; [simpl; lia| |lia].
  by rewrite Z.shiftl_mul_pow2 by lia.
Qed.

Lemma div_eucl_fst a b : (Z.div_eucl a b).1 = a / b.
Proof. reflexivity. Qed.

(** The quotient computed by the division core is below
    [2^(E1 - E2 + 1)]. *)
Lemma div_core_small mx ex my ey :
  let r := SFdiv_core_binary F32.prec F32.emax (Z.pos mx) ex (Z.pos my) ey in
  0 <= r.1.1 /\
  Zdigits2 r.1.1 + r.1.2 <= Z.max (magnitude mx ex - magnitude my ey + 1) (-149).
Proof.
  unfold SFdiv_core_binary, magnitude. cbn [Zdigits2].
  set (d1 := Z.pos (digits2_pos mx)). set (d2 := Z.pos (digits2_pos my)).
  set (e' := Z.min _ _). set (s := ex - ey - e').
  assert (Hs : 0 <= s) by (unfold s, e'; lia).
  rewrite (shiftl_pos_mul (Z.pos mx) s Hs).
  pose proof (div_eucl_fst (Z.pos mx * 2 ^ s) (Z.pos my)) as Hq.
  destruct (Z.div_eucl (Z.pos mx * 2 ^ s) (Z.pos my)) as [q r]. cbn [fst snd] in *.
  subst q.
  assert (H2s : 0 < 2 ^ s) by (apply Z.pow_pos_nonneg; lia).
  assert (Hq0 : 0 <= Z.pos mx * 2 ^ s / Z.pos my) by (apply Z.div_pos; lia).
  split; [done|].
  pose proof (digits2_pos_bounds mx) as [_ Hmx]. fold d1 in Hmx.
  pose proof (digits2_pos_bounds my) as [Hmy _]. fold d2 in Hmy.
  assert (Hd1 : 0 < d1) by (unfold d1; lia).
  assert (Hd2 : 0 < d2) by (unfold d2; lia).
  assert (Hnum : Z.pos mx * 2 ^ s < 2 ^ (d1 + s)) by (rewrite Z.pow_add_r by lia; nia).
  destruct (decide (d2 - 1 <= d1 + s)) as [Hge|Hlt].
  - assert (Zdigits2 (Z.pos mx * 2 ^ s / Z.pos my) <= d1 + s - d2 + 1); [|unfold s in *; lia].
    apply Zdigits2_le; [done|lia|].
    apply Z.div_lt_upper_bound; [lia|].
    assert (2 ^ (d1 + s) = 2 ^ (d2 - 1) * 2 ^ (d1 + s - d2 + 1)).
    { rewrite <- Z.pow_add_r by lia. f_equal. lia. }
    assert (0 < 2 ^ (d1 + s - d2 + 1)) by (apply Z.pow_pos_nonneg; lia).
    nia.
  - assert (2 ^ (d1 + s) <= 2 ^ (d2 - 1)) by (apply Z.pow_le_mono_r; lia).
    rewrite Z.div_small by lia. cbn [Zdigits2].
    unfold e', fexp, emin, F32.prec, F32.emax. lia.
Qed.

Lemma div_small a b K x y :
  small a x -> big b y -> a - b + 1 <= K -> -149 <= K -> K <= 104 ->
  small (K + 1) (x / y)%f32.
Proof.
  intros Hx Hy HK Hlo Hhi.
  destruct x as [sx|sx| |sx mx ex], y as [sy|sy| |sy my ey]; try done.
  cbn [small big] in Hx, Hy. unfold F32.div. cbn [SFdiv].
  pose proof (div_core_small mx ex my ey) as [H0 H1]. cbv zeta in *.
  destruct (SFdiv_core_binary _ _ _ _ _ _) as [[mz ez] lz]. cbn [fst snd] in *.
  apply round_small; lia.
Qed.

Lemma div_regular x y : regular (x / y)%f32.
Proof.
  destruct x as [sx|sx| |sx mx ex], y as [sy|sy| |sy my ey]; try done.
  unfold F32.div. cbn [SFdiv].
  pose proof (div_core_small mx ex my ey) as [H0 H1]. cbv zeta in *.
  destruct (SFdiv_core_binary _ _ _ _ _ _) as [[mz ez] lz]. cbn [fst snd] in *.
  by apply round_regular.
Qed.

Lemma sqrtrem_fst m : 0 <= m -> (Z.sqrtrem m).1 = Z.sqrt m.
Proof.
  intros Hm. pose proof (Z.sqrtrem_spec m Hm) as H.
  destruct (Z.sqrtrem m) as [q r]. cbn [fst]. destruct H as [-> Hr].
  symmetry. apply Z.sqrt_unique. lia.
Qed.

Lemma pow2_square j : 0 <= j -> 2 ^ j * 2 ^ j = 2 ^ (2 * j).
Proof. intros. rewrite <- Z.pow_add_r by lia. f_equal. lia. Qed.

(** The root computed by the square-root core lies between
    [2^((E+1)/2 - 1)] and [2^((E+1)/2)]. *)
Lemma sqrt_core_bounds mx ex :
  let r := SFsqrt_core_binary F32.prec F32.emax (Z.pos mx) ex in
  exists q, r.1.1 = Z.pos q /\
    Z.pos (digits2_pos q) + r.1.2 = (magnitude mx ex + 1) / 2.
Proof.
  unfold SFsqrt_core_binary, magnitude. cbn [Zdigits2].
  set (d := Z.pos (digits2_pos mx)).
  set (e' := Z.min _ _). set (s := ex - 2 * e').
  assert (He' : 2 * e' <= ex).
  { unfold e'. rewrite !Z.div2_div.
    pose proof (Z.mul_div_le ex 2 ltac:(lia)). lia. }
  assert (Hs : 0 <= s) by (unfold s; lia).
  change (Z.pos 2 * e') with (2 * e'). fold s.
  rewrite (shiftl_pos_mul (Z.pos mx) s Hs).
  assert (H2s : 0 < 2 ^ s) by (apply Z.pow_pos_nonneg; lia).
  pose proof (sqrtrem_fst (Z.pos mx * 2 ^ s) ltac:(lia)) as Hq.
  destruct (Z.sqrtrem (Z.pos mx * 2 ^ s)) as [q r]. cbn [fst snd] in *. subst q.
  pose proof (digits2_pos_bounds mx) as [Hlo Hhi]. fold d in Hlo, Hhi.
  assert (Hd : 0 < d) by (unfold d; lia).
  set (m' := Z.pos mx * 2 ^ s) in *.
  assert (Hm'lo : 2 ^ (d + s - 1) <= m').
  { replace (d + s - 1) with (d - 1 + s) by lia. rewrite Z.pow_add_r by lia.
    unfold m'. nia. }
  assert (Hm'hi : m' < 2 ^ (d + s)).
  { rewrite Z.pow_add_r by lia. unfold m'. nia. }
  pose proof (Z.sqrt_spec m' ltac:(lia)) as [Hr1 Hr2].
  pose proof (Z.sqrt_nonneg m') as Hr0.
  set (q := Z.sqrt m') in *.
  set (j := (d + s + 1) / 2).
  assert (Hj : 2 * j <= d + s + 1 < 2 * j + 2).
  { unfold j. pose proof (Z.div_mod (d + s + 1) 2 ltac:(lia)).
    pose proof (Z.mod_pos_bound (d + s + 1) 2 ltac:(lia)). lia. }
  assert (Hj1 : 1 <= j) by lia.
  (* 2^(j-1) <= q < 2^j *)
  assert (Hqhi : q < 2 ^ j).
  { destruct (decide (q < 2 ^ j)) as [|Hn]; [done|]. exfalso.
    assert (2 ^ j * 2 ^ j <= q * q) by nia.
    rewrite pow2_square in H by lia.
    assert (2 ^ (d + s) <= 2 ^ (2 * j)) by (apply Z.pow_le_mono_r; lia).
    lia. }
  assert (Hqlo : 2 ^ (j - 1) <= q).
  { destruct (decide (2 ^ (j - 1) <= q)) as [|Hn]; [done|]. exfalso.
    assert (Z.succ q <= 2 ^ (j - 1)) by lia.
    assert (0 < 2 ^ (j - 1)) by (apply Z.pow_pos_nonneg; lia).
    assert (Z.succ q * Z.succ q <= 2 ^ (j - 1) * 2 ^ (j - 1)) by nia.
    rewrite pow2_square in H1 by lia.
    assert (2 ^ (2 * (j - 1)) <= 2 ^ (d + s - 1)) by (apply Z.pow_le_mono_r; lia).
    lia. }
  assert (0 < 2 ^ (j - 1)) by (apply Z.pow_pos_nonneg; lia).
  destruct q as [|q'|q'] eqn:Eq; [lia| |lia].
  exists q'. split; [done|].
  rewrite (digits2_pos_unique q' j) by done.
  unfold j, s. 
  replace (d + ex + 1) with (d + (ex - 2 * e') + 1 + e' * 2) by lia.
  rewrite Z.div_add by lia. done.
Qed.

Lemma sqrt_small a K x :
  small a x -> (a + 1) / 2 <= K -> -149 <= K -> K <= 104 ->
  nonneg x -> small (K + 1) (F32.sqrt x).
Proof.
  intros Hx HK Hlo Hhi Hn.
  destruct x as [sx|sx| |[] mx ex]; try done.
  cbn [small] in Hx. unfold F32.sqrt. cbn [SFsqrt].
  pose proof (sqrt_core_bounds mx ex) as (q & Hq & Hd). cbv zeta in *.
  destruct (SFsqrt_core_binary _ _ _ _) as [[mz ez] lz]. cbn [fst snd] in *.
  subst mz. apply round_small; cbn [Zdigits2]; [lia| |lia|lia].
  assert ((magnitude mx ex + 1) / 2 <= (a + 1) / 2) by (apply Z.div_le_mono; lia).
  lia.
Qed.

Lemma sqrt_regular x : regular (F32.sqrt x).
Proof.
  destruct x as [sx|[]| |[] mx ex]; try done.
  unfold F32.sqrt. cbn [SFsqrt].
  pose proof (sqrt_core_bounds mx ex) as (q & Hq & Hd). cbv zeta in *.
  destruct (SFsqrt_core_binary _ _ _ _) as [[mz ez] lz]. cbn [fst snd] in *.
  subst mz. by apply round_regular.
Qed.

(** Rounding a positive number above the smallest exponent keeps it
    positive and does not lower its magnitude. *)
Lemma round_atleast p e l K :
  K <= Z.pos (digits2_pos p) + e -> -149 < K ->
  atleast K (binary_round_aux F32.prec F32.emax false (Z.pos p) e l).
Proof.
  intros HK Hlo.
  destruct (binary_round_aux_pos F32.prec F32.emax ltac:(done) false p e l)
    as (p' & e' & -> & H1 & H2).
  { unfold emin, F32.prec, F32.emax. lia. }
  destruct (e' <=? _); cbn [atleast]; [unfold magnitude; lia|done].
Qed.

Lemma sqrt_atleast K x :
  atleast K x -> -149 < (K + 1) / 2 -> atleast ((K + 1) / 2) (F32.sqrt x).
Proof.
  intros Hx Hlo. destruct x as [sx|[]| |[] mx ex]; try done.
  cbn [atleast] in Hx. unfold F32.sqrt. cbn [SFsqrt].
  pose proof (sqrt_core_bounds mx ex) as (q & Hq & Hd). cbv zeta in *.
  destruct (SFsqrt_core_binary _ _ _ _) as [[mz ez] lz]. cbn [fst snd] in *.
  subst mz. apply round_atleast; [|done].
  assert ((K + 1) / 2 <= (magnitude mx ex + 1) / 2) by (apply Z.div_le_mono; lia).
  lia.
Qed.

Lemma digits2_pos_mul_ge p q :
  Z.pos (digits2_pos p) + Z.pos (digits2_pos q) - 1 <= Z.pos (digits2_pos (p * q)).
Proof.
  pose proof (digits2_pos_bounds p) as [Hp _].
  pose proof (digits2_pos_bounds q) as [Hq _].
  pose proof (digits2_pos_bounds (p * q)) as [_ Hpq].
  set (dp := Z.pos (digits2_pos p)) in *. set (dq := Z.pos (digits2_pos q)) in *.
  set (d := Z.pos (digits2_pos (p * q))) in *.
  assert (0 < dp) by (unfold dp; lia). assert (0 < dq) by (unfold dq; lia).
  destruct (decide (dp + dq - 1 <= d)) as [|Hn]; [done|]. exfalso.
  assert (2 ^ d <= 2 ^ (dp - 1 + (dq - 1))) by (apply Z.pow_le_mono_r; lia).
  rewrite Z.pow_add_r in H1 by lia.
  assert (0 < 2 ^ (dp - 1)) by (apply Z.pow_pos_nonneg; lia).
  assert (0 < 2 ^ (dq - 1)) by (apply Z.pow_pos_nonneg; lia).
  rewrite Pos2Z.inj_mul in Hpq. nia.
Qed.

Lemma round_nonneg m e l :
  0 <= m -> nonneg (binary_round_aux F32.prec F32.emax false m e l).
Proof.
  intros Hm.
  destruct (round_stages false m e l Hm) as [->|(m3 & e3 & -> & _)]; [done|].
  by destruct (e3 <=? 104).
Qed.

Lemma binary_round_nonneg p e : nonneg (binary_round F32.prec F32.emax false p e).
Proof.
  unfold binary_round. destruct (shl_align p e _) as [mz ez].
  apply round_nonneg. lia.
Qed.

Lemma binary_round_atleast p e K :
  K <= magnitude p e -> -149 < K ->
  atleast K (binary_round F32.prec F32.emax false p e).
Proof.
  intros HK Hlo. unfold binary_round, magnitude in *.
  pose proof (shl_align_digits p e
    (fexp F32.prec F32.emax (Z.pos (digits2_pos p) + e))) as Hal.
  destruct (shl_align p e _) as [mz ez]. cbn [fst snd] in Hal.
  apply round_atleast; lia.
Qed.

Lemma square_nonneg x : (x * x)%f32 = S754_nan \/ nonneg (x * x)%f32.
Proof.
  destruct x as [[]|[]| |[] m e]; try (by right); try (by left);
    right; unfold F32.mul; cbn [SFmul xorb]; apply round_nonneg; lia.
Qed.

Lemma square_atleast s m e :
  -149 < 2 * magnitude m e - 1 ->
  atleast (2 * magnitude m e - 1) (S754_finite s m e * S754_finite s m e)%f32.
Proof.
  intros Hlo. unfold F32.mul. cbn [SFmul]. rewrite xorb_nilpotent.
  apply round_atleast; [|done].
  pose proof (digits2_pos_mul_ge m m). unfold magnitude. lia.
Qed.

Lemma add_nonneg a b : nonneg a -> nonneg b -> nonneg (a + b)%f32.
Proof.
  intros Ha Hb.
  destruct a as [sa|[]| |[] ma ea], b as [sb|[]| |[] mb eb]; try done;
    try (by destruct sa, sb).
  unfold F32.add. cbn [SFadd cond_Zopp]. cbn [binary_normalize Z.add].
  apply binary_round_nonneg.
Qed.

Lemma add_finite_inv a b :
  nonneg a -> nonneg b -> is_finite (a + b)%f32 = true ->
  is_finite a = true /\ is_finite b = true.
Proof.
  intros Ha Hb.
  by destruct a as [sa|[]| |[] ma ea], b as [sb|[]| |[] mb eb].
Qed.

Lemma add_atleast_l K a b :
  atleast K a -> nonneg b -> -149 < K -> atleast K (a + b)%f32.
Proof.
  intros Ha Hb Hlo.
  destruct a as [sa|[]| |[] ma ea], b as [sb|[]| |[] mb eb]; try done.
  unfold F32.add. cbn [SFadd cond_Zopp]. cbn [binary_normalize Z.add].
  cbn [atleast] in Ha. apply binary_round_atleast; [|done].
  set (ez := Z.min ea eb).
  pose proof (shl_align_digits ma ea ez) as Hd.
  rewrite shl_align_snd in Hd by lia.
  pose proof (digits2_pos_mono (shl_align ma ea ez).1
    ((shl_align ma ea ez).1 + (shl_align mb eb ez).1) ltac:(lia)).
  unfold magnitude in *. lia.
Qed.

Lemma add_atleast_r K a b :
  nonneg a -> atleast K b -> -149 < K -> atleast K (a + b)%f32.
Proof.
  intros Ha Hb Hlo. unfold F32.add. rewrite SFadd_comm.
  by apply add_atleast_l.
Qed.

Lemma leb_exponent m e m' e' :
  (S754_finite false m e <=? S754_finite false m' e')%f32 = true -> e <= e'.
Proof.
  unfold F32.leb, SFleb, SFcompare.
  destruct (Z.compare_spec e e'); [lia|lia|done].
Qed.

Lemma ltb_exponent m e m' e' :
  (S754_finite false m e <? S754_finite false m' e')%f32 = true -> e <= e'.
Proof.
  unfold F32.ltb, SFltb, SFcompare.
  destruct (Z.compare_spec e e'); [lia|lia|done].
Qed.

Lemma regular_atleast m e :
  regular (S754_finite false m e) -> atleast (-148) (S754_finite false m e).
Proof. cbn [regular atleast]. unfold magnitude. lia. Qed.

Lemma component_small d r2 mr er :
  F32.sqrt r2 = S754_finite false mr er -> -74 <= magnitude mr er ->
  is_finite (d * d)%f32 = true ->
  (forall K, -149 < K -> atleast K (d * d)%f32 -> atleast K r2) ->
  small (magnitude mr er) d.
Proof.
  intros Hr Hlow Hfin Hat. destruct d as [s|s| |s m e]; try done.
  cbn [small]. destruct (decide (-149 < 2 * magnitude m e - 1)) as [Hbig|Hsmall]; [|lia].
  pose proof (Hat _ Hbig (square_atleast s m e Hbig)) as H2.
  apply sqrt_atleast in H2.
  - rewrite Hr in H2. cbn [atleast] in H2.
    replace (2 * magnitude m e - 1 + 1) with (magnitude m e * 2) in H2 by lia.
    by rewrite Z.div_mul in H2 by lia.
  - replace (2 * magnitude m e - 1 + 1) with (magnitude m e * 2) by lia.
    rewrite Z.div_mul by lia. lia.
Qed.

(** The squared distance is not negative, its terms neither; when it is
    finite each difference is below the root in magnitude. *)
Lemma radius_bounds dx dy dz :
  let r := F32.sqrt (dx * dx + dy * dy + dz * dz)%f32 in
  (f0 <? r)%f32 = true -> (r <=? h)%f32 = true ->
  exists mr er,
    r = S754_finite false mr er /\ magnitude mr er <= 1 /\
    small (magnitude mr er) dx /\ small (magnitude mr er) dy /\
    small (magnitude mr er) dz.
Proof.
  cbv zeta.
  pose proof (sqrt_regular (dx * dx + dy * dy + dz * dz)%f32) as Hreg.
  set (xx := (dx * dx)%f32) in *. set (yy := (dy * dy)%f32) in *.
  set (zz := (dz * dz)%f32) in *. set (r2 := (xx + yy + zz)%f32) in *.
  intros H0 Hh.
  assert (Hnan : forall a b, a = S754_nan \/ b = S754_nan -> (a + b)%f32 = S754_nan).
  { intros a b [->| ->]; [done|]. by destruct a. }
  destruct (square_nonneg dx) as [Hx|Hx]; fold xx in Hx.
  { exfalso. unfold r2 in H0. rewrite (Hnan xx yy), (Hnan _ zz) in H0 by auto. done. }
  destruct (square_nonneg dy) as [Hy|Hy]; fold yy in Hy.
  { exfalso. unfold r2 in H0. rewrite (Hnan xx yy), (Hnan _ zz) in H0 by auto. done. }
  destruct (square_nonneg dz) as [Hz|Hz]; fold zz in Hz.
  { exfalso. unfold r2 in H0. rewrite (Hnan _ zz) in H0 by auto. done. }
  pose proof (add_nonneg _ _ Hx Hy) as Hxy.
  assert (Hr2reg : regular r2).
  { unfold r2. apply add_regular; [apply add_regular|]; apply mul_regular. }
  destruct (F32.sqrt r2) as [sr|[]| |[] mr er] eqn:Er; try done.
  assert (Hr2 : exists m2 e2, r2 = S754_finite false m2 e2).
  { destruct r2 as [s2|[]| |[] m2 e2]; try done. by eexists _, _. }
  destruct Hr2 as (m2 & e2 & Hr2).
  assert (Hfin : is_finite xx = true /\ is_finite yy = true /\ is_finite zz = true).
  { assert (Hf : is_finite (xx + yy + zz)%f32 = true) by (fold r2; by rewrite Hr2).
    destruct (add_finite_inv _ _ Hxy Hz Hf) as [Hf1 Hf3].
    destruct (add_finite_inv _ _ Hx Hy Hf1) as [Hf2 Hf4]. done. }
  destruct Hfin as (Hfx & Hfy & Hfz).
  exists mr, er. split; [done|]. split.
  { change h with (S754_finite false 10066330 (-23)) in Hh.
    apply leb_exponent in Hh. destruct Hreg as [_ Hd]. unfold magnitude. lia. }
  assert (Hlow : -74 <= magnitude mr er).
  { assert (Hat : atleast (-148) r2) by (rewrite Hr2 in *; by apply regular_atleast).
    apply sqrt_atleast in Hat; [|done]. rewrite Er in Hat. exact Hat. }
  split_and!.
  - apply (component_small dx r2); [done|done|done|].
    intros K HK Hat. unfold r2. by apply add_atleast_l; [apply add_atleast_l|..].
  - apply (component_small dy r2); [done|done|done|].
    intros K HK Hat. unfold r2. by apply add_atleast_l; [apply add_atleast_r|..].
  - apply (component_small dz r2); [done|done|done|].
    intros K HK Hat. unfold r2. by apply add_atleast_r.
Qed.

(** *** Sums that stay below a power of two *)

Lemma shr_1_r mrs : 0 <= shr_m mrs -> shr_r (shr_1 mrs) = Z.odd (shr_m mrs).
Proof. destruct mrs as [[|[p|p|]|p] r s]; simpl; intros H; done || lia. Qed.

(** The round bit after [n] shifts is the bit [n - 1] of the mantissa. *)
Lemma iter_pos_shr_r n mrs :
  0 <= shr_m mrs ->
  shr_r (SpecFloat.iter_pos shr_1 n mrs) = Z.odd (shr_m mrs / 2 ^ (Z.pos n - 1)).
Proof.
  revert mrs. induction n as [n IH|n IH|]; intros mrs H; simpl SpecFloat.iter_pos.
  - assert (H1 : 0 <= shr_m (shr_1 mrs)).
    { rewrite shr_1_m by done. apply Z.div_pos; lia. }
    assert (H2 : 0 <= shr_m (SpecFloat.iter_pos shr_1 n (shr_1 mrs))).
    { rewrite iter_pos_shr_m by done. apply Z.div_pos; lia. }
    rewrite IH, iter_pos_shr_m, shr_1_m by done.
    rewrite !Z.div_div by lia. f_equal. f_equal.
    rewrite <- Z.pow_add_r by lia. rewrite <- (Z.pow_succ_r 2) by lia.
    f_equal. lia.
  - assert (H2 : 0 <= shr_m (SpecFloat.iter_pos shr_1 n mrs)).
    { rewrite iter_pos_shr_m by done. apply Z.div_pos; lia. }
    rewrite IH, iter_pos_shr_m by done. rewrite Z.div_div by lia.
    f_equal. f_equal. rewrite <- Z.pow_add_r by lia. f_equal. lia.
  - rewrite shr_1_r by done. simpl. by rewrite Z.div_1_r.
Qed.

Lemma round_nearest_even_down mrs :
  shr_r mrs = false ->
  round_nearest_even (shr_m mrs) (loc_of_shr_record mrs) = shr_m mrs.
Proof. destruct mrs as [m [] []]; simpl; done. Qed.

(** A shift to the target exponent keeps a number at most [2^B] at most
    [2^B]. *)
Lemma shr_fexp_cap B m e l :
  0 <= m -> e <= B -> -149 <= B -> m <= 2 ^ (B - e) ->
  let r := shr_fexp F32.prec F32.emax m e l in
  r.2 <= B /\ 0 <= shr_m r.1 <= 2 ^ (B - r.2) /\
  (m < 2 ^ (B - e) -> shr_m r.1 < 2 ^ (B - r.2)).
Proof.
  intros Hm He HB Hle. unfold shr_fexp, shr. cbv zeta.
  set (d := Zdigits2 m).
  assert (Hd : d <= B - e + 1).
  { apply Zdigits2_le; [done|lia|]. rewrite Z.pow_add_r by lia. lia. }
  destruct (fexp F32.prec F32.emax (d + e) - e) as [|n|n] eqn:En;
    cbn [fst snd]; rewrite ?shr_m_of_loc;
    unfold fexp, emin, F32.prec, F32.emax in En.
  - split_and!; [done|done|done|done].
  - rewrite iter_pos_shr_m by (rewrite shr_m_of_loc; lia).
    rewrite shr_m_of_loc.
    assert (H2 : 0 < 2 ^ Z.pos n) by (apply Z.pow_pos_nonneg; lia).
    assert (Hsplit : 2 ^ (B - e) = 2 ^ Z.pos n * 2 ^ (B - (e + Z.pos n))).
    { rewrite <- Z.pow_add_r by lia. f_equal. lia. }
    assert (0 < 2 ^ (B - (e + Z.pos n))) by (apply Z.pow_pos_nonneg; lia).
    split_and!; [lia|apply Z.div_pos; lia| |].
    + apply Z.div_le_upper_bound; lia.
    + intros Hlt. apply Z.div_lt_upper_bound; lia.
  - split_and!; [done|done|done|done].
Qed.

(** Rounding is monotone: below [2^B] stays at most [2^B]. *)
Lemma round_le B s m e l :
  0 <= m -> e <= B -> -149 <= B -> B <= 104 -> m < 2 ^ (B - e) ->
  match binary_round_aux F32.prec F32.emax s m e l with
  | S754_zero _ => True
  | S754_finite s' m3 e3 => s' = s /\ e3 <= B /\ Z.pos m3 <= 2 ^ (B - e3)
  | _ => False
  end.
Proof.
  intros Hm He HB HB' Hlt. unfold binary_round_aux.
  pose proof (shr_fexp_cap B m e l Hm He HB ltac:(lia)) as (H1 & H2 & H3).
  cbv zeta in *. specialize (H3 Hlt).
  destruct (shr_fexp F32.prec F32.emax m e l) as [mrs1 e1]. cbn [fst snd] in *.
  pose proof (round_nearest_even_le (shr_m mrs1) (loc_of_shr_record mrs1) ltac:(lia))
    as [H5 _].
  assert (H6 : round_nearest_even (shr_m mrs1) (loc_of_shr_record mrs1)
               <= 2 ^ (B - e1)).
  { destruct (loc_of_shr_record mrs1) as [|[]]; cbn [round_nearest_even];
      try lia. destruct (Z.even _); lia. }
  set (m2 := round_nearest_even _ _) in *.
  pose proof (shr_fexp_cap B m2 e1 loc_Exact H5 H1 HB H6) as (H7 & H8 & _).
  cbv zeta in *.
  destruct (shr_fexp F32.prec F32.emax m2 e1 loc_Exact) as [mrs3 e3]. cbn [fst snd] in *.
  destruct (shr_m mrs3) as [|p3|p3] eqn:E3; [done| |lia].
  unfold F32.prec, F32.emax.
  destruct (e3 <=? 128 - 24) eqn:Ee; [split_and!; [done|lia|lia]|lia].
Qed.

(** A number that exceeds [2^B] by less than a quarter of the spacing of
    the numbers above [2^B] is rounded down to [2^B]. *)
Lemma round_cap B s m e l :
  0 <= m -> e <= B - 24 -> -126 <= B -> B <= 104 ->
  m < 2 ^ (B - e) + 2 ^ (B - 24 - e) ->
  match binary_round_aux F32.prec F32.emax s m e l with
  | S754_zero _ => True
  | S754_finite s' m3 e3 => s' = s /\ e3 <= B /\ Z.pos m3 <= 2 ^ (B - e3)
  | _ => False
  end.
Proof.
  intros Hm He HB HB' Hlt.
  destruct (decide (m < 2 ^ (B - e))) as [Hlow|Hhigh];
    [apply round_le; done || lia|].
  unfold binary_round_aux, shr_fexp, shr.
  set (k := B - 24 - e) in *.
  assert (Hk : 0 <= k) by (unfold k; lia).
  assert (Hpk : 0 < 2 ^ k) by (apply Z.pow_pos_nonneg; lia).
  assert (HBe : 2 ^ (B - e) = 16777216 * 2 ^ k).
  { replace (B - e) with (24 + k) by (unfold k; lia).
    by rewrite Z.pow_add_r by lia. }
  assert (Hdig : Zdigits2 m = B - e + 1).
  { destruct m as [|p|p]; [lia| |lia]. cbn [Zdigits2].
    apply digits2_pos_unique. replace (B - e + 1 - 1) with (B - e) by lia.
    split; [lia|]. replace (B - e + 1) with (25 + k) by (unfold k; lia).
    rewrite Z.pow_add_r by lia. change (2 ^ 25) with 33554432. lia. }
  rewrite Hdig.
  replace (fexp F32.prec F32.emax (B - e + 1 + e) - e) with (k + 1)
    by (unfold fexp, emin, F32.prec, F32.emax, k; lia).
  destruct (k + 1) as [|n|n] eqn:En; [lia| |lia].
  set (mrs0 := shr_record_of_loc m l).
  assert (Hm0 : shr_m mrs0 = m) by apply shr_m_of_loc.
  assert (Hm1 : shr_m (SpecFloat.iter_pos shr_1 n mrs0) = 8388608).
  { rewrite iter_pos_shr_m by lia. rewrite Hm0, <- En.
    rewrite Z.pow_add_r by lia. change (2 ^ 1) with 2.
    symmetry. apply (Z.div_unique _ _ _ (m - 8388608 * (2 ^ k * 2))); lia. }
  assert (Hr1 : shr_r (SpecFloat.iter_pos shr_1 n mrs0) = false).
  { rewrite iter_pos_shr_r by lia. rewrite Hm0.
    replace (Z.pos n - 1) with k by lia.
    replace (m / 2 ^ k) with 16777216; [done|].
    apply (Z.div_unique _ _ _ (m - 16777216 * 2 ^ k)); lia. }
  rewrite (round_nearest_even_down _ Hr1), Hm1.
  change (Zdigits2 8388608) with 24.
  replace (fexp F32.prec F32.emax (24 + (e + Z.pos n)) - (e + Z.pos n)) with 0
    by (unfold fexp, emin, F32.prec, F32.emax; lia).
  cbn [fst snd shr_record_of_loc shr_m].
  unfold F32.prec, F32.emax.
  destruct (e + Z.pos n <=? 128 - 24) eqn:Ee; [|lia].
  split_and!; [done|lia|].
  replace (B - (e + Z.pos n)) with 23 by (unfold k in *; lia). done.
Qed.

Lemma pos_iter_xO_value p d : Z.pos (Pos.iter xO p d) = Z.pos p * 2 ^ Z.pos d.
Proof.
  induction d as [|d IH] using Pos.peano_ind.
  - simpl. lia.
  - rewrite Pos.iter_succ, Pos2Z.inj_xO, IH, Pos2Z.inj_succ, Z.pow_succ_r by lia. lia.
Qed.

Lemma shl_align_value p e t :
  (shl_align p e t).2 <= e /\
  Z.pos (shl_align p e t).1 = Z.pos p * 2 ^ (e - (shl_align p e t).2).
Proof.
  unfold shl_align. destruct (t - e) as [|d|d] eqn:E; cbn [fst snd].
  - rewrite Z.sub_diag. simpl. lia.
  - rewrite Z.sub_diag. simpl. lia.
  - split; [lia|]. rewrite pos_iter_xO_value. f_equal. f_equal. lia.
Qed.

Lemma small_capped C B x : small C x -> nonneg x -> C <= B -> capped B x.
Proof.
  intros Hs Hn HC. destruct x as [s|s| |[] m e]; try done.
  cbn [small capped] in *. unfold magnitude in Hs.
  pose proof (pos_lt_pow_digits m).
  assert (2 ^ Z.pos (digits2_pos m) <= 2 ^ (B - e)) by (apply Z.pow_le_mono_r; lia).
  lia.
Qed.

Lemma capped_small B x : capped B x -> small (B + 1) x.
Proof.
  destruct x as [s|s| |[] m e]; try done. cbn [small capped]. intros [He Hm].
  unfold magnitude.
  assert (Z.pos (digits2_pos m) <= B - e + 1); [|lia].
  apply digits2_pos_le; [lia|]. rewrite Z.pow_add_r by lia. lia.
Qed.

(** Adding a term below [2^(B-24)] to a sum that is at most [2^B] leaves
    it at most [2^B]: at [2^B] the term is absorbed by the rounding. *)
Lemma add_capped B s x :
  capped B s -> small (B - 24) x -> nonneg x -> -126 <= B -> B <= 104 ->
  capped B (s + x)%f32.
Proof.
  intros Hs Hx Hn HB HB'.
  destruct s as [ss|ss| |[] ms es], x as [sx|sx| |[] mx ex]; try done.
  - by destruct ss, sx.
  - cbn [F32.add SFadd]. apply (small_capped (B - 24)); [done|done|lia].
  - unfold F32.add. cbn [SFadd cond_Zopp binary_normalize Z.add].
    cbn [capped small] in Hs, Hx. destruct Hs as [Hes Hms]. unfold magnitude in Hx.
    set (ez := Z.min es ex).
    pose proof (shl_align_value ms es ez) as [_ Hvs].
    pose proof (shl_align_value mx ex ez) as [_ Hvx].
    rewrite shl_align_snd in Hvs, Hvx by lia.
    set (ms' := (shl_align ms es ez).1) in *. set (mx' := (shl_align mx ex ez).1) in *.
    change (Z.pos ms' + Z.pos mx') with (Z.pos (ms' + mx')).
    cbn [binary_normalize]. unfold binary_round.
    pose proof (shl_align_value (ms' + mx') ez
      (fexp F32.prec F32.emax (Z.pos (digits2_pos (ms' + mx')) + ez))) as [Hle Hv].
    destruct (shl_align (ms' + mx') ez _) as [mz ez']. cbn [fst snd] in Hle, Hv.
    pose proof (pos_lt_pow_digits mx) as Hmx.
    assert (Hdx : 2 ^ Z.pos (digits2_pos mx) <= 2 ^ (B - 24 - ex))
      by (apply Z.pow_le_mono_r; lia).
    assert (Hp1 : 2 ^ (B - es) * 2 ^ (es - ez) = 2 ^ (B - ez)).
    { rewrite <- Z.pow_add_r by lia. f_equal. lia. }
    assert (Hp2 : 2 ^ (B - 24 - ex) * 2 ^ (ex - ez) = 2 ^ (B - 24 - ez)).
    { rewrite <- Z.pow_add_r by lia. f_equal. lia. }
    assert (Hp3 : 2 ^ (B - ez) * 2 ^ (ez - ez') = 2 ^ (B - ez')).
    { rewrite <- Z.pow_add_r by lia. f_equal. lia. }
    assert (Hp4 : 2 ^ (B - 24 - ez) * 2 ^ (ez - ez') = 2 ^ (B - 24 - ez')).
    { rewrite <- Z.pow_add_r by lia. f_equal. lia. }
    assert (0 < 2 ^ (es - ez)) by (apply Z.pow_pos_nonneg; lia).
    assert (0 < 2 ^ (ex - ez)) by (apply Z.pow_pos_nonneg; lia).
    assert (0 < 2 ^ (ez - ez')) by (apply Z.pow_pos_nonneg; lia).
    assert (Hsum : Z.pos (ms' + mx') < 2 ^ (B - ez) + 2 ^ (B - 24 - ez)).
    { rewrite Pos2Z.inj_add, Hvs, Hvx. nia. }
    pose proof (round_cap B false (Z.pos mz) ez' loc_Exact ltac:(lia) ltac:(lia) HB HB'
      ltac:(rewrite Hv; nia)) as Hr.
    revert Hr.
    destruct (binary_round_aux _ _ _ _ _ _) as [sr|sr| |sr mr er]; try done.
    by intros (-> & Hr).
Qed.

Lemma foldl_capped B l s :
  -126 <= B -> B <= 104 ->
  capped B s -> Forall (fun x => small (B - 24) x /\ nonneg x) l ->
  capped B (foldl F32.add s l).
Proof.
  intros HB HB'. revert s. induction l as [|x l IH]; intros s Hs Hl; [done|].
  apply Forall_cons in Hl as [[Hx Hn] Hl]. simpl. apply IH; [|done].
  by apply add_capped.
Qed.

(** *** Conversion of the number of particles *)

Lemma domain_volume :
  ((maxX - minX) * (maxY - minY) * (maxZ - minZ))%f32 = F32.of_int 24000.
Proof. by vm_compute. Qed.

(** An [int] between 1 and [INT_MAX] converts to a positive finite
    [float] below 2^32. *)
Lemma F32_of_int_finite N :
  0 < N <= INT_MAX ->
  exists p e, F32.of_int N = S754_finite false p e /\
              1 <= Z.pos (digits2_pos p) + e <= 32.
Proof.
  intros [Hpos Hmax]. destruct N as [|n|n]; try lia.
  assert (Hd : Z.pos (digits2_pos n) <= 31).
  { apply digits2_pos_le; [lia|]. unfold INT_MAX in Hmax. lia. }
  unfold F32.of_int, binary_normalize, binary_round.
  pose proof (shl_align_digits n 0 (fexp F32.prec F32.emax (Z.pos (digits2_pos n) + 0)))
    as Hal.
  destruct (shl_align n 0 _) as [mz ez]. cbn [fst snd] in Hal.
  destruct (binary_round_aux_pos F32.prec F32.emax ltac:(done) false mz ez loc_Exact)
    as (p & e & -> & Hlo & Hhi).
  { unfold emin, F32.prec, F32.emax. lia. }
  exists p, e. unfold F32.prec, F32.emax in *.
  destruct (e <=? 128 - 24) eqn:E; [split; [done|lia]|lia].
Qed.


(** ** Arrays *)

Lemma shape3_set3 nx ny nz a i j k v :
  shape3 nx ny nz a -> shape3 nx ny nz (set3 a i j k v).
Proof.
  intros [Hl Ha]. split; unfold set3.
  - by rewrite length_alter.
  - apply Forall_alter; [done|]. intros row _ [Hr Hc]. split.
    + by rewrite length_alter.
    + apply Forall_alter; [done|]. intros col _ Hk. by rewrite length_insert.
Qed.

Lemma shape3_row nx ny nz a i :
  shape3 nx ny nz a -> 0 <= i < nx ->
  length (a !!! Z.to_nat i) = Z.to_nat ny /\
  Forall (fun col : list float => length col = Z.to_nat nz) (a !!! Z.to_nat i).
Proof.
  intros [Hl Ha] Hi. rewrite Forall_lookup in Ha. eapply Ha.
  apply list_lookup_lookup_total_lt. lia.
Qed.

Lemma shape3_col nx ny nz a i j :
  shape3 nx ny nz a -> 0 <= i < nx -> 0 <= j < ny ->
  length ((a !!! Z.to_nat i) !!! Z.to_nat j) = Z.to_nat nz.
Proof.
  intros Ha Hi Hj. destruct (shape3_row _ _ _ _ i Ha Hi) as [Hr Hc].
  rewrite Forall_lookup in Hc. eapply Hc.
  apply list_lookup_lookup_total_lt. lia.
Qed.

Lemma get3_set3_eq nx ny nz a i j k v :
  shape3 nx ny nz a -> 0 <= i < nx -> 0 <= j < ny -> 0 <= k < nz ->
  get3 (set3 a i j k v) i j k = v.
Proof.
  intros Ha Hi Hj Hk. unfold get3, set3.
  pose proof (shape3_row _ _ _ _ i Ha Hi) as [Hr _].
  pose proof (shape3_col _ _ _ _ i j Ha Hi Hj) as Hc.
  destruct Ha as [Hl _].
  rewrite list_lookup_total_alter_eq by lia.
  rewrite list_lookup_total_alter_eq by lia.
  rewrite list_lookup_total_insert_eq by lia. done.
Qed.

Lemma get3_set3_ne a i j k i' j' k' v :
  0 <= i -> 0 <= j -> 0 <= k -> 0 <= i' -> 0 <= j' -> 0 <= k' ->
  (i, j, k) <> (i', j', k') ->
  get3 (set3 a i j k v) i' j' k' = get3 a i' j' k'.
Proof.
  intros Hi Hj Hk Hi' Hj' Hk' Hne. unfold get3, set3.
  rewrite list_lookup_total_alter. case_decide as E1; [|done].
  destruct E1 as [E1 _]. apply Z2Nat.inj in E1; [|done..]. subst i'.
  rewrite list_lookup_total_alter. case_decide as E2; [|done].
  destruct E2 as [E2 _]. apply Z2Nat.inj in E2; [|done..]. subst j'.
  rewrite list_lookup_total_insert_ne; [done|].
  intros E3. apply Z2Nat.inj in E3; [|done..]. congruence.
Qed.

(** ** The linear index *)

Lemma idx3_bounds nx ny nz i j k :
  0 <= i < nx -> 0 <= j < ny -> 0 <= k < nz ->
  0 <= idx3 i j k ny nz < nx * ny * nz.
Proof.
  unfold idx3. intros Hi Hj Hk.
  assert (0 <= j * nz + k < ny * nz) by nia.
  assert (0 <= i * (ny * nz)) by nia.
  assert ((i + 1) * (ny * nz) <= nx * (ny * nz)) by nia.
  nia.
Qed.

Lemma idx3_inj ny nz i j k i' j' k' :
  0 <= j < ny -> 0 <= k < nz -> 0 <= j' < ny -> 0 <= k' < nz ->
  idx3 i j k ny nz = idx3 i' j' k' ny nz -> (i, j, k) = (i', j', k').
Proof.
  unfold idx3. intros Hj Hk Hj' Hk' E.
  assert (Hr : 0 <= j * nz + k < ny * nz) by nia.
  assert (Hr' : 0 <= j' * nz + k' < ny * nz) by nia.
  assert (i = i').
  { destruct (Z.lt_trichotomy i i') as [Hlt|[->|Hlt]]; [exfalso|done|exfalso].
    - assert ((i + 1) * (ny * nz) <= i' * (ny * nz)) by nia. nia.
    - assert ((i' + 1) * (ny * nz) <= i * (ny * nz)) by nia. nia. }
  subst i'.
  assert (j = j').
  { destruct (Z.lt_trichotomy j j') as [Hlt|[->|Hlt]]; [exfalso|done|exfalso].
    - assert ((j + 1) * nz <= j' * nz) by nia. nia.
    - assert ((j' + 1) * nz <= j * nz) by nia. nia. }
  subst j'.
  assert (k = k') by lia. congruence.
Qed.

Lemma idx3_surj nx ny nz id :
  0 < ny -> 0 < nz -> 0 <= id < nx * ny * nz ->
  exists i j k, 0 <= i < nx /\ 0 <= j < ny /\ 0 <= k < nz /\ idx3 i j k ny nz = id.
Proof.
  intros Hy Hz Hid.
  assert (Hm : 0 < ny * nz) by nia.
  set (rem := id mod (ny * nz)).
  exists (id / (ny * nz)), (rem / nz), (rem mod nz).
  pose proof (Z.mod_pos_bound id (ny * nz) Hm) as Hrem. fold rem in Hrem.
  pose proof (Z.mod_pos_bound rem nz Hz) as Hk.
  pose proof (Z.div_mod id (ny * nz) ltac:(lia)) as E1. fold rem in E1.
  pose proof (Z.div_mod rem nz ltac:(lia)) as E2.
  split_and!.
  - apply Z.div_pos; lia.
  - apply Z.div_lt_upper_bound; nia.
  - apply Z.div_pos; lia.
  - apply Z.div_lt_upper_bound; nia.
  - lia.
  - lia.
  - unfold idx3. lia.
Qed.


(** ** Loops *)

Lemma foldl_bind {A B S : Type} (f : S -> B -> S) (g : A -> list B) (l : list A) (s : S) :
  foldl f s (l ≫= g) = foldl (fun s x => foldl f s (g x)) s l.
Proof.
  revert s. induction l as [|x l IH]; intros s; [done|].
  rewrite bind_cons, foldl_app. apply IH.
Qed.

Lemma foldl_ext_in {A S : Type} (f1 f2 : S -> A -> S) (l : list A) (s : S) :
  (forall x s', x ∈ l -> f1 s' x = f2 s' x) -> foldl f1 s l = foldl f2 s l.
Proof.
  revert s. induction l as [|x l IH]; intros s H; [done|]. simpl.
  rewrite H by left. apply IH. intros y s' Hy. apply H. by right.
Qed.

Lemma for3_cells {S : Type} nx ny nz (body : Z -> Z -> Z -> S -> S) (s : S) :
  for3 nx ny nz body s
  = foldl (fun s c => on_cell body c s) s (cells nx ny nz).
Proof.
  unfold for3, for_range, cells.
  rewrite foldl_bind. apply foldl_ext_in. intros i s1 _.
  rewrite foldl_bind. apply foldl_ext_in. intros j s2 _.
  rewrite foldl_bind. apply foldl_ext_in. intros k s3 _. done.
Qed.

Lemma elem_of_cells nx ny nz i j k :
  (i, j, k) ∈ cells nx ny nz <-> 0 <= i < nx /\ 0 <= j < ny /\ 0 <= k < nz.
Proof.
  unfold cells. rewrite list_elem_of_bind. split.
  - intros (i' & H & Hi). apply list_elem_of_bind in H as (j' & H & Hj).
    apply list_elem_of_bind in H as (k' & H & Hk).
    apply list_elem_of_singleton in H. simplify_eq.
    apply elem_of_seqZ in Hi, Hj, Hk. lia.
  - intros (Hi & Hj & Hk). exists i. split; [|apply elem_of_seqZ; lia].
    apply list_elem_of_bind. exists j. split; [|apply elem_of_seqZ; lia].
    apply list_elem_of_bind. exists k. split; [|apply elem_of_seqZ; lia].
    by apply list_elem_of_singleton.
Qed.

Lemma NoDup_cells nx ny nz : NoDup (cells nx ny nz).
Proof.
  unfold cells. apply NoDup_bind; [| |apply NoDup_seqZ].
  - intros i1 i2 [[i j] k] _ _ H1 H2.
    apply list_elem_of_bind in H1 as (j1 & H1 & _).
    apply list_elem_of_bind in H1 as (k1 & H1 & _).
    apply list_elem_of_bind in H2 as (j2 & H2 & _).
    apply list_elem_of_bind in H2 as (k2 & H2 & _).
    apply list_elem_of_singleton in H1, H2. congruence.
  - intros i _. apply NoDup_bind; [| |apply NoDup_seqZ].
    + intros j1 j2 [[i' j] k] _ _ H1 H2.
      apply list_elem_of_bind in H1 as (k1 & H1 & _).
      apply list_elem_of_bind in H2 as (k2 & H2 & _).
      apply list_elem_of_singleton in H1, H2. congruence.
    + intros j _. apply NoDup_bind; [| |apply NoDup_seqZ].
      * intros k1 k2 [[i' j'] k] _ _ H1 H2.
        apply list_elem_of_singleton in H1, H2. congruence.
      * intros k _. apply NoDup_singleton.
Qed.

Lemma for3_ext {S : Type} nx ny nz (b1 b2 : Z -> Z -> Z -> S -> S) (s : S) :
  (forall i j k s', 0 <= i < nx -> 0 <= j < ny -> 0 <= k < nz ->
     b1 i j k s' = b2 i j k s') ->
  for3 nx ny nz b1 s = for3 nx ny nz b2 s.
Proof.
  intros H. rewrite !for3_cells. apply foldl_ext_in.
  intros [[i j] k] s' Hc. apply elem_of_cells in Hc as (? & ? & ?). by apply H.
Qed.

(** A pass whose iterations each rewrite their own cell.  [I] relates the
    running state to the initial one (what the pass leaves frozen), [obs]
    reads a cell and [new] is the value the pass gives it. *)
Section Pass.
Context {S O C : Type}.
Variable body : C -> S -> S.
Variable I : S -> Prop.
Variable obs : C -> S -> O.
Variable new : C -> O.
Variable l : list C.
Variable s0 : S.
Hypothesis I_init : I s0.
Hypothesis step_I : forall c s, c ∈ l -> I s -> I (body c s).
Hypothesis step_own :
  forall c s, c ∈ l -> I s -> obs c s = obs c s0 -> obs c (body c s) = new c.
Hypothesis step_other :
  forall c c' s, c ∈ l -> c' ∈ l -> c <> c' -> I s -> obs c' (body c s) = obs c' s.

Lemma pass_prefix done rest :
  l = done ++ rest -> NoDup l ->
  let s := foldl (fun s c => body c s) s0 done in
  I s /\
  (forall c, c ∈ done -> obs c s = new c) /\
  (forall c, c ∈ rest -> obs c s = obs c s0).
Proof.
  revert rest. induction done as [|c done IH] using rev_ind; intros rest El Hnd.
  - simpl. split_and!; [done| |done]. intros c Hc. by apply elem_of_nil in Hc.
  - rewrite <- app_assoc in El. simpl in El.
    destruct (IH _ El Hnd) as (HI & Hdone & Hrest).
    rewrite foldl_snoc. cbv zeta.
    set (s := foldl _ s0 done) in *.
    assert (Hc : c ∈ l) by (rewrite El, elem_of_app; right; left).
    rewrite El in Hnd. apply NoDup_app in Hnd as (Hnd1 & Hnd2 & Hnd3).
    apply NoDup_cons in Hnd3 as [Hc3 Hnd3].
    split_and!.
    + by apply step_I.
    + intros c' Hc'. apply elem_of_app in Hc' as [Hc'|Hc'].
      * rewrite step_other; [by apply Hdone|done| | |done].
        -- rewrite El, elem_of_app. by left.
        -- intros ->. apply (Hnd2 c'); [done|left].
      * apply list_elem_of_singleton in Hc' as ->.
        apply step_own; [done..|]. apply Hrest. left.
    + intros c' Hc'. rewrite step_other; [apply Hrest; by right|done| | |done].
      * rewrite El, elem_of_app. right. by right.
      * intros ->. done.
Qed.

Lemma pass_spec :
  NoDup l ->
  I (foldl (fun s c => body c s) s0 l) /\
  forall c, c ∈ l -> obs c (foldl (fun s c => body c s) s0 l) = new c.
Proof.
  intros Hnd.
  destruct (pass_prefix l [] (eq_sym (app_nil_r l)) Hnd) as (HI & Hdone & _).
  done.
Qed.
End Pass.


(** ** The passes, cell by cell *)

Lemma wf_set_a s ax' ay' az' :
  wf s ->
  shape3 (Grille.nx s) (Grille.ny s) (Grille.nz s) ax' ->
  shape3 (Grille.nx s) (Grille.ny s) (Grille.nz s) ay' ->
  shape3 (Grille.nx s) (Grille.ny s) (Grille.nz s) az' ->
  wf (Grille.set_a s ax' ay' az').
Proof. intros [] ? ? ?. by constructor. Qed.

Lemma wf_set_v s vx' vy' vz' :
  wf s ->
  shape3 (Grille.nx s) (Grille.ny s) (Grille.nz s) vx' ->
  shape3 (Grille.nx s) (Grille.ny s) (Grille.nz s) vy' ->
  shape3 (Grille.nx s) (Grille.ny s) (Grille.nz s) vz' ->
  wf (Grille.set_v s vx' vy' vz').
Proof. intros [] ? ? ?. by constructor. Qed.

Lemma wf_set_div s d :
  wf s -> shape3 (Grille.nx s) (Grille.ny s) (Grille.nz s) d ->
  wf (Grille.set_div s d).
Proof. intros [] ?. by constructor. Qed.

Lemma wf_set_vertex s id v : wf s -> wf (Grille.set_vertex s id v).
Proof.
  intros []. constructor; try done. simpl. by rewrite length_insert.
Qed.

Lemma in_grid_cells s i j k :
  (i, j, k) ∈ cells (Grille.nx s) (Grille.ny s) (Grille.nz s) <-> in_grid s i j k.
Proof. apply elem_of_cells. Qed.

(** Reading a vertex after the assignment to another index. *)
Lemma vertex_set_vertex_eq s i j k v :
  wf s -> in_grid s i j k ->
  particle (Grille.set_vertex s (idx3 i j k (Grille.ny s) (Grille.nz s)) v) i j k = v.
Proof.
  intros Hwf (Hi & Hj & Hk). unfold particle, Grille.vertex, Grille.set_vertex. simpl.
  apply list_lookup_total_insert_eq. rewrite (wf_vertices _ Hwf).
  pose proof (idx3_bounds _ _ _ _ _ _ Hi Hj Hk). lia.
Qed.

Lemma vertex_set_vertex_ne s i j k i' j' k' v :
  in_grid s i j k -> in_grid s i' j' k' -> (i, j, k) <> (i', j', k') ->
  particle (Grille.set_vertex s (idx3 i j k (Grille.ny s) (Grille.nz s)) v) i' j' k'
  = particle s i' j' k'.
Proof.
  intros (Hi & Hj & Hk) (Hi' & Hj' & Hk') Hne.
  unfold particle, Grille.vertex, Grille.set_vertex. simpl.
  apply list_lookup_total_insert_ne. intros E. apply Hne.
  pose proof (idx3_bounds _ _ _ _ _ _ Hi Hj Hk).
  pose proof (idx3_bounds _ _ _ _ _ _ Hi' Hj' Hk').
  apply Z2Nat.inj in E; [|lia..].
  by apply (idx3_inj (Grille.ny s) (Grille.nz s)).
Qed.

(** *** Phase 0 *)

Lemma reset_pass_spec s0 :
  wf s0 ->
  reset_inv s0 (reset_pass s0) /\
  forall i j k, in_grid s0 i j k -> acceleration (reset_pass s0) i j k = (f0, g, f0).
Proof.
  intros Hwf. unfold reset_pass. rewrite for3_cells.
  destruct (pass_spec (on_cell reset_cell) (reset_inv s0)
              (on_cell (fun i j k s => acceleration s i j k))
              (fun _ => (f0, g, f0))
              (cells (Grille.nx s0) (Grille.ny s0) (Grille.nz s0)) s0) as [HI Hobs].
  - by constructor.
  - intros [[i j] k] s Hc [Hw Hd Hv Hvel Hdiv]. simpl.
    constructor; try done.
    apply wf_set_a; [done|apply shape3_set3; apply Hw..].
  - intros [[i j] k] s Hc [Hw (Hx & Hy & Hz) Hv Hvel Hdiv] _. simpl.
    apply in_grid_cells in Hc as (Hi & Hj & Hk).
    unfold acceleration, reset_cell. simpl. rewrite <- Hx, <- Hy, <- Hz in *.
    rewrite !(get3_set3_eq (Grille.nx s) (Grille.ny s) (Grille.nz s)); try done; apply Hw.
  - intros [[i j] k] [[i' j'] k'] s Hc Hc' Hne [Hw (Hx & Hy & Hz) Hv Hvel Hdiv]. simpl.
    apply in_grid_cells in Hc as (Hi & Hj & Hk).
    apply in_grid_cells in Hc' as (Hi' & Hj' & Hk').
    unfold acceleration, reset_cell. simpl.
    rewrite !get3_set3_ne; try done; lia.
  - apply NoDup_cells.
  - split; [done|]. intros i j k Hc. apply in_grid_cells in Hc.
    apply (Hobs _ Hc).
Qed.


(** *** Phase 1 *)

Lemma density_at_frozen s s0 i j k :
  same_dims s s0 -> Grille.vertices s = Grille.vertices s0 ->
  density_at s i j k = density_at s0 i j k.
Proof.
  intros (Hx & Hy & Hz) Hv.
  unfold density_at, density_pair, Grille.vertex. by rewrite Hx, Hy, Hz, Hv.
Qed.

Lemma density_pass_spec s0 :
  wf s0 ->
  density_inv s0 (density_pass s0) /\
  forall i j k, in_grid s0 i j k ->
    get3 (Grille.div (density_pass s0)) i j k = density_at s0 i j k.
Proof.
  intros Hwf. unfold density_pass. rewrite for3_cells.
  destruct (pass_spec (on_cell density_cell) (density_inv s0)
              (on_cell (fun i j k s => get3 (Grille.div s) i j k))
              (on_cell (density_at s0))
              (cells (Grille.nx s0) (Grille.ny s0) (Grille.nz s0)) s0) as [HI Hobs].
  - by constructor.
  - intros [[i j] k] s Hc [Hw Hd Hv Hvel Ha Hp]. simpl.
    constructor; try done.
    apply wf_set_div; [done|apply shape3_set3; apply Hw].
  - intros [[i j] k] s Hc [Hw Hd Hv Hvel Ha Hp] _. simpl.
    apply in_grid_cells in Hc as (Hi & Hj & Hk).
    unfold density_cell. simpl. rewrite (density_at_frozen s s0) by done.
    destruct Hd as (Hx & Hy & Hz). rewrite <- Hx, <- Hy, <- Hz in *.
    rewrite (get3_set3_eq (Grille.nx s) (Grille.ny s) (Grille.nz s));
      try done; apply Hw.
  - intros [[i j] k] [[i' j'] k'] s Hc Hc' Hne _. simpl.
    apply in_grid_cells in Hc as (Hi & Hj & Hk).
    apply in_grid_cells in Hc' as (Hi' & Hj' & Hk').
    unfold density_cell. simpl. rewrite get3_set3_ne; try done; lia.
  - apply NoDup_cells.
  - split; [done|]. intros i j k Hc. apply in_grid_cells in Hc.
    apply (Hobs _ Hc).
Qed.

(** *** Phase 2 *)

Lemma position_force_vertex p sp PA rest v :
  position (force_vertex p sp PA rest v) = position v.
Proof.
  unfold force_vertex. destruct p; [by destruct (pressure_color _ _) as [[? ?] ?]|].
  by destruct sp.
Qed.

Lemma list_insert_lookup_total {A : Type} `{Inhabited A} (l : list A) (i : nat) :
  <[i := l !!! i]> l = l.
Proof.
  destruct (decide (i < length l)%nat) as [Hi|Hi].
  - apply list_insert_id. by apply list_lookup_lookup_total_lt.
  - apply list_insert_ge. lia.
Qed.

Lemma force_cell_vertex rest p sp i j k s :
  force_cell rest p sp i j k s
  = let id := idx3 i j k (Grille.ny s) (Grille.nz s) in
    let '(a1, a2, a3) := force_at s rest i j k in
    Grille.set_vertex
      (Grille.set_a s (set3 (Grille.ax s) i j k a1) (set3 (Grille.ay s) i j k a2)
         (set3 (Grille.az s) i j k a3))
      id (force_vertex p sp (pressure_of (get3 (Grille.div s) i j k) rest) rest
            (Grille.vertex s id)).
Proof.
  unfold force_cell, force_vertex, pressure_of. cbv zeta.
  destruct (force_at s rest i j k) as [[a1 a2] a3].
  destruct p; [by destruct (pressure_color _ _) as [[? ?] ?]|].
  destruct sp; simpl; [|reflexivity].
  unfold Grille.set_vertex, Grille.set_vertices, Grille.set_a, Grille.vertex. simpl.
  by rewrite list_insert_lookup_total.
Qed.

Lemma force_at_frozen s s0 rest i j k :
  same_dims s s0 -> Grille.div s = Grille.div s0 ->
  (Grille.vx s, Grille.vy s, Grille.vz s)
  = (Grille.vx s0, Grille.vy s0, Grille.vz s0) ->
  (forall id, position (Grille.vertex s id) = position (Grille.vertex s0 id)) ->
  acceleration s i j k = acceleration s0 i j k ->
  force_at s rest i j k = force_at s0 rest i j k.
Proof.
  intros (Hx & Hy & Hz) Hdiv Hv Hpos Ha.
  injection Hv as Hvx Hvy Hvz. injection Ha as Hax Hay Haz.
  unfold force_at. cbv zeta. rewrite Hx, Hy, Hz, Hdiv, Hax, Hay, Haz.
  pose proof (Hpos (idx3 i j k (Grille.ny s0) (Grille.nz s0))) as HA.
  injection HA as HAx HAy HAz. rewrite HAx, HAy, HAz.
  rewrite (for3_ext _ _ _ _
    (force_pair s0 rest i j k
       (Grille.vertex s0 (idx3 i j k (Grille.ny s0) (Grille.nz s0)))
       (stiffness * (get3 (Grille.div s0) i j k - rest))%f32)); [done|].
  intros ii jj kk acc _ _ _. unfold force_pair. cbv zeta.
  rewrite Hy, Hz, Hdiv, Hvx, Hvy, Hvz, HAx, HAy, HAz.
  pose proof (Hpos (idx3 ii jj kk (Grille.ny s0) (Grille.nz s0))) as HB.
  injection HB as HBx HBy HBz. by rewrite HBx, HBy, HBz.
Qed.

Lemma force_pass_spec rest p sp s0 :
  wf s0 ->
  force_inv s0 (force_pass rest p sp s0) /\
  forall i j k, in_grid s0 i j k ->
    acceleration (force_pass rest p sp s0) i j k = force_at s0 rest i j k /\
    particle (force_pass rest p sp s0) i j k
    = force_vertex p sp (pressure_of (get3 (Grille.div s0) i j k) rest) rest
        (particle s0 i j k).
Proof.
  intros Hwf. unfold force_pass. rewrite for3_cells.
  destruct (pass_spec (on_cell (force_cell rest p sp)) (force_inv s0)
              (on_cell (fun i j k s => (acceleration s i j k, particle s i j k)))
              (on_cell (fun i j k =>
                 (force_at s0 rest i j k,
                  force_vertex p sp (pressure_of (get3 (Grille.div s0) i j k) rest)
                    rest (particle s0 i j k))))
              (cells (Grille.nx s0) (Grille.ny s0) (Grille.nz s0)) s0) as [HI Hobs].
  - by constructor.
  - intros [[i j] k] s Hc [Hw Hd Hdiv Hvel Hpos]. simpl.
    rewrite force_cell_vertex. cbv zeta.
    destruct (force_at s rest i j k) as [[a1 a2] a3].
    constructor; try done.
    + apply wf_set_vertex, wf_set_a; [done|apply shape3_set3; apply Hw..].
    + intros id. rewrite <- Hpos.
      unfold Grille.vertex, Grille.set_vertex. simpl.
      rewrite list_lookup_total_insert. case_decide as E; [|done].
      destruct E as [-> _]. apply position_force_vertex.
  - intros [[i j] k] s Hc [Hw Hd Hdiv Hvel Hpos] Hown. cbn [on_cell] in *.
    apply pair_equal_spec in Hown as [Hacc Hpart].
    apply in_grid_cells in Hc as Hg.
    rewrite force_cell_vertex. cbv zeta.
    rewrite (force_at_frozen s s0 rest i j k Hd Hdiv Hvel Hpos Hacc).
    destruct (force_at s0 rest i j k) as [[a1 a2] a3].
    assert (Hg' : in_grid s i j k).
    { destruct Hd as (Hx & Hy & Hz). unfold in_grid. by rewrite Hx, Hy, Hz. }
    f_equal.
    + destruct Hg' as (Hi & Hj & Hk). unfold acceleration. simpl.
      rewrite !(get3_set3_eq (Grille.nx s) (Grille.ny s) (Grille.nz s));
        try done; apply Hw.
    + pose proof (vertex_set_vertex_eq
        (Grille.set_a s (set3 (Grille.ax s) i j k a1) (set3 (Grille.ay s) i j k a2)
           (set3 (Grille.az s) i j k a3)) i j k) as E.
      simpl in E. rewrite E; [|apply wf_set_a; [done|apply shape3_set3; apply Hw..]|done].
      fold (particle s i j k). by rewrite Hpart, Hdiv.
  - intros [[i j] k] [[i' j'] k'] s Hc Hc' Hne [Hw Hd Hdiv Hvel Hpos]. simpl.
    rewrite force_cell_vertex. cbv zeta.
    destruct (force_at s rest i j k) as [[a1 a2] a3].
    assert (Hg : in_grid s i j k /\ in_grid s i' j' k').
    { apply in_grid_cells in Hc, Hc'. destruct Hd as (Hx & Hy & Hz).
      unfold in_grid. by rewrite Hx, Hy, Hz. }
    destruct Hg as [Hg Hg']. f_equal.
    + destruct Hg as (Hi & Hj & Hk), Hg' as (Hi' & Hj' & Hk').
      unfold acceleration. simpl. rewrite !get3_set3_ne; try done; lia.
    + pose proof (vertex_set_vertex_ne
        (Grille.set_a s (set3 (Grille.ax s) i j k a1) (set3 (Grille.ay s) i j k a2)
           (set3 (Grille.az s) i j k a3)) i j k i' j' k') as E.
      simpl in E. by rewrite E.
  - apply NoDup_cells.
  - split; [done|]. intros i j k Hc. apply in_grid_cells in Hc.
    specialize (Hobs _ Hc). cbn [on_cell] in Hobs.
    by apply pair_equal_spec in Hobs.
Qed.


(** *** Phase 3 *)

Lemma integrate_pass_spec dt sp s0 :
  wf s0 ->
  integrate_inv s0 (integrate_pass dt sp s0) /\
  forall i j k, in_grid s0 i j k ->
    (particle (integrate_pass dt sp s0) i j k,
     velocity (integrate_pass dt sp s0) i j k)
    = integrate_grid dt sp s0 i j k.
Proof.
  intros Hwf. unfold integrate_pass. rewrite for3_cells.
  destruct (pass_spec (on_cell (integrate_cell dt sp)) (integrate_inv s0)
              (on_cell (fun i j k s => (particle s i j k, velocity s i j k)))
              (on_cell (integrate_grid dt sp s0))
              (cells (Grille.nx s0) (Grille.ny s0) (Grille.nz s0)) s0) as [HI Hobs].
  - by constructor.
  - intros [[i j] k] s Hc [Hw Hd Ha Hdiv]. cbn [on_cell].
    unfold integrate_cell. cbv zeta.
    destruct (integrate_at _ _ _ _ _ _ _ _ _) as [v [[v1 v2] v3]].
    constructor; try done.
    apply wf_set_vertex, wf_set_v; [done|apply shape3_set3; apply Hw..].
  - intros [[i j] k] s Hc [Hw Hd Ha Hdiv] Hown. cbn [on_cell] in *.
    apply pair_equal_spec in Hown as [Hpart Hvel].
    injection Hvel as Hvx Hvy Hvz. injection Ha as Hax Hay Haz.
    assert (Hg : in_grid s i j k).
    { apply in_grid_cells in Hc. destruct Hd as (Hx & Hy & Hz).
      unfold in_grid. by rewrite Hx, Hy, Hz. }
    unfold integrate_cell, integrate_grid. cbv zeta.
    fold (particle s i j k). rewrite Hpart, Hvx, Hvy, Hvz, Hax, Hay, Haz.
    destruct (integrate_at _ _ _ _ _ _ _ _ _) as [v [[v1 v2] v3]].
    f_equal.
    + pose proof (vertex_set_vertex_eq
        (Grille.set_v s (set3 (Grille.vx s) i j k v1) (set3 (Grille.vy s) i j k v2)
           (set3 (Grille.vz s) i j k v3)) i j k) as E.
      simpl in E. rewrite E; [done| |done].
      apply wf_set_v; [done|apply shape3_set3; apply Hw..].
    + destruct Hg as (Hi & Hj & Hk). unfold velocity. simpl.
      rewrite !(get3_set3_eq (Grille.nx s) (Grille.ny s) (Grille.nz s));
        try done; apply Hw.
  - intros [[i j] k] [[i' j'] k'] s Hc Hc' Hne [Hw Hd Ha Hdiv]. cbn [on_cell].
    unfold integrate_cell. cbv zeta.
    destruct (integrate_at _ _ _ _ _ _ _ _ _) as [v [[v1 v2] v3]].
    assert (Hg : in_grid s i j k /\ in_grid s i' j' k').
    { apply in_grid_cells in Hc, Hc'. destruct Hd as (Hx & Hy & Hz).
      unfold in_grid. by rewrite Hx, Hy, Hz. }
    destruct Hg as [Hg Hg']. f_equal.
    + pose proof (vertex_set_vertex_ne
        (Grille.set_v s (set3 (Grille.vx s) i j k v1) (set3 (Grille.vy s) i j k v2)
           (set3 (Grille.vz s) i j k v3)) i j k i' j' k') as E.
      simpl in E. by rewrite E.
    + destruct Hg as (Hi & Hj & Hk), Hg' as (Hi' & Hj' & Hk').
      unfold velocity. simpl. rewrite !get3_set3_ne; try done; lia.
  - apply NoDup_cells.
  - split; [done|]. intros i j k Hc. apply in_grid_cells in Hc.
    apply (Hobs _ Hc).
Qed.

(** *** [CreateGrid] *)

Lemma shape3_zero_field nx ny nz : shape3 nx ny nz (zero_field nx ny nz).
Proof.
  unfold shape3, zero_field. split; [by rewrite length_replicate|].
  apply Forall_replicate. split; [by rewrite length_replicate|].
  apply Forall_replicate. by rewrite length_replicate.
Qed.

Lemma CreateGrid_spec nx ny nz scale :
  0 < nx -> 0 < ny -> 0 < nz -> nx * ny * nz <= INT_MAX ->
  create_inv nx ny nz (CreateGrid nx ny nz scale) /\
  forall i j k, 0 <= i < nx -> 0 <= j < ny -> 0 <= k < nz ->
    particle (CreateGrid nx ny nz scale) i j k = lattice_vertex scale i j k.
Proof.
  intros Hx Hy Hz Hint. unfold CreateGrid. cbv zeta. rewrite for3_cells.
  set (s0 := Grille.set_vertices _ _).
  assert (Hwf0 : wf s0).
  { constructor; simpl; try done; try apply shape3_zero_field.
    by rewrite length_replicate. }
  destruct (pass_spec
              (on_cell (fun i j k grid =>
                 Grille.set_vertex grid (idx3 i j k ny nz)
                   (Vertex.mk (F32.of_int i * scale)%f32
                      (F32.of_int j * scale + F32.of_int 5)%f32
                      (F32.of_int k * scale)%f32 f0 f0 f0)))
              (create_inv nx ny nz)
              (on_cell (fun i j k s => particle s i j k))
              (on_cell (lattice_vertex scale))
              (cells nx ny nz) s0) as [HI Hobs].
  - by constructor.
  - intros [[i j] k] s Hc [Hw Hd Hv Ha Hdiv]. cbn [on_cell].
    constructor; try done. by apply wf_set_vertex.
  - intros [[i j] k] s Hc [Hw Hd Hv Ha Hdiv] _. cbn [on_cell].
    injection Hd as Hdx Hdy Hdz. apply elem_of_cells in Hc.
    rewrite <- Hdy, <- Hdz. apply vertex_set_vertex_eq; [done|].
    unfold in_grid. by rewrite Hdx, Hdy, Hdz.
  - intros [[i j] k] [[i' j'] k'] s Hc Hc' Hne [Hw Hd Hv Ha Hdiv]. cbn [on_cell].
    injection Hd as Hdx Hdy Hdz. apply elem_of_cells in Hc, Hc'.
    rewrite <- Hdy, <- Hdz. apply vertex_set_vertex_ne; [..|done];
      unfold in_grid; by rewrite Hdx, Hdy, Hdz.
  - apply NoDup_cells.
  - split; [done|]. intros i j k Hi Hj Hk.
    apply (Hobs (i, j, k)). by apply elem_of_cells.
Qed.


(** *** One step *)

Lemma in_grid_dims s s0 i j k : same_dims s s0 -> in_grid s0 i j k -> in_grid s i j k.
Proof. intros (Hx & Hy & Hz). unfold in_grid. by rewrite Hx, Hy, Hz. Qed.

Lemma same_dims_trans a b c : same_dims a b -> same_dims b c -> same_dims a c.
Proof. intros (? & ? & ?) (? & ? & ?). unfold same_dims. split_and!; congruence. Qed.

Lemma particle_frozen s s0 i j k :
  same_dims s s0 -> Grille.vertices s = Grille.vertices s0 ->
  particle s i j k = particle s0 i j k.
Proof.
  intros (Hx & Hy & Hz) Hv. unfold particle, Grille.vertex. by rewrite Hy, Hz, Hv.
Qed.

Lemma before_force_spec s0 :
  wf s0 ->
  wf (before_force s0) /\ same_dims (before_force s0) s0 /\
  Grille.vertices (before_force s0) = Grille.vertices s0 /\
  (Grille.vx (before_force s0), Grille.vy (before_force s0), Grille.vz (before_force s0))
  = (Grille.vx s0, Grille.vy s0, Grille.vz s0) /\
  forall i j k, in_grid s0 i j k ->
    get3 (Grille.div (before_force s0)) i j k = density_at s0 i j k /\
    acceleration (before_force s0) i j k = (f0, g, f0).
Proof.
  intros Hwf. unfold before_force.
  destruct (reset_pass_spec s0 Hwf) as [[Hw1 Hd1 Hv1 Hvel1 Hdiv1] Hacc1].
  destruct (density_pass_spec _ Hw1) as [[Hw2 Hd2 Hv2 Hvel2 Ha2 _] Hdiv2].
  split_and!; try done.
  - by apply (same_dims_trans _ (reset_pass s0)).
  - congruence.
  - congruence.
  - intros i j k Hg. pose proof (in_grid_dims _ _ _ _ _ Hd1 Hg) as Hg1. split.
    + rewrite Hdiv2 by done. by apply density_at_frozen.
    + rewrite <- (Hacc1 i j k Hg). unfold acceleration.
      injection Ha2 as -> -> ->. done.
Qed.

Lemma UpdateGrid_spec dt p sp s0 :
  wf s0 ->
  wf (UpdateGrid dt s0 p sp) /\ same_dims (UpdateGrid dt s0 p sp) s0 /\
  forall i j k, in_grid s0 i j k ->
    get3 (Grille.div (UpdateGrid dt s0 p sp)) i j k = density_at s0 i j k /\
    acceleration (UpdateGrid dt s0 p sp) i j k = forces s0 i j k /\
    (particle (UpdateGrid dt s0 p sp) i j k, velocity (UpdateGrid dt s0 p sp) i j k)
    = step_cell dt p sp s0 i j k.
Proof.
  intros Hwf.
  destruct (before_force_spec s0 Hwf) as (Hw2 & Hd2 & Hv2 & Hvel2 & Hc2).
  change (UpdateGrid dt s0 p sp)
    with (integrate_pass dt sp (force_pass (rest_of s0) p sp (before_force s0))).
  destruct (force_pass_spec (rest_of s0) p sp _ Hw2)
    as [[Hw3 Hd3 Hdiv3 Hvel3 Hpos3] Hc3].
  destruct (integrate_pass_spec dt sp _ Hw3) as [[Hw4 Hd4 Ha4 Hdiv4] Hc4].
  set (s2 := before_force s0) in *.
  set (s3 := force_pass (rest_of s0) p sp s2) in *.
  set (s4 := integrate_pass dt sp s3) in *.
  split_and!; [done|by repeat (eapply same_dims_trans; [eassumption|])|].
  intros i j k Hg.
  pose proof (in_grid_dims _ _ _ _ _ Hd2 Hg) as Hg2.
  pose proof (in_grid_dims _ _ _ _ _ Hd3 Hg2) as Hg3.
  destruct (Hc2 i j k Hg) as [Hdiv2 Hacc2].
  destruct (Hc3 i j k Hg2) as [Hacc3 Hpart3].
  split_and!.
  - rewrite Hdiv4, Hdiv3. done.
  - unfold acceleration in *. injection Ha4 as -> -> ->. done.
  - rewrite (Hc4 i j k Hg3). unfold integrate_grid, step_cell, forces.
    fold s2. rewrite Hpart3, Hdiv2.
    rewrite (particle_frozen s2 s0) by done.
    unfold acceleration in Hacc3.
    destruct (force_at s2 (rest_of s0) i j k) as [[a1 a2] a3].
    injection Hacc3 as -> -> ->.
    injection Hvel3 as Hx3 Hy3 Hz3. injection Hvel2 as Hx2 Hy2 Hz2.
    by rewrite Hx3, Hy3, Hz3, Hx2, Hy2, Hz2.
Qed.

Lemma step_cell_particle dt p sp grid i j k :
  wf grid -> in_grid grid i j k ->
  particle (UpdateGrid dt grid p sp) i j k = (step_cell dt p sp grid i j k).1 /\
  velocity (UpdateGrid dt grid p sp) i j k = (step_cell dt p sp grid i j k).2.
Proof.
  intros Hwf Hg.
  destruct (UpdateGrid_spec dt p sp grid Hwf) as (_ & _ & Hcell).
  destruct (Hcell i j k Hg) as (_ & _ & <-). done.
Qed.

Lemma color_integrate_plain dt v vx vy vz ax_ ay_ az_ :
  color (integrate_at dt false v vx vy vz ax_ ay_ az_).1 = color v.
Proof.
  unfold integrate_at. cbv zeta.
  destruct (wall_clamp minX maxX _ _) as [x1 v1].
  destruct (wall_clamp minY maxY _ _) as [y1 v2].
  destruct (wall_clamp minZ maxZ _ _) as [z1 v3].
  done.
Qed.

Lemma color_force_pressure sp PA rest v :
  color (force_vertex true sp PA rest v) = pressure_color PA rest.
Proof.
  unfold force_vertex. by destruct (pressure_color PA rest) as [[? ?] ?].
Qed.

(** The force pass of a step, seen from one particle: the acceleration it
    stores is what the loop over the pairs, started from the gravity that
    phase 0 stored and run with the particle's own pressure, gives, after
    the walls. *)
Lemma force_pass_pairs grid pressure speed i j k :
  wf grid -> in_grid grid i j k ->
  let s := before_force grid in
  let A := particle s i j k in
  let PA := pressure_of (get3 (Grille.div s) i j k) (rest_of grid) in
  acceleration (force_pass (rest_of grid) pressure speed s) i j k
  = let '(ax_local, ay_local, az_local) :=
      for3 (Grille.nx s) (Grille.ny s) (Grille.nz s)
        (force_pair s (rest_of grid) i j k A PA) (f0, g, f0) in
    (wall_force minX maxX (Vertex.x A) ax_local,
     wall_force minY maxY (Vertex.y A) ay_local,
     wall_force minZ maxZ (Vertex.z A) az_local).
Proof.
  intros Hwf Hg s A PA.
  destruct (before_force_spec grid Hwf) as (Hw & Hd & _ & _ & Hbf).
  destruct (Hbf i j k Hg) as [_ Hacc]. injection Hacc as Hax Hay Haz.
  destruct (force_pass_spec (rest_of grid) pressure speed _ Hw) as [_ Hc].
  destruct (Hc i j k (in_grid_dims _ _ _ _ _ Hd Hg)) as [Ha _].
  fold s in Ha, Hax, Hay, Haz. rewrite Ha.
  unfold force_at. cbv zeta. by rewrite Hax, Hay, Haz.
Qed.

Lemma run_wf calls s0 : wf s0 -> wf (run calls s0) /\ same_dims (run calls s0) s0.
Proof.
  unfold run. revert s0. induction calls as [|[[dt p] sp] calls IH]; intros s0 Hwf.
  - by split.
  - simpl. destruct (UpdateGrid_spec dt p sp s0 Hwf) as (Hw & Hd & _).
    destruct (IH _ Hw) as [Hw' Hd']. split; [done|].
    by apply (same_dims_trans _ (UpdateGrid dt s0 p sp)).
Qed.


(** ** Containment *)

Lemma position_integrate_at dt sp v vx vy vz ax_ ay_ az_ :
  position (integrate_at dt sp v vx vy vz ax_ ay_ az_).1
  = ((wall_clamp minX maxX (Vertex.x v + (vx + ax_ * dt) * dt) (vx + ax_ * dt)).1,
     (wall_clamp minY maxY (Vertex.y v + (vy + ay_ * dt) * dt) (vy + ay_ * dt)).1,
     (wall_clamp minZ maxZ (Vertex.z v + (vz + az_ * dt) * dt) (vz + az_ * dt)).1)%f32.
Proof.
  unfold integrate_at.
  destruct (wall_clamp minX maxX _ _) as [x1 v1].
  destruct (wall_clamp minY maxY _ _) as [y1 v2].
  destruct (wall_clamp minZ maxZ _ _) as [z1 v3].
  destruct sp; [|done]. by destruct (speed_color _ _ _) as [[? ?] ?].
Qed.

Lemma integrate_at_contained dt sp v vx vy vz ax_ ay_ az_ :
  contained_or_nan (integrate_at dt sp v vx vy vz ax_ ay_ az_).1.
Proof.
  pose proof (position_integrate_at dt sp v vx vy vz ax_ ay_ az_) as E.
  unfold position in E. injection E as Ex Ey Ez.
  unfold contained_or_nan. rewrite Ex, Ey, Ez.
  split_and!; by apply wall_clamp_within.
Qed.

Lemma step_cell_contained dt p sp s i j k :
  contained_or_nan (step_cell dt p sp s i j k).1.
Proof.
  unfold step_cell. destruct (forces s i j k) as [[a1 a2] a3].
  apply integrate_at_contained.
Qed.

Lemma UpdateGrid_contained dt p sp s0 :
  wf s0 -> Forall contained_or_nan (Grille.vertices (UpdateGrid dt s0 p sp)).
Proof.
  intros Hwf. destruct (UpdateGrid_spec dt p sp s0 Hwf) as (Hw & Hd & Hc).
  apply Forall_lookup. intros n v Hn.
  pose proof (lookup_lt_Some _ _ _ Hn) as Hlt.
  rewrite (wf_vertices _ Hw) in Hlt.
  destruct Hd as (Hx & Hy & Hz). rewrite Hx, Hy, Hz in Hlt.
  destruct (idx3_surj (Grille.nx s0) (Grille.ny s0) (Grille.nz s0) (Z.of_nat n))
    as (i & j & k & Hi & Hj & Hk & E); [apply Hwf..|lia|].
  destruct (Hc i j k) as (_ & _ & Hcell); [done|].
  apply (f_equal fst) in Hcell as Hpart. cbn [fst] in Hpart.
  unfold particle, Grille.vertex in Hpart. rewrite Hy, Hz, E, Nat2Z.id in Hpart.
  rewrite (list_lookup_total_correct _ _ _ Hn) in Hpart. rewrite Hpart.
  apply step_cell_contained.
Qed.

(** C1, as the code has it.  After any non-empty run of [UpdateGrid] calls
    on a well-formed grid, whatever the time steps and the modes, every
    coordinate of every particle is either NaN or lies in
    [[min + epsilon, max - epsilon]], for the domain [(0,0,0)]-[(20,60,20)]
    and [epsilon = 1e-4f].  The two comparisons of the clamp are both false
    on a NaN, which is then stored as it is. *)
Theorem containment_up_to_nan calls dt p sp grid :
  wf grid ->
  Forall contained_or_nan (Grille.vertices (run (calls ++ [(dt, p, sp)]) grid)).
Proof.
  intros Hwf. unfold run. rewrite foldl_snoc.
  apply UpdateGrid_contained. by apply run_wf.
Qed.

Lemma containment_up_to_nan_witness :
  wf one_particle /\
  Forall contained_or_nan
    (Grille.vertices (run ([] ++ [(F32.lit 1 100, false, false)]) one_particle)).
Proof.
  assert (Hwf : wf one_particle) by wf_by_computation.
  split; [exact Hwf | apply containment_up_to_nan; exact Hwf].
Defined.

(** C1 as stated fails.  [CreateGrid(1, 1, 1, 1.0f)] followed by a step of
    [dt = FLT_MAX] and a step of [dt = 0]: the first step makes the three
    velocities infinite, the second multiplies them by zero, and the
    position is NaN on the three axes. *)
Lemma containment_fails :
  let grid := run [(FLT_MAX, false, false); (f0, false, false)] (CreateGrid 1 1 1 f1) in
  position (particle grid 0 0 0) = (S754_nan, S754_nan, S754_nan) /\
  ~ Forall contained (Grille.vertices grid).
Proof.
  split; [vm_compute; reflexivity|].
  intros H.
  apply Forall_lookup_1
    with (i := 0%nat) (x := Vertex.mk S754_nan S754_nan S754_nan f0 f0 f1) in H.
  - destruct H as [[H _] _]. vm_compute in H. discriminate.
  - vm_compute. reflexivity.
Qed.

(** ** Density *)

Lemma foldl_filter_add {C : Type} (P : C -> bool) (f : C -> float) (l : list C) (d : float) :
  foldl (fun d c => if P c then (d + f c)%f32 else d) d l
  = foldl F32.add d (f <$> List.filter P l).
Proof.
  revert d. induction l as [|c l IH]; intros d; [done|]. simpl.
  destruct (P c); simpl; apply IH.
Qed.

Lemma filter_filter_andb {C : Type} (P Q : C -> bool) (l : list C) :
  List.filter Q (List.filter P l) = List.filter (fun c => P c && Q c) l.
Proof.
  induction l as [|c l IH]; [done|]. simpl.
  destruct (P c); simpl; [destruct (Q c)|]; by rewrite IH.
Qed.

Lemma position_lookup s i j k :
  wf s -> in_grid s i j k ->
  (position <$> Grille.vertices s) !!! Z.to_nat (idx3 i j k (Grille.ny s) (Grille.nz s))
  = position (particle s i j k).
Proof.
  intros Hwf (Hi & Hj & Hk). unfold particle, Grille.vertex.
  apply list_lookup_total_fmap. rewrite (wf_vertices _ Hwf).
  pose proof (idx3_bounds _ _ _ _ _ _ Hi Hj Hk). lia.
Qed.

Lemma density_at_spec s i j k :
  wf s -> in_grid s i j k ->
  density_at s i j k
  = density_spec (Grille.nx s) (Grille.ny s) (Grille.nz s)
      (position <$> Grille.vertices s) i j k.
Proof.
  intros Hwf Hg. unfold density_at, density_spec. cbv zeta.
  rewrite filter_filter_andb, <- foldl_filter_add, for3_cells.
  apply foldl_ext_in. intros [[ii jj] kk] d Hc. apply in_grid_cells in Hc.
  rewrite !position_lookup by done. cbn [on_cell].
  unfold density_pair, other, near, dist2, kernel, position, particle. cbv zeta.
  destruct ((ii =? i) && (jj =? j) && (kk =? k)); [done|]. cbn [negb andb].
  done.
Qed.

Lemma density_cell_own_slot i j k s :
  Grille.set_div (density_cell i j k s) (Grille.div s) = s /\
  forall i' j' k', 0 <= i -> 0 <= j -> 0 <= k -> 0 <= i' -> 0 <= j' -> 0 <= k' ->
    (i, j, k) <> (i', j', k') ->
    get3 (Grille.div (density_cell i j k s)) i' j' k' = get3 (Grille.div s) i' j' k'.
Proof.
  split; [by destruct s|]. intros. unfold density_cell. simpl.
  by apply get3_set3_ne.
Qed.

(** C2.  On a well-formed grid the density pass stores, for every particle
    [A], the sum (in index order, from [0.0f]) of [(1 - r/h)^2] over the
    other particles whose squared distance to [A] satisfies
    [0 < r2 < h*h]; [density_spec] is computed from the positions alone.
    The pass changes no field but [div], each iteration changes no field
    but [div] either, and the value is still there at the end of the step
    ([UpdateGrid] reads the positions it started with). *)
Theorem density_pass_sum grid :
  wf grid ->
  (forall i j k, in_grid grid i j k ->
     get3 (Grille.div (density_pass grid)) i j k
     = density_spec (Grille.nx grid) (Grille.ny grid) (Grille.nz grid)
         (position <$> Grille.vertices grid) i j k) /\
  Grille.set_div (density_pass grid) (Grille.div grid) = grid /\
  (forall i j k s,
     Grille.set_div (density_cell i j k s) (Grille.div s) = s /\
     forall i' j' k',
       0 <= i -> 0 <= j -> 0 <= k -> 0 <= i' -> 0 <= j' -> 0 <= k' ->
       (i, j, k) <> (i', j', k') ->
       get3 (Grille.div (density_cell i j k s)) i' j' k'
       = get3 (Grille.div s) i' j' k') /\
  (forall dt pressure speed i j k, in_grid grid i j k ->
     get3 (Grille.div (UpdateGrid dt grid pressure speed)) i j k
     = density_spec (Grille.nx grid) (Grille.ny grid) (Grille.nz grid)
         (position <$> Grille.vertices grid) i j k).
Proof.
  intros Hwf.
  destruct (density_pass_spec grid Hwf) as [[Hw (Hx & Hy & Hz) Hv Hvel Ha Hp] Hdiv].
  split_and!.
  - intros i j k Hg. rewrite Hdiv by done. by apply density_at_spec.
  - injection Hvel as Hvx Hvy Hvz. injection Ha as Hax Hay Haz.
    destruct (density_pass grid), grid. simpl in *. by subst.
  - intros i j k s. apply density_cell_own_slot.
  - intros dt p sp i j k Hg.
    destruct (UpdateGrid_spec dt p sp grid Hwf) as (_ & _ & Hc).
    destruct (Hc i j k Hg) as (-> & _). by apply density_at_spec.
Qed.

Lemma density_pass_sum_witness :
  wf two_particles /\
  get3 (Grille.div (density_pass two_particles)) 0 0 0
  = density_spec 2 1 1 (position <$> Grille.vertices two_particles) 0 0 0.
Proof.
  assert (Hwf : wf two_particles) by wf_by_computation.
  split; [exact Hwf|].
  destruct (density_pass_sum two_particles Hwf) as (H & _).
  apply (H 0 0 0). unfold in_grid. simpl. lia.
Defined.

(** ** Pressure between two particles *)

(** [force_pair] adds the terms of [pressure_pair], then the viscosity. *)
Lemma force_pair_pressure s rest i j k A PA ii jj kk acc :
  (ii =? i) && (jj =? j) && (kk =? k) = false ->
  let B := particle s ii jj kk in
  let PB := pressure_of (get3 (Grille.div s) ii jj kk) rest in
  let q := (f1 - distance A B / h)%f32 in
  force_pair s rest i j k A PA ii jj kk acc
  = match pressure_pair A B PA PB with
    | None => acc
    | Some (px, py, pz) =>
        let '(ax_local, ay_local, az_local) := acc in
        ((ax_local + px
          + nu * (get3 (Grille.vx s) ii jj kk - get3 (Grille.vx s) i j k) * q)%f32,
         (ay_local + py
          + nu * (get3 (Grille.vy s) ii jj kk - get3 (Grille.vy s) i j k) * q)%f32,
         (az_local + pz
          + nu * (get3 (Grille.vz s) ii jj kk - get3 (Grille.vz s) i j k) * q)%f32)
    end.
Proof.
  intros Hne. unfold force_pair, pressure_pair, distance, particle, pressure_of.
  cbv zeta. rewrite Hne.
  destruct (_ || _); [done|]. by destruct acc as [[a1 a2] a3].
Qed.

Lemma same_cell_sym i j k ii jj kk :
  (ii =? i) && (jj =? j) && (kk =? k) = (i =? ii) && (j =? jj) && (k =? kk).
Proof. by rewrite (Z.eqb_sym ii), (Z.eqb_sym jj), (Z.eqb_sym kk). Qed.

(** [force_pair] in terms of the pressure and viscosity terms. *)
Lemma force_pair_terms s rest i j k A PA ii jj kk acc :
  (ii =? i) && (jj =? j) && (kk =? k) = false ->
  let B := particle s ii jj kk in
  let PB := pressure_of (get3 (Grille.div s) ii jj kk) rest in
  let q := (f1 - distance A B / h)%f32 in
  let visc := viscosity_pair (velocity s i j k) (velocity s ii jj kk) q in
  force_pair s rest i j k A PA ii jj kk acc
  = match pressure_pair A B PA PB with
    | None => acc
    | Some p =>
        ((acc.1.1 + p.1.1 + visc.1.1)%f32, (acc.1.2 + p.1.2 + visc.1.2)%f32,
         (acc.2 + p.2 + visc.2)%f32)
    end.
Proof.
  intros Hne. cbv zeta. rewrite force_pair_pressure by done. cbv zeta.
  destruct (pressure_pair _ _ _ _) as [[[px py] pz]|]; [|done].
  by destruct acc as [[a1 a2] a3].
Qed.

Lemma distance_sym A B : distance B A = distance A B.
Proof.
  unfold distance. cbv zeta.
  by rewrite (negation_mul_self _ _ (sub_negation (Vertex.x B) (Vertex.x A))),
    (negation_mul_self _ _ (sub_negation (Vertex.y B) (Vertex.y A))),
    (negation_mul_self _ _ (sub_negation (Vertex.z B) (Vertex.z A))).
Qed.

Lemma sub_self x : (x - x)%f32 = S754_zero false \/ (x - x)%f32 = S754_nan.
Proof.
  destruct x as [[]|[]| |s m e]; try (by left); try (by right).
  left. unfold F32.sub. cbn [SFsub]. by rewrite Z.sub_diag.
Qed.

(** A particle is at no positive distance from itself. *)
Lemma distance_self A : (f0 <? distance A A)%f32 = false.
Proof.
  unfold distance. cbv zeta.
  destruct (sub_self (Vertex.x A)) as [-> | ->],
    (sub_self (Vertex.y A)) as [-> | ->],
    (sub_self (Vertex.z A)) as [-> | ->]; vm_compute; reflexivity.
Qed.

Lemma fPress_sym PA PB q : fPress PB PA q = fPress PA PB q.
Proof. unfold fPress, F32.add. by rewrite SFadd_comm. Qed.

Lemma pressure_pair_unfold A B PA PB :
  pressure_pair A B PA PB
  = let r := distance A B in
    if (r <=? f0)%f32 || (r >? h)%f32 then None
    else
      let fP := fPress PA PB (f1 - r / h)%f32 in
      Some ((fP * ((Vertex.x B - Vertex.x A) / r))%f32,
            (fP * ((Vertex.y B - Vertex.y A) / r))%f32,
            (fP * ((Vertex.z B - Vertex.z A) / r))%f32).
Proof. reflexivity. Qed.

(** Two particles [A] and [B] at a distance [0 < r <= h], and any
    densities [rhoA], [rhoB] and rest density: neither ordered pair is
    skipped, and the pressure term computed with [B] as the subject is,
    component by component, the negation of the one computed with [A] as
    the subject. *)
Lemma pressure_pair_negation A B rhoA rhoB rest :
  (f0 <? distance A B)%f32 = true ->
  (distance A B <=? h)%f32 = true ->
  exists a b,
    pressure_pair A B (pressure_of rhoA rest) (pressure_of rhoB rest) = Some a /\
    pressure_pair B A (pressure_of rhoB rest) (pressure_of rhoA rest) = Some b /\
    opposite a b /\
    cancel a.1.1 b.1.1 /\ cancel a.1.2 b.1.2 /\ cancel a.2 b.2.
Proof.
  intros H0 Hh. rewrite !pressure_pair_unfold. cbv zeta.
  rewrite (distance_sym A B), (fPress_sym (pressure_of rhoA rest)).
  rewrite (leb_ltb_guard _ H0 Hh).
  set (r := distance A B). set (fP := fPress _ _ _).
  pose proof (negation_mul fP _ _
    (negation_div _ _ r (sub_negation (Vertex.x B) (Vertex.x A)))) as Hx.
  pose proof (negation_mul fP _ _
    (negation_div _ _ r (sub_negation (Vertex.y B) (Vertex.y A)))) as Hy.
  pose proof (negation_mul fP _ _
    (negation_div _ _ r (sub_negation (Vertex.z B) (Vertex.z A)))) as Hz.
  eexists _, _. split_and!; [reflexivity|reflexivity|done|..];
    cbn [fst snd]; by apply negation_sum.
Qed.

Lemma constant_magnitudes :
  h = S754_finite false 10066330 (-23) /\
  (h * h)%f32 = S754_finite false 12079596 (-23) /\
  stiffness = S754_finite false 10066330 (-24) /\
  f1 = S754_finite false 8388608 (-23) /\
  (- F32.lit 5 10)%f32 = S754_finite true 8388608 (-24).
Proof. vm_compute. repeat split. Qed.

Lemma dist2_regular a b : regular (dist2 a b).
Proof.
  destruct a as [[ax ay] az], b as [[bx by_] bz]. unfold dist2.
  apply add_regular; [apply add_regular|]; apply mul_regular.
Qed.

(** One term of the density: between 0 and [2^11]. *)
Lemma kernel_bounds r2 :
  regular r2 -> near r2 = true -> small 11 (kernel r2) /\ nonneg (kernel r2).
Proof.
  intros Hreg Hnear. unfold near in Hnear. apply andb_true_iff in Hnear as [H0 Hh].
  destruct constant_magnitudes as (Eh & Ehh & _ & E1 & _).
  rewrite Ehh in Hh.
  destruct r2 as [s|[]| |[] m e]; try done.
  apply ltb_exponent in Hh. destruct Hreg as [_ Hd].
  assert (Hr2 : small 1 (S754_finite false m e)) by (cbn [small]; unfold magnitude; lia).
  pose proof (sqrt_small 1 1 _ Hr2 ltac:(done) ltac:(lia) ltac:(lia) I) as Hs.
  assert (Hbh : big 1 h) by (rewrite Eh; cbn [big]; unfold magnitude; simpl; lia).
  pose proof (div_small 2 1 2 _ h Hs Hbh ltac:(lia) ltac:(lia) ltac:(lia)) as Hq.
  assert (H1 : small 3 f1) by (rewrite E1; cbn [small]; unfold magnitude; simpl; lia).
  pose proof (sub_small 3 _ _ H1 Hq ltac:(lia) ltac:(lia)) as Hk.
  pose proof (mul_small 5 5 10 _ _ Hk Hk ltac:(lia) ltac:(lia)) as Hkk.
  unfold kernel. cbv zeta. split; [exact Hkk|].
  destruct (square_nonneg (f1 - F32.sqrt (S754_finite false m e) / h)%f32) as [Hn|Hn];
    [|done].
  rewrite Hn in Hkk. done.
Qed.

Lemma filter_Forall {C : Type} (P : C -> bool) (l : list C) :
  Forall (fun c => P c = true) (List.filter P l).
Proof.
  induction l as [|c l IH]; [constructor|]. simpl.
  destruct (P c) eqn:E; [by constructor|done].
Qed.

(** The density of a particle never exceeds [2^40]: each term is below
    [2^11], and a sum that has reached [2^40] absorbs such a term. *)
Lemma density_spec_capped nx ny nz pos i j k :
  capped 40 (density_spec nx ny nz pos i j k).
Proof.
  unfold density_spec. cbv zeta.
  apply foldl_capped; [lia|lia|done|].
  apply Forall_fmap.
  eapply Forall_impl; [apply filter_Forall|].
  intros c Hc. simpl in *.
  destruct (kernel_bounds _ (dist2_regular _ _) Hc) as [Hs Hn].
  split; [|done]. by apply (small_mono 11).
Qed.

Lemma density_at_small s i j k :
  wf s -> in_grid s i j k -> small 41 (density_at s i j k).
Proof.
  intros Hwf Hg. rewrite density_at_spec by done.
  apply (capped_small 40), density_spec_capped.
Qed.

Lemma restDensity_small N : 0 < N <= INT_MAX -> small 16 (restDensity N).
Proof.
  intros HN. destruct (F32_of_int_finite N HN) as (p & e & HNf & Hlo & Hhi).
  unfold restDensity. rewrite domain_volume, HNf.
  change (F32.of_int 24000) with (S754_finite false 12288000 (-9)).
  apply (div_small 15 1 15); [|cbn [big]; unfold magnitude; lia|lia|lia|lia].
  cbn [small]. unfold magnitude. simpl. lia.
Qed.

Lemma rest_of_small s : wf s -> small 16 (rest_of s).
Proof.
  intros Hwf. apply restDensity_small. destruct Hwf. 
  split; [|done]. 
  assert (0 < Grille.nx s * Grille.ny s) by lia. lia.
Qed.

Lemma pressure_of_small rho rest :
  small 41 rho -> small 16 rest -> small 44 (pressure_of rho rest).
Proof.
  intros Hrho Hrest. unfold pressure_of.
  destruct constant_magnitudes as (_ & _ & Es & _).
  pose proof (sub_small 41 rho rest Hrho (small_mono _ 41 _ Hrest ltac:(lia))
    ltac:(lia) ltac:(lia)) as Hd.
  apply (mul_small 0 43 43); [|done|lia|lia].
  rewrite Es. cbn [small]. unfold magnitude. simpl. lia.
Qed.

(** The pressure terms of a pair within reach are finite when the
    pressures are those of densities the density pass can produce. *)
Lemma pressure_pair_finite A B PA PB :
  small 44 PA -> small 44 PB ->
  (f0 <? distance A B)%f32 = true -> (distance A B <=? h)%f32 = true ->
  exists a, pressure_pair A B PA PB = Some a /\ finite3 a.
Proof.
  intros HPA HPB H0 Hh. rewrite pressure_pair_unfold. cbv zeta.
  rewrite (leb_ltb_guard _ H0 Hh). eexists. split; [reflexivity|].
  destruct constant_magnitudes as (Eh & _ & _ & E1 & Ec).
  unfold distance in *. cbv zeta in *.
  set (dx := (Vertex.x B - Vertex.x A)%f32) in *.
  set (dy := (Vertex.y B - Vertex.y A)%f32) in *.
  set (dz := (Vertex.z B - Vertex.z A)%f32) in *.
  destruct (radius_bounds dx dy dz H0 Hh) as (mr & er & Hr & Hmag & Hx & Hy & Hz).
  set (r := F32.sqrt (dx * dx + dy * dy + dz * dz)%f32) in *.
  assert (Hbr : big (magnitude mr er) r) by (rewrite Hr; cbn [big]; lia).
  assert (Hsr : small 1 r) by (by rewrite Hr).
  assert (Hbh : big 1 h) by (rewrite Eh; cbn [big]; unfold magnitude; simpl; lia).
  assert (Hq : small 4 (f1 - r / h)%f32).
  { pose proof (div_small 1 1 1 r h Hsr Hbh ltac:(lia) ltac:(lia) ltac:(lia)) as Hd.
    apply (sub_small 2); [|done|lia|lia].
    rewrite E1. cbn [small]. unfold magnitude. simpl. lia. }
  assert (HfP : small 52 (fPress PA PB (f1 - r / h)%f32)).
  { unfold fPress.
    pose proof (add_small 44 PA PB HPA HPB ltac:(lia) ltac:(lia)) as Hs.
    assert (Hc : small 47 (- F32.lit 5 10 * (PA + PB))%f32).
    { apply (mul_small 0 46 46); [|done|lia|lia].
      rewrite Ec. cbn [small]. unfold magnitude. simpl. lia. }
    by apply (mul_small 47 4 51). }
  assert (Hterm : forall d, small (magnitude mr er) d ->
            is_finite (fPress PA PB (f1 - r / h) * (d / r))%f32 = true).
  { intros d Hd. apply (small_finite 55). apply (mul_small 52 2 54); [done| |lia|lia].
    by apply (div_small (magnitude mr er) (magnitude mr er) 1); [..|lia|lia|lia]. }
  unfold finite3. cbn [fst snd]. split_and!; by apply Hterm.
Qed.

(** C3.  In a step on a well-formed grid, take two particles [A] and [B]
    at a distance [0 < r <= h] and the densities the density pass has
    stored for them, which the force pass reads.  They are distinct
    particles, and neither ordered pair is skipped.  With [A] as the
    subject, the body of the pair loop of the force pass, [force_pair],
    adds to the running acceleration the pressure term [a] and then the
    viscosity term; with [B] as the subject it adds [b] and the opposite
    viscosity term.  [a] and [b] are the products [fPress * n] of the two
    ordered pairs; [b] is, component by component, the negation of [a];
    both are finite, and each component of their sum is a zero.  The
    force pass stores for each of the two particles what that loop gives,
    run over all the cells from the gravity of phase 0 with the
    pressure of the subject, after the walls. *)
Theorem pressure_pair_opposite grid i j k ii jj kk :
  wf grid -> in_grid grid i j k -> in_grid grid ii jj kk ->
  let s := before_force grid in
  let A := particle s i j k in
  let B := particle s ii jj kk in
  let PA := pressure_of (get3 (Grille.div s) i j k) (rest_of grid) in
  let PB := pressure_of (get3 (Grille.div s) ii jj kk) (rest_of grid) in
  (f0 <? distance A B)%f32 = true ->
  (distance A B <=? h)%f32 = true ->
  exists a b,
    pressure_pair A B PA PB = Some a /\
    pressure_pair B A PB PA = Some b /\
    opposite a b /\ finite3 a /\ finite3 b /\
    is_zero (a.1.1 + b.1.1)%f32 = true /\
    is_zero (a.1.2 + b.1.2)%f32 = true /\
    is_zero (a.2 + b.2)%f32 = true /\
    (ii, jj, kk) <> (i, j, k) /\
    (let q := (f1 - distance A B / h)%f32 in
     let viscA := viscosity_pair (velocity s i j k) (velocity s ii jj kk) q in
     let viscB := viscosity_pair (velocity s ii jj kk) (velocity s i j k) q in
     forall acc,
       force_pair s (rest_of grid) i j k A PA ii jj kk acc
       = ((acc.1.1 + a.1.1 + viscA.1.1)%f32, (acc.1.2 + a.1.2 + viscA.1.2)%f32,
          (acc.2 + a.2 + viscA.2)%f32) /\
       force_pair s (rest_of grid) ii jj kk B PB i j k acc
       = ((acc.1.1 + b.1.1 + viscB.1.1)%f32, (acc.1.2 + b.1.2 + viscB.1.2)%f32,
          (acc.2 + b.2 + viscB.2)%f32)) /\
    forall pressure speed,
      acceleration (force_pass (rest_of grid) pressure speed s) i j k
      = (let '(ax_local, ay_local, az_local) :=
           for3 (Grille.nx s) (Grille.ny s) (Grille.nz s)
             (force_pair s (rest_of grid) i j k A PA) (f0, g, f0) in
         (wall_force minX maxX (Vertex.x A) ax_local,
          wall_force minY maxY (Vertex.y A) ay_local,
          wall_force minZ maxZ (Vertex.z A) az_local)) /\
      acceleration (force_pass (rest_of grid) pressure speed s) ii jj kk
      = (let '(ax_local, ay_local, az_local) :=
           for3 (Grille.nx s) (Grille.ny s) (Grille.nz s)
             (force_pair s (rest_of grid) ii jj kk B PB) (f0, g, f0) in
         (wall_force minX maxX (Vertex.x B) ax_local,
          wall_force minY maxY (Vertex.y B) ay_local,
          wall_force minZ maxZ (Vertex.z B) az_local)).
Proof.
  intros Hwf Hg1 Hg2 s A B PA PB H0 Hh.
  destruct (before_force_spec grid Hwf) as (_ & _ & _ & _ & Hcell).
  destruct (Hcell _ _ _ Hg1) as [HdA _]. destruct (Hcell _ _ _ Hg2) as [HdB _].
  fold s in HdA, HdB.
  assert (HPA : small 44 PA).
  { unfold PA. rewrite HdA.
    apply pressure_of_small; [by apply density_at_small|by apply rest_of_small]. }
  assert (HPB : small 44 PB).
  { unfold PB. rewrite HdB.
    apply pressure_of_small; [by apply density_at_small|by apply rest_of_small]. }
  destruct (pressure_pair_negation A B (get3 (Grille.div s) i j k)
              (get3 (Grille.div s) ii jj kk) (rest_of grid) H0 Hh)
    as (a & b & Ha & Hb & Hopp & Hc1 & Hc2 & Hc3).
  fold PA PB in Ha, Hb.
  destruct (pressure_pair_finite A B PA PB HPA HPB H0 Hh) as (a' & Ha' & Hfa).
  assert (H0' : (f0 <? distance B A)%f32 = true) by (by rewrite distance_sym).
  assert (Hh' : (distance B A <=? h)%f32 = true) by (by rewrite distance_sym).
  destruct (pressure_pair_finite B A PB PA HPB HPA H0' Hh') as (b' & Hb' & Hfb).
  assert (a' = a) by congruence. assert (b' = b) by congruence. subst a' b'.
  exists a, b. destruct Hfa as (Hf1 & Hf2 & Hf3).
  unfold cancel in Hc1, Hc2, Hc3. rewrite Hf1 in Hc1. rewrite Hf2 in Hc2.
  rewrite Hf3 in Hc3.
  assert (Hne : (ii, jj, kk) <> (i, j, k)).
  { intros [= -> -> ->]. unfold A, B in H0. by rewrite distance_self in H0. }
  assert (Hcell1 : (ii =? i) && (jj =? j) && (kk =? k) = false).
  { apply not_true_is_false. intros E.
    apply andb_true_iff in E as [E E3]. apply andb_true_iff in E as [E1 E2].
    apply Z.eqb_eq in E1, E2, E3. by subst. }
  assert (Hcell2 : (i =? ii) && (j =? jj) && (k =? kk) = false)
    by (by rewrite <- same_cell_sym).
  split_and!; try done.
  - cbv zeta. intros acc. split.
    + rewrite force_pair_terms by done. cbv zeta. fold B PB. by rewrite Ha.
    + rewrite force_pair_terms by done. cbv zeta. fold A PA.
      by rewrite Hb, (distance_sym A B).
  - intros pressure speed. split; by apply force_pass_pairs.
Qed.

Lemma pressure_pair_opposite_witness :
  let s := before_force two_particles in
  let rest := rest_of two_particles in
  let A := particle s 0 0 0 in
  let B := particle s 1 0 0 in
  let PA := pressure_of (get3 (Grille.div s) 0 0 0) rest in
  let PB := pressure_of (get3 (Grille.div s) 1 0 0) rest in
  wf two_particles /\ in_grid two_particles 0 0 0 /\ in_grid two_particles 1 0 0 /\
  (f0 <? distance A B)%f32 = true /\ (distance A B <=? h)%f32 = true /\
  exists a b,
    pressure_pair A B PA PB = Some a /\
    pressure_pair B A PB PA = Some b /\
    opposite a b /\ finite3 a /\ finite3 b /\
    is_zero (a.1.1 + b.1.1)%f32 = true /\
    is_zero (a.1.2 + b.1.2)%f32 = true /\
    is_zero (a.2 + b.2)%f32 = true /\
    (1, 0, 0) <> (0, 0, 0) /\
    (let q := (f1 - distance A B / h)%f32 in
     let viscA := viscosity_pair (velocity s 0 0 0) (velocity s 1 0 0) q in
     let viscB := viscosity_pair (velocity s 1 0 0) (velocity s 0 0 0) q in
     forall acc,
       force_pair s rest 0 0 0 A PA 1 0 0 acc
       = ((acc.1.1 + a.1.1 + viscA.1.1)%f32, (acc.1.2 + a.1.2 + viscA.1.2)%f32,
          (acc.2 + a.2 + viscA.2)%f32) /\
       force_pair s rest 1 0 0 B PB 0 0 0 acc
       = ((acc.1.1 + b.1.1 + viscB.1.1)%f32, (acc.1.2 + b.1.2 + viscB.1.2)%f32,
          (acc.2 + b.2 + viscB.2)%f32)) /\
    forall pressure speed,
      acceleration (force_pass rest pressure speed s) 0 0 0
      = (let '(ax_local, ay_local, az_local) :=
           for3 (Grille.nx s) (Grille.ny s) (Grille.nz s)
             (force_pair s rest 0 0 0 A PA) (f0, g, f0) in
         (wall_force minX maxX (Vertex.x A) ax_local,
          wall_force minY maxY (Vertex.y A) ay_local,
          wall_force minZ maxZ (Vertex.z A) az_local)) /\
      acceleration (force_pass rest pressure speed s) 1 0 0
      = (let '(ax_local, ay_local, az_local) :=
           for3 (Grille.nx s) (Grille.ny s) (Grille.nz s)
             (force_pair s rest 1 0 0 B PB) (f0, g, f0) in
         (wall_force minX maxX (Vertex.x B) ax_local,
          wall_force minY maxY (Vertex.y B) ay_local,
          wall_force minZ maxZ (Vertex.z B) az_local)).
Proof.
  intros s rest A B PA PB.
  assert (Hwf : wf two_particles) by wf_by_computation.
  assert (Hg1 : in_grid two_particles 0 0 0) by (unfold in_grid; simpl; lia).
  assert (Hg2 : in_grid two_particles 1 0 0) by (unfold in_grid; simpl; lia).
  assert (H0 : (f0 <? distance A B)%f32 = true) by (vm_compute; reflexivity).
  assert (Hh : (distance A B <=? h)%f32 = true) by (vm_compute; reflexivity).
  split; [exact Hwf|]. split; [exact Hg1|]. split; [exact Hg2|].
  split; [exact H0|]. split; [exact Hh|].
  exact (pressure_pair_opposite two_particles 0 0 0 1 0 0 Hwf Hg1 Hg2 H0 Hh).
Defined.

(** ** The lattice *)

(** C4.  For positive resolutions whose product is an [int], and any
    [scale], [CreateGrid] returns exactly [nx * ny * nz] records, and the
    record at the linear index [i * (ny * nz) + j * nz + k] is at
    [(i * scale, j * scale + 5, k * scale)], the products and the sum
    being those of [float].  [CreateGrid(2, 2, 2, 1.0f)] puts the particle
    of lattice coordinate [(1, 1, 1)], of index 7, at [(1, 6, 1)]. *)
Theorem CreateGrid_lattice nx ny nz scale :
  0 < nx -> 0 < ny -> 0 < nz -> nx * ny * nz <= INT_MAX ->
  length (Grille.vertices (CreateGrid nx ny nz scale)) = Z.to_nat (nx * ny * nz) /\
  (forall i j k, 0 <= i < nx -> 0 <= j < ny -> 0 <= k < nz ->
     idx3 i j k ny nz = i * (ny * nz) + j * nz + k /\
     position (Grille.vertices (CreateGrid nx ny nz scale)
                 !!! Z.to_nat (idx3 i j k ny nz))
     = ((F32.of_int i * scale)%f32,
        (F32.of_int j * scale + F32.of_int 5)%f32,
        (F32.of_int k * scale)%f32)) /\
  position (Grille.vertices (CreateGrid 2 2 2 (F32.of_int 1))
              !!! Z.to_nat (idx3 1 1 1 2 2))
  = (F32.of_int 1, F32.of_int 6, F32.of_int 1).
Proof.
  intros Hx Hy Hz Hint.
  destruct (CreateGrid_spec nx ny nz scale Hx Hy Hz Hint) as [[Hw Hd _ _ _] Hc].
  injection Hd as Hdx Hdy Hdz. split_and!.
  - rewrite (wf_vertices _ Hw). by rewrite Hdx, Hdy, Hdz.
  - intros i j k Hi Hj Hk. split; [done|]. specialize (Hc i j k Hi Hj Hk).
    unfold particle, Grille.vertex in Hc. rewrite Hdy, Hdz in Hc.
    by rewrite Hc.
  - vm_compute. reflexivity.
Qed.

Lemma CreateGrid_lattice_witness :
  0 < 2 /\ 2 * 2 * 2 <= INT_MAX /\
  length (Grille.vertices (CreateGrid 2 2 2 (F32.of_int 1))) = Z.to_nat (2 * 2 * 2).
Proof.
  assert (H2 : 0 < 2) by lia.
  assert (Hi : 2 * 2 * 2 <= INT_MAX) by (unfold INT_MAX; lia).
  split; [exact H2|]. split; [exact Hi|].
  exact (proj1 (CreateGrid_lattice 2 2 2 (F32.of_int 1) H2 H2 H2 Hi)).
Defined.

(** C9.  For positive resolutions whose product is an [int], and any
    [scale], every record returned by [CreateGrid] has the colour
    [(0, 0, 0)]: the assignment [{x, y, z}] sets [r], [g], [b] to zero. *)
Theorem CreateGrid_colors nx ny nz scale :
  0 < nx -> 0 < ny -> 0 < nz -> nx * ny * nz <= INT_MAX ->
  Forall (fun v => color v = (f0, f0, f0))
    (Grille.vertices (CreateGrid nx ny nz scale)).
Proof.
  intros Hx Hy Hz Hint.
  destruct (CreateGrid_spec nx ny nz scale Hx Hy Hz Hint) as [[Hw Hd _ _ _] Hc].
  injection Hd as Hdx Hdy Hdz.
  apply Forall_lookup. intros n v Hn.
  pose proof (lookup_lt_Some _ _ _ Hn) as Hlt.
  rewrite (wf_vertices _ Hw), Hdx, Hdy, Hdz in Hlt.
  destruct (idx3_surj nx ny nz (Z.of_nat n))
    as (i & j & k & Hi & Hj & Hk & E); [done..|lia|].
  specialize (Hc i j k Hi Hj Hk).
  unfold particle, Grille.vertex in Hc. rewrite Hdy, Hdz, E, Nat2Z.id in Hc.
  rewrite (list_lookup_total_correct _ _ _ Hn) in Hc. by rewrite Hc.
Qed.

Lemma CreateGrid_colors_witness :
  0 < 2 /\ 2 * 2 * 2 <= INT_MAX /\
  Forall (fun v => color v = (f0, f0, f0))
    (Grille.vertices (CreateGrid 2 2 2 (F32.of_int 1))).
Proof.
  assert (H2 : 0 < 2) by lia.
  assert (Hi : 2 * 2 * 2 <= INT_MAX) by (unfold INT_MAX; lia).
  split; [exact H2|]. split; [exact Hi|].
  exact (CreateGrid_colors 2 2 2 (F32.of_int 1) H2 H2 H2 Hi).
Defined.

(** ** Isolated particles *)

Lemma foldl_fixed {A S : Type} (f : S -> A -> S) (l : list A) (s : S) :
  (forall x, x ∈ l -> f s x = s) -> foldl f s l = s.
Proof.
  induction l as [|x l IH]; intros H; [done|]. simpl.
  rewrite H by left. apply IH. intros y Hy. apply H. by right.
Qed.

Lemma density_at_isolated s i j k :
  wf s -> in_grid s i j k ->
  (forall ii jj kk, in_grid s ii jj kk -> (ii, jj, kk) <> (i, j, k) ->
     (dist2 (position (particle s i j k)) (position (particle s ii jj kk)) <? h * h)%f32
     = false) ->
  density_at s i j k = f0.
Proof.
  intros Hwf Hg Hfar. unfold density_at. cbv zeta. rewrite for3_cells.
  apply foldl_fixed. intros [[ii jj] kk] Hc. apply in_grid_cells in Hc.
  cbn [on_cell]. unfold density_pair. cbv zeta.
  destruct ((ii =? i) && (jj =? j) && (kk =? k)) eqn:E; [done|].
  assert (Hne : (ii, jj, kk) <> (i, j, k)).
  { intros [= -> -> ->]. by rewrite !Z.eqb_refl in E. }
  specialize (Hfar ii jj kk Hc Hne).
  unfold dist2, position, particle in Hfar. rewrite Hfar.
  by rewrite andb_false_r.
Qed.

Lemma sub_zero_l r : is_zero r = false -> (f0 - r)%f32 = (- r)%f32.
Proof. by destruct r as [[]|[]| |[] m e]. Qed.

Lemma pressure_isolated rest :
  same_value (stiffness * (f0 - rest))%f32 (- stiffness * rest)%f32 /\
  (is_zero rest = false -> (stiffness * (f0 - rest))%f32 = (- stiffness * rest)%f32).
Proof.
  assert (Hnz : is_zero rest = false ->
                (stiffness * (f0 - rest))%f32 = (- stiffness * rest)%f32).
  { intros Hr. rewrite (sub_zero_l _ Hr). unfold F32.mul, F32.opp.
    by rewrite SFmul_opp_l, SFmul_opp_r. }
  split; [|done].
  destruct (is_zero rest) eqn:Hr; [|left; by apply Hnz].
  right. by destruct rest as [[]| | |].
Qed.

Lemma restDensity_nonzero N : 0 < N <= INT_MAX -> is_zero (restDensity N) = false.
Proof.
  intros HN. destruct (F32_of_int_finite N HN) as (p & e & HNf & Hlo & Hhi).
  unfold restDensity. rewrite domain_volume, HNf.
  change (F32.of_int 24000) with (S754_finite false 12288000 (-9)).
  unfold F32.div. cbn [SFdiv xorb].
  unfold SFdiv_core_binary. cbn [Zdigits2].
  change (Z.pos (digits2_pos 12288000)) with 24.
  set (d := Z.pos (digits2_pos p)) in *.
  assert (Hd : 0 < d) by (unfold d; lia).
  replace (fexp F32.prec F32.emax (24 + -9 - (d + e)) `min` (-9 - e))
    with (-9 - (d + e)) by (unfold fexp, emin, F32.prec, F32.emax; lia).
  replace (-9 - e - (-9 - (d + e))) with d by lia.
  unfold d at 1. 
  pose proof (Z_div_mod (Z.shiftl 12288000 d) (Z.pos p) ltac:(lia)) as Hdm.
  destruct (Z.div_eucl (Z.shiftl 12288000 d) (Z.pos p)) as [q r].
  rewrite Z.shiftl_mul_pow2 in Hdm by lia.
  pose proof (digits2_pos_bounds p) as [_ Bhi]. fold d in Bhi.
  assert (Hq : 0 < q) by nia.
  destruct q as [|q|q]; try lia.
  destruct (binary_round_aux_pos F32.prec F32.emax ltac:(done) false q
              (-9 - (d + e)) (new_location (Z.pos p) r)) as (p' & e' & -> & _).
  { unfold emin, F32.prec, F32.emax. lia. }
  by destruct (e' <=? _).
Qed.

(** C5.  A particle of a well-formed grid with no other particle
    strictly within the distance [h] (no other [B] with [r2 < h*h]) gets
    the density [0.0f] from the density pass, and keeps it to the end of
    the step.  Its pressure in the force pass is then
    [stiffness * (0 - restDensity)], which is the [float]
    [-stiffness * restDensity]: the rest density of a well-formed grid is
    never a zero.  That is the pressure the force pass of the step works
    with for this particle: the vertex it leaves is the one coloured with
    [-stiffness * restDensity], the acceleration it stores is the one the
    pair loop gives with this pressure for the subject, and in the
    pressure mode the colour at the end of the step is the pressure
    gradient of [-stiffness * restDensity]. *)
Theorem isolated_particle grid i j k :
  wf grid -> in_grid grid i j k ->
  (forall ii jj kk, in_grid grid ii jj kk -> (ii, jj, kk) <> (i, j, k) ->
     (dist2 (position (particle grid i j k)) (position (particle grid ii jj kk))
      <? h * h)%f32 = false) ->
  let rest := rest_of grid in
  let P := pressure_of (get3 (Grille.div (density_pass grid)) i j k) rest in
  get3 (Grille.div (density_pass grid)) i j k = f0 /\
  (forall dt pressure speed,
     get3 (Grille.div (UpdateGrid dt grid pressure speed)) i j k = f0) /\
  P = (stiffness * (f0 - rest))%f32 /\
  P = (- stiffness * rest)%f32 /\
  (let s := before_force grid in
   let A := particle grid i j k in
   forall pressure speed,
     particle (force_pass rest pressure speed s) i j k
     = force_vertex pressure speed (- stiffness * rest)%f32 rest A /\
     acceleration (force_pass rest pressure speed s) i j k
     = (let '(ax_local, ay_local, az_local) :=
          for3 (Grille.nx s) (Grille.ny s) (Grille.nz s)
            (force_pair s rest i j k A (- stiffness * rest)%f32) (f0, g, f0) in
        (wall_force minX maxX (Vertex.x A) ax_local,
         wall_force minY maxY (Vertex.y A) ay_local,
         wall_force minZ maxZ (Vertex.z A) az_local))) /\
  (forall dt,
     color (particle (UpdateGrid dt grid true false) i j k)
     = pressure_color (- stiffness * rest)%f32 rest).
Proof.
  intros Hwf Hg Hfar rest P.
  pose proof (density_at_isolated grid i j k Hwf Hg Hfar) as Hd.
  destruct (density_pass_spec grid Hwf) as [_ Hdiv].
  assert (E : get3 (Grille.div (density_pass grid)) i j k = f0)
    by (by rewrite Hdiv).
  assert (Hnz : is_zero rest = false).
  { apply restDensity_nonzero. destruct Hwf. split; [nia|done]. }
  destruct (pressure_isolated rest) as [_ He]. specialize (He Hnz).
  destruct (before_force_spec grid Hwf) as (Hw & Hdims & Hv & _ & Hbf).
  destruct (Hbf i j k Hg) as [Hrho _]. rewrite Hd in Hrho.
  assert (HA : particle (before_force grid) i j k = particle grid i j k)
    by (by apply particle_frozen).
  unfold P, pressure_of. rewrite E. split_and!; try done.
  - intros dt p sp. destruct (UpdateGrid_spec dt p sp grid Hwf) as (_ & _ & Hc).
    destruct (Hc i j k Hg) as (-> & _). done.
  - cbv zeta. intros p sp. split.
    + destruct (force_pass_spec rest p sp _ Hw) as [_ Hc].
      destruct (Hc i j k (in_grid_dims _ _ _ _ _ Hdims Hg)) as [_ ->].
      unfold pressure_of. by rewrite Hrho, HA, He.
    + unfold rest. rewrite (force_pass_pairs grid p sp i j k Hwf Hg). cbv zeta.
      unfold pressure_of. fold rest. by rewrite Hrho, HA, He.
  - intros dt. destruct (step_cell_particle dt true false grid i j k Hwf Hg) as [-> _].
    unfold step_cell. destruct (forces grid i j k) as [[a1 a2] a3].
    rewrite color_integrate_plain, color_force_pressure.
    fold rest. unfold pressure_of. by rewrite Hd, He.
Qed.

Lemma isolated_particle_witness :
  let rest := rest_of two_apart in
  wf two_apart /\ in_grid two_apart 0 0 0 /\
  get3 (Grille.div (density_pass two_apart)) 0 0 0 = f0 /\
  pressure_of (get3 (Grille.div (density_pass two_apart)) 0 0 0) rest
  = (- stiffness * rest)%f32 /\
  (forall dt,
     color (particle (UpdateGrid dt two_apart true false) 0 0 0)
     = pressure_color (- stiffness * rest)%f32 rest).
Proof.
  intros rest.
  assert (Hwf : wf two_apart) by wf_by_computation.
  assert (Hg : in_grid two_apart 0 0 0) by (unfold in_grid; simpl; lia).
  assert (Hfar : forall ii jj kk,
    in_grid two_apart ii jj kk -> (ii, jj, kk) <> (0, 0, 0) ->
    (dist2 (position (particle two_apart 0 0 0))
       (position (particle two_apart ii jj kk)) <? h * h)%f32 = false).
  { intros ii jj kk (Hi & Hj & Hk) Hne. simpl in Hi, Hj, Hk.
    assert (jj = 0) as -> by lia. assert (kk = 0) as -> by lia.
    assert (ii = 0 \/ ii = 1) as [-> | ->] by lia; [congruence|].
    vm_compute. reflexivity. }
  destruct (isolated_particle two_apart 0 0 0 Hwf Hg Hfar) as (H1 & _ & _ & H4 & _ & H6).
  split; [exact Hwf|]. split; [exact Hg|]. split; [exact H1|]. split; [exact H4|].
  exact H6.
Defined.

(** ** Rest density *)

Lemma rest_of_dims s s0 : same_dims s s0 -> rest_of s = rest_of s0.
Proof. intros (Hx & Hy & Hz). unfold rest_of. by rewrite Hx, Hy, Hz. Qed.

(** C6.  In a step on a well-formed grid, [restDensity] is the volume of
    the domain, [(20 - 0) * (60 - 0) * (20 - 0) = 24000], divided by
    [N = nx * ny * nz] converted to [float].  It is computed once, before
    the passes, from the bounds and from [N]; the step keeps [nx], [ny],
    [nz], so the next step computes the same value; and the force pass
    uses this one value for the pressure of every particle, as subject
    ([force_vertex], [force_at]) and as neighbour (inside [force_at]). *)
Theorem restDensity_of_step dt pressure speed grid :
  wf grid ->
  let N := Grille.nx grid * Grille.ny grid * Grille.nz grid in
  restDensity N = (F32.of_int ((20 - 0) * (60 - 0) * (20 - 0)) / F32.of_int N)%f32 /\
  UpdateGrid dt grid pressure speed
  = integrate_pass dt speed
      (force_pass (restDensity N) pressure speed (density_pass (reset_pass grid))) /\
  rest_of (UpdateGrid dt grid pressure speed) = restDensity N /\
  forall i j k, in_grid grid i j k ->
    acceleration (force_pass (restDensity N) pressure speed (before_force grid)) i j k
    = force_at (before_force grid) (restDensity N) i j k /\
    particle (force_pass (restDensity N) pressure speed (before_force grid)) i j k
    = force_vertex pressure speed
        (stiffness * (density_at grid i j k - restDensity N))%f32 (restDensity N)
        (particle grid i j k).
Proof.
  intros Hwf N.
  destruct (UpdateGrid_spec dt pressure speed grid Hwf) as (_ & Hd & _).
  destruct (before_force_spec grid Hwf) as (Hw2 & Hd2 & Hv2 & _ & Hc2).
  destruct (force_pass_spec (restDensity N) pressure speed _ Hw2) as [_ Hc3].
  split_and!.
  - unfold restDensity. by rewrite domain_volume.
  - done.
  - by rewrite (rest_of_dims _ _ Hd).
  - intros i j k Hg. pose proof (in_grid_dims _ _ _ _ _ Hd2 Hg) as Hg2.
    destruct (Hc3 i j k Hg2) as [-> ->]. split; [done|].
    destruct (Hc2 i j k Hg) as [-> _].
    by rewrite (particle_frozen _ grid).
Qed.

Lemma restDensity_of_step_witness :
  wf one_particle /\
  rest_of (UpdateGrid (F32.lit 1 100) one_particle true false)
  = restDensity (1 * 1 * 1).
Proof.
  assert (Hwf : wf one_particle) by wf_by_computation.
  split; [exact Hwf|].
  exact (proj1 (proj2 (proj2
    (restDensity_of_step (F32.lit 1 100) true false one_particle Hwf)))).
Defined.

(** ** Colours *)

Lemma color_integrate_speed dt v vx vy vz ax_ ay_ az_ :
  let r := integrate_at dt true v vx vy vz ax_ ay_ az_ in
  color r.1 = speed_color r.2.1.1 r.2.1.2 r.2.2.
Proof.
  unfold integrate_at. cbv zeta.
  destruct (wall_clamp minX maxX _ _) as [x1 v1].
  destruct (wall_clamp minY maxY _ _) as [y1 v2].
  destruct (wall_clamp minZ maxZ _ _) as [z1 v3].
  cbn [fst snd]. by destruct (speed_color v1 v2 v3) as [[? ?] ?].
Qed.

(** C7.  A step with both modes set, on a well-formed grid and for any
    [dt]: the colour of every particle at the end of the step is
    [(v_norm, 0.2 * (1 - v_norm), 1 - v_norm)] with
    [v_norm = fmin(|velocity| / 15, 1)], for the velocity the step stores
    (after the integration and the reflection on the walls).  It replaces
    the pressure colour that the force pass of the same step had written. *)
Theorem speed_color_wins dt grid i j k :
  wf grid -> in_grid grid i j k ->
  let grid' := UpdateGrid dt grid true true in
  let '(vx, vy, vz) := velocity grid' i j k in
  let v_norm :=
    F32.fmin (F32.sqrt (vx * vx + vy * vy + vz * vz) / F32.of_int 15)%f32 f1 in
  color (particle grid' i j k)
  = (v_norm, (F32.lit 2 10 * (f1 - v_norm))%f32, (f1 - v_norm)%f32) /\
  color (particle (force_pass (rest_of grid) true true (before_force grid)) i j k)
  = pressure_color (pressure_of (density_at grid i j k) (rest_of grid)) (rest_of grid).
Proof.
  intros Hwf Hg grid'.
  destruct (UpdateGrid_spec dt true true grid Hwf) as (_ & _ & Hc).
  destruct (Hc i j k Hg) as (_ & _ & Hcell). fold grid' in Hcell.
  pose proof (f_equal fst Hcell) as Hp. pose proof (f_equal snd Hcell) as Hv.
  cbn [fst snd] in Hp, Hv. rewrite Hp, Hv.
  unfold step_cell. destruct (forces grid i j k) as [[a1 a2] a3].
  pose proof (color_integrate_speed dt
    (force_vertex true true (pressure_of (density_at grid i j k) (rest_of grid))
       (rest_of grid) (particle grid i j k))
    (get3 (Grille.vx grid) i j k) (get3 (Grille.vy grid) i j k)
    (get3 (Grille.vz grid) i j k) a1 a2 a3) as Hcol.
  cbv zeta in Hcol.
  destruct (integrate_at _ _ _ _ _ _ _ _ _) as [v [[v1 v2] v3]].
  cbn [fst snd] in *. split; [exact Hcol|].
  destruct (before_force_spec grid Hwf) as (Hw2 & Hd2 & Hv2 & _ & Hc2).
  destruct (force_pass_spec (rest_of grid) true true _ Hw2) as [_ Hc3].
  pose proof (in_grid_dims _ _ _ _ _ Hd2 Hg) as Hg2.
  destruct (Hc3 i j k Hg2) as [_ ->].
  destruct (Hc2 i j k Hg) as [-> _].
  apply color_force_pressure.
Qed.

Lemma speed_color_wins_witness :
  wf one_particle /\ in_grid one_particle 0 0 0 /\
  color (particle
           (force_pass (rest_of one_particle) true true (before_force one_particle))
           0 0 0)
  = pressure_color
      (pressure_of (density_at one_particle 0 0 0) (rest_of one_particle))
      (rest_of one_particle).
Proof.
  assert (Hwf : wf one_particle) by wf_by_computation.
  assert (Hg : in_grid one_particle 0 0 0) by (unfold in_grid; simpl; lia).
  split; [exact Hwf|]. split; [exact Hg|].
  exact (proj2 (speed_color_wins (F32.lit 1 100) one_particle 0 0 0 Hwf Hg)).
Defined.

(** ** Diagnostics *)

(** An [int] converts to a positive, finite [double]. *)
Lemma F64_of_int_pos n :
  0 < n < 2 ^ 53 -> exists m e, F64.of_int n = S754_finite false m e.
Proof.
  intros [Hn Hlt]. destruct n as [|p|p]; try lia.
  pose proof (digits2_pos_le p 53 ltac:(lia) Hlt) as Hd.
  unfold F64.of_int, binary_normalize, binary_round.
  set (d := Z.pos (digits2_pos p)) in *.
  assert (Hf : fexp F64.prec F64.emax (d + 0) = d - 53).
  { unfold fexp, emin, F64.prec, F64.emax. lia. }
  rewrite Hf.
  assert (Hal : exists mz, shl_align p 0 (d - 53) = (mz, d - 53) /\
                           Z.pos (digits2_pos mz) = 53).
  { unfold shl_align. destruct (d - 53 - 0) as [|q|q] eqn:E; try lia.
    - exists p. split; [f_equal; lia|]. fold d. lia.
    - exists (Pos.iter xO p q). split; [done|].
      rewrite digits2_pos_iter_xO. fold d. lia. }
  destruct Hal as (mz & -> & Hmz).
  unfold binary_round_aux.
  assert (Hs : shr_fexp F64.prec F64.emax (Z.pos mz) (d - 53) loc_Exact
               = (Build_shr_record (Z.pos mz) false false, d - 53)).
  { unfold shr_fexp. cbn [Zdigits2]. rewrite Hmz.
    replace (fexp F64.prec F64.emax (53 + (d - 53)) - (d - 53)) with 0
      by (unfold fexp, emin, F64.prec, F64.emax; lia).
    reflexivity. }
  rewrite Hs. cbn [shr_m loc_of_shr_record round_nearest_even]. rewrite Hs.
  cbn [shr_m]. unfold F64.prec, F64.emax.
  destruct (d - 53 <=? 1024 - 53) eqn:E; [by eexists _, _|lia].
Qed.

Lemma F64_average_zero count :
  0 < count <= INT_MAX -> F64.to_f32 (F64.div f0 (F64.of_int count)) = f0.
Proof.
  intros Hc. destruct (F64_of_int_pos count) as (m & e & ->); [|done].
  unfold INT_MAX in Hc. lia.
Qed.

Lemma get3_zero_field nx ny nz i j k :
  0 <= i < nx -> 0 <= j < ny -> 0 <= k < nz -> get3 (zero_field nx ny nz) i j k = f0.
Proof.
  intros Hi Hj Hk. unfold get3, zero_field.
  rewrite !lookup_total_replicate_2; [done|lia..].
Qed.

(** C8.  On the grid [CreateGrid] returns, for positive resolutions whose
    product is an [int], [ComputeAverageVelocity] returns the vertex
    [(0, 0, 0)] (with a zero colour).  The function takes the grid by
    constant reference: its embedding returns the average and nothing
    else, and the grid of the caller is the one it had. *)
Theorem average_velocity_fresh nx ny nz scale :
  0 < nx -> 0 < ny -> 0 < nz -> nx * ny * nz <= INT_MAX ->
  ComputeAverageVelocity (CreateGrid nx ny nz scale) = Vertex.mk f0 f0 f0 f0 f0 f0.
Proof.
  intros Hx Hy Hz Hint.
  destruct (CreateGrid_spec nx ny nz scale Hx Hy Hz Hint) as [[Hw Hd Hv _ _] _].
  injection Hd as Hdx Hdy Hdz. injection Hv as Hvx Hvy Hvz.
  unfold ComputeAverageVelocity. cbv zeta.
  rewrite Hdx, Hdy, Hdz, Hvx, Hvy, Hvz.
  rewrite for3_cells, foldl_fixed.
  - rewrite F64_average_zero; [done|]. nia.
  - intros [[i j] k] Hc. apply elem_of_cells in Hc as (Hi & Hj & Hk).
    cbn [on_cell]. by rewrite get3_zero_field.
Qed.

Lemma average_velocity_fresh_witness :
  0 < 2 /\ 2 * 2 * 2 <= INT_MAX /\
  ComputeAverageVelocity (CreateGrid 2 2 2 (F32.of_int 1))
  = Vertex.mk f0 f0 f0 f0 f0 f0.
Proof.
  assert (H2 : 0 < 2) by lia.
  assert (Hi : 2 * 2 * 2 <= INT_MAX) by (unfold INT_MAX; lia).
  split; [exact H2|]. split; [exact Hi|].
  exact (average_velocity_fresh 2 2 2 (F32.of_int 1) H2 H2 H2 Hi).
Defined.

(** ** A step of zero duration *)

Lemma add_zero_exact a d :
  is_zero d = true -> is_zero a = false -> (a + d)%f32 = a.
Proof. destruct d as [s| | |]; [|done..]. intros _. apply SFadd_zero_r. Qed.

Lemma ltb_positive_nonzero m e p :
  (S754_finite false m e <? p)%f32 = true -> is_zero p = false.
Proof. by destruct p as [[]|[]| |[] mp ep]. Qed.

Lemma axis_dt0 min max p v a dt :
  (exists m e, (min + epsilon)%f32 = S754_finite false m e) ->
  is_zero dt = true -> strictly_within min max p ->
  is_finite v = true -> is_finite a = true ->
  let v' := (v + a * dt)%f32 in
  wall_clamp min max (p + v' * dt)%f32 v' = (p, v') /\ same_value v' v.
Proof.
  intros (m & e & Hlo) Hdt [Hp1 Hp2] Hv Ha v'.
  assert (Hsv : same_value v' v).
  { apply SFadd_zero_same. by apply SFmul_zero_r. }
  split; [|done].
  assert (Hfv : is_finite v' = true) by (by apply (same_value_finite _ v)).
  assert (Hpz : is_zero p = false).
  { rewrite Hlo in Hp1. by apply ltb_positive_nonzero in Hp1. }
  rewrite (add_zero_exact p (v' * dt)%f32); [|by apply SFmul_zero_r|done].
  unfold wall_clamp.
  by rewrite (ltb_true_flip _ _ Hp1), (ltb_true_flip _ _ Hp2).
Qed.

Lemma integrate_at_dt0 dt sp v vx vy vz ax_ ay_ az_ :
  is_zero dt = true -> strictly_contained v ->
  finite3 (vx, vy, vz) -> finite3 (ax_, ay_, az_) ->
  let r := integrate_at dt sp v vx vy vz ax_ ay_ az_ in
  position r.1 = position v /\ same_value3 r.2 (vx, vy, vz).
Proof.
  intros Hdt (Hx & Hy & Hz) (Hv1 & Hv2 & Hv3) (Ha1 & Ha2 & Ha3).
  cbn [fst snd] in *.
  assert (Hlo : forall min, min = f0 ->
                exists m e, (min + epsilon)%f32 = S754_finite false m e).
  { intros ? ->. by eexists _, _. }
  destruct (axis_dt0 minX maxX (Vertex.x v) vx ax_ dt) as [Ex Sx]; [by apply Hlo|done..|].
  destruct (axis_dt0 minY maxY (Vertex.y v) vy ay_ dt) as [Ey Sy]; [by apply Hlo|done..|].
  destruct (axis_dt0 minZ maxZ (Vertex.z v) vz az_ dt) as [Ez Sz]; [by apply Hlo|done..|].
  cbv zeta. unfold integrate_at. rewrite Ex, Ey, Ez.
  destruct sp; [destruct (speed_color _ _ _) as [[? ?] ?]|];
    cbn [fst snd]; (split; [done|by split_and!]).
Qed.

(** C10, as the code has it.  A step with [dt] a zero, on a well-formed
    grid: a particle strictly inside [(min + epsilon, max - epsilon)] on
    the three axes, whose velocity is finite and for which the force pass
    computes finite accelerations, keeps its position, and keeps its
    velocity as a number (a zero velocity may come out with the other
    sign: [-0 + +0] is [+0]). *)
Theorem zero_dt_keeps_state dt pressure speed grid i j k :
  wf grid -> in_grid grid i j k -> is_zero dt = true ->
  strictly_contained (particle grid i j k) ->
  finite3 (velocity grid i j k) ->
  finite3 (forces grid i j k) ->
  let grid' := UpdateGrid dt grid pressure speed in
  position (particle grid' i j k) = position (particle grid i j k) /\
  same_value3 (velocity grid' i j k) (velocity grid i j k).
Proof.
  intros Hwf Hg Hdt Hin Hv Hf grid'.
  destruct (UpdateGrid_spec dt pressure speed grid Hwf) as (_ & _ & Hc).
  destruct (Hc i j k Hg) as (_ & _ & Hcell). fold grid' in Hcell.
  pose proof (f_equal fst Hcell) as Hp. pose proof (f_equal snd Hcell) as Hvel.
  cbn [fst snd] in Hp, Hvel. rewrite Hp, Hvel.
  unfold step_cell. destruct (forces grid i j k) as [[a1 a2] a3].
  set (v := force_vertex _ _ _ _ _).
  assert (Hpos : position v = position (particle grid i j k))
    by apply position_force_vertex.
  rewrite <- Hpos. apply integrate_at_dt0; try done.
  unfold strictly_contained in *. unfold position in Hpos.
  injection Hpos as -> -> ->. done.
Qed.

Lemma zero_dt_keeps_state_witness :
  wf one_particle /\ in_grid one_particle 0 0 0 /\ is_zero f0 = true /\
  strictly_contained (particle one_particle 0 0 0) /\
  finite3 (velocity one_particle 0 0 0) /\
  finite3 (forces one_particle 0 0 0) /\
  position (particle (UpdateGrid f0 one_particle false false) 0 0 0)
  = position (particle one_particle 0 0 0) /\
  same_value3 (velocity (UpdateGrid f0 one_particle false false) 0 0 0)
    (velocity one_particle 0 0 0).
Proof.
  assert (Hwf : wf one_particle) by wf_by_computation.
  assert (Hg : in_grid one_particle 0 0 0) by (unfold in_grid; simpl; lia).
  assert (Hdt : is_zero f0 = true) by reflexivity.
  assert (Hin : strictly_contained (particle one_particle 0 0 0))
    by (repeat split; vm_compute; reflexivity).
  assert (Hv : finite3 (velocity one_particle 0 0 0))
    by (repeat split; vm_compute; reflexivity).
  assert (Hf : finite3 (forces one_particle 0 0 0))
    by (repeat split; vm_compute; reflexivity).
  split; [exact Hwf|]. split; [exact Hg|]. split; [exact Hdt|].
  split; [exact Hin|]. split; [exact Hv|]. split; [exact Hf|].
  exact (zero_dt_keeps_state f0 false false one_particle 0 0 0 Hwf Hg Hdt Hin Hv Hf).
Defined.

(** C10 as stated fails.  [two_particles] is well formed, its two particles
    are strictly inside the domain and one unit apart, with the finite
    velocities [FLT_MAX] and [-FLT_MAX] along x.  The viscosity term of the
    force pass overflows, the acceleration along x is infinite, and the
    step of [dt = 0] leaves a NaN in the velocity and in the position of
    the first particle. *)
Lemma zero_dt_changes_state :
  wf two_particles /\
  Forall strictly_contained (Grille.vertices two_particles) /\
  finite3 (velocity two_particles 0 0 0) /\
  velocity (UpdateGrid f0 two_particles false false) 0 0 0
  = (S754_nan, f0, f0) /\
  velocity (UpdateGrid f0 two_particles false false) 0 0 0
  <> velocity two_particles 0 0 0 /\
  position (particle (UpdateGrid f0 two_particles false false) 0 0 0)
  <> position (particle two_particles 0 0 0).
Proof.
  split_and!.
  - wf_by_computation.
  - repeat constructor.
  - repeat split.
  - vm_compute. reflexivity.
  - vm_compute. discriminate.
  - vm_compute. discriminate.
Qed.

(** * Further properties of the code *)

(** ** Extensionality of grids *)

Lemma list_eq_total {A : Type} `{Inhabited A} (l1 l2 : list A) :
  length l1 = length l2 ->
  (forall i, (i < length l1)%nat -> l1 !!! i = l2 !!! i) -> l1 = l2.
Proof.
  intros Hlen Hi. apply (list_eq_same_length _ _ (length l1)); [done|done|].
  intros i x y Hlt Hx Hy. specialize (Hi i Hlt).
  rewrite (list_lookup_total_correct _ _ _ Hx), (list_lookup_total_correct _ _ _ Hy) in Hi.
  done.
Qed.

(** Two arrays of the same shape that agree on every cell are equal. *)
Lemma field_ext nx ny nz (a b : field) :
  shape3 nx ny nz a -> shape3 nx ny nz b ->
  (forall i j k, 0 <= i < nx -> 0 <= j < ny -> 0 <= k < nz ->
     get3 a i j k = get3 b i j k) ->
  a = b.
Proof.
  intros Ha Hb Hget.
  pose proof Ha as [Hla _]. pose proof Hb as [Hlb _].
  apply list_eq_total; [lia|]. intros i Hi.
  assert (Hi' : 0 <= Z.of_nat i < nx) by lia.
  pose proof (shape3_row _ _ _ _ _ Ha Hi') as [Hra _].
  pose proof (shape3_row _ _ _ _ _ Hb Hi') as [Hrb _].
  rewrite Nat2Z.id in Hra, Hrb.
  apply list_eq_total; [lia|]. intros j Hj.
  assert (Hj' : 0 <= Z.of_nat j < ny) by lia.
  pose proof (shape3_col _ _ _ _ _ _ Ha Hi' Hj') as Hca.
  pose proof (shape3_col _ _ _ _ _ _ Hb Hi' Hj') as Hcb.
  rewrite !Nat2Z.id in Hca, Hcb.
  apply list_eq_total; [lia|]. intros k Hk.
  specialize (Hget (Z.of_nat i) (Z.of_nat j) (Z.of_nat k) Hi' Hj' ltac:(lia)).
  unfold get3 in Hget. by rewrite !Nat2Z.id in Hget.
Qed.

(** Two well-formed grids of the same dimensions that agree on the
    [pressure] array and, for every particle, on the vertex, the velocity,
    the acceleration and the density, are equal. *)
Lemma grid_ext s s' :
  wf s -> wf s' -> same_dims s s' ->
  Grille.pressure s = Grille.pressure s' ->
  (forall i j k, in_grid s i j k ->
     particle s i j k = particle s' i j k /\
     velocity s i j k = velocity s' i j k /\
     acceleration s i j k = acceleration s' i j k /\
     get3 (Grille.div s) i j k = get3 (Grille.div s') i j k) ->
  s = s'.
Proof.
  intros Hw Hw' (Hx & Hy & Hz) Hp Hcell.
  assert (Hv : Grille.vertices s = Grille.vertices s').
  { apply list_eq_total.
    - rewrite (wf_vertices _ Hw), (wf_vertices _ Hw'). by rewrite Hx, Hy, Hz.
    - intros id Hid. rewrite (wf_vertices _ Hw) in Hid.
      destruct (idx3_surj (Grille.nx s) (Grille.ny s) (Grille.nz s) (Z.of_nat id))
        as (i & j & k & Hi & Hj & Hk & E);
        [apply Hw|apply Hw|lia|].
      destruct (Hcell i j k ltac:(done)) as (Hpart & _).
      unfold particle, Grille.vertex in Hpart.
      rewrite <- Hy, <- Hz, E, Nat2Z.id in Hpart. done. }
  assert (Hf : forall (f : Grille.t -> field),
    shape3 (Grille.nx s) (Grille.ny s) (Grille.nz s) (f s) ->
    shape3 (Grille.nx s) (Grille.ny s) (Grille.nz s) (f s') ->
    (forall i j k, in_grid s i j k -> get3 (f s) i j k = get3 (f s') i j k) ->
    f s = f s').
  { intros f H1 H2 H3. apply (field_ext _ _ _ _ _ H1 H2).
    intros i j k Hi Hj Hk. by apply H3. }
  assert (Hvx : Grille.vx s = Grille.vx s').
  { apply (Hf Grille.vx); [apply Hw|rewrite Hx, Hy, Hz; apply Hw'|].
    intros i j k Hg. destruct (Hcell i j k Hg) as (_ & Hvel & _).
    unfold velocity in Hvel. congruence. }
  assert (Hvy : Grille.vy s = Grille.vy s').
  { apply (Hf Grille.vy); [apply Hw|rewrite Hx, Hy, Hz; apply Hw'|].
    intros i j k Hg. destruct (Hcell i j k Hg) as (_ & Hvel & _).
    unfold velocity in Hvel. congruence. }
  assert (Hvz : Grille.vz s = Grille.vz s').
  { apply (Hf Grille.vz); [apply Hw|rewrite Hx, Hy, Hz; apply Hw'|].
    intros i j k Hg. destruct (Hcell i j k Hg) as (_ & Hvel & _).
    unfold velocity in Hvel. congruence. }
  assert (Hax : Grille.ax s = Grille.ax s').
  { apply (Hf Grille.ax); [apply Hw|rewrite Hx, Hy, Hz; apply Hw'|].
    intros i j k Hg. destruct (Hcell i j k Hg) as (_ & _ & Hacc & _).
    unfold acceleration in Hacc. congruence. }
  assert (Hay : Grille.ay s = Grille.ay s').
  { apply (Hf Grille.ay); [apply Hw|rewrite Hx, Hy, Hz; apply Hw'|].
    intros i j k Hg. destruct (Hcell i j k Hg) as (_ & _ & Hacc & _).
    unfold acceleration in Hacc. congruence. }
  assert (Haz : Grille.az s = Grille.az s').
  { apply (Hf Grille.az); [apply Hw|rewrite Hx, Hy, Hz; apply Hw'|].
    intros i j k Hg. destruct (Hcell i j k Hg) as (_ & _ & Hacc & _).
    unfold acceleration in Hacc. congruence. }
  assert (Hdiv : Grille.div s = Grille.div s').
  { apply (Hf Grille.div); [apply Hw|rewrite Hx, Hy, Hz; apply Hw'|].
    intros i j k Hg. by destruct (Hcell i j k Hg) as (_ & _ & _ & Hd). }
  destruct s, s'. simpl in *. congruence.
Qed.

(** ** What no pass touches *)

Lemma foldl_preserves {A S : Type} (P : S -> Prop) (f : S -> A -> S) (l : list A) (s : S) :
  (forall s x, P s -> P (f s x)) -> P s -> P (foldl f s l).
Proof.
  intros Hf. revert s. induction l as [|x l IH]; intros s Hs; [done|].
  simpl. apply IH. by apply Hf.
Qed.

Lemma reset_cell_kept s0 i j k s : kept s0 s -> kept s0 (reset_cell i j k s).
Proof. by destruct s. Qed.

Lemma density_cell_kept s0 i j k s : kept s0 s -> kept s0 (density_cell i j k s).
Proof. by destruct s. Qed.

Lemma force_cell_kept s0 rest p sp i j k s :
  kept s0 s -> kept s0 (force_cell rest p sp i j k s).
Proof.
  intros H. unfold force_cell. cbv zeta.
  destruct (force_at s rest i j k) as [[a1 a2] a3].
  destruct p; [destruct (pressure_color _ _) as [[r g] b]|destruct sp];
    by destruct s.
Qed.

Lemma integrate_cell_kept s0 dt sp i j k s :
  kept s0 s -> kept s0 (integrate_cell dt sp i j k s).
Proof.
  intros H. unfold integrate_cell. cbv zeta.
  destruct (integrate_at _ _ _ _ _ _ _ _ _) as [v [[v1 v2] v3]]. by destruct s.
Qed.

Lemma pass_kept (body : Z -> Z -> Z -> Grille.t -> Grille.t) s0 l s :
  (forall i j k s, kept s0 s -> kept s0 (body i j k s)) ->
  kept s0 s -> kept s0 (foldl (fun s c => on_cell body c s) s l).
Proof.
  intros Hb. apply foldl_preserves. intros s' [[i j] k]. apply Hb.
Qed.

Lemma UpdateGrid_kept dt grid p sp : kept grid (UpdateGrid dt grid p sp).
Proof.
  unfold UpdateGrid, reset_pass, density_pass, force_pass, integrate_pass.
  cbv zeta. rewrite !for3_cells.
  apply pass_kept; [intros; by apply integrate_cell_kept|].
  apply pass_kept; [intros; by apply force_cell_kept|].
  apply pass_kept; [intros; by apply density_cell_kept|].
  apply pass_kept; [intros; by apply reset_cell_kept|]. done.
Qed.

(** ** Order of the iterations *)

Lemma cellwise_any_order {S O C : Type} (body : C -> S -> S) (I : S -> Prop)
    (obs : C -> S -> O) (new : C -> O) (l l' : list C) (s0 : S) :
  cellwise body I obs new l s0 ->
  (forall s s', I s -> I s' -> (forall c, c ∈ l -> obs c s = obs c s') -> s = s') ->
  NoDup l -> l' ≡ₚ l ->
  foldl (fun s c => body c s) s0 l' = foldl (fun s c => body c s) s0 l.
Proof.
  intros (H0 & H1 & H2 & H3) Hext Hnd Hp.
  destruct (pass_spec body I obs new l s0 H0 H1 H2 H3 Hnd) as [HI Hobs].
  assert (Hin : forall c, c ∈ l' -> c ∈ l) by (intros c; by rewrite Hp).
  destruct (pass_spec body I obs new l' s0 H0) as [HI' Hobs'].
  - intros c s Hc. apply H1. by apply Hin.
  - intros c s Hc. apply H2. by apply Hin.
  - intros c c' s Hc Hc'. apply H3; by apply Hin.
  - by rewrite Hp.
  - apply Hext; [done|done|]. intros c Hc.
    rewrite Hobs by done. apply Hobs'. by rewrite Hp.
Qed.

Lemma in_grid_back s s0 i j k : same_dims s s0 -> in_grid s i j k -> in_grid s0 i j k.
Proof. intros (Hx & Hy & Hz). unfold in_grid. by rewrite Hx, Hy, Hz. Qed.

Lemma kept_pressure s0 s s' : kept s0 s -> kept s0 s' -> Grille.pressure s = Grille.pressure s'.
Proof. intros (_ & _ & _ & H) (_ & _ & _ & H'). congruence. Qed.

Lemma same_dims_both s0 s s' : same_dims s s0 -> same_dims s' s0 -> same_dims s s'.
Proof. intros (? & ? & ?) (? & ? & ?). unfold same_dims. split_and!; congruence. Qed.

Lemma kept_refl s : kept s s.
Proof. by unfold kept. Qed.

Lemma reset_cellwise s0 :
  wf s0 ->
  cellwise (on_cell reset_cell) (fun s => reset_inv s0 s /\ kept s0 s)
    (on_cell (fun i j k s => acceleration s i j k)) (fun _ => (f0, g, f0))
    (cells (Grille.nx s0) (Grille.ny s0) (Grille.nz s0)) s0.
Proof.
  intros Hwf. split; [|split; [|split]].
  - split; [by constructor|apply kept_refl].
  - intros [[i j] k] s Hc [[Hw Hd Hv Hvel Hdiv] Hk]. cbn [on_cell].
    split; [|by apply reset_cell_kept].
    simpl. constructor; try done.
    apply wf_set_a; [done|apply shape3_set3; apply Hw..].
  - intros [[i j] k] s Hc [[Hw (Hx & Hy & Hz) Hv Hvel Hdiv] _] _. simpl.
    apply in_grid_cells in Hc as (Hi & Hj & Hk).
    unfold acceleration, reset_cell. simpl. rewrite <- Hx, <- Hy, <- Hz in *.
    rewrite !(get3_set3_eq (Grille.nx s) (Grille.ny s) (Grille.nz s)); try done; apply Hw.
  - intros [[i j] k] [[i' j'] k'] s Hc Hc' Hne _. simpl.
    apply in_grid_cells in Hc as (Hi & Hj & Hk).
    apply in_grid_cells in Hc' as (Hi' & Hj' & Hk').
    unfold acceleration, reset_cell. simpl.
    rewrite !get3_set3_ne; try done; lia.
Qed.

Lemma density_cellwise s0 :
  wf s0 ->
  cellwise (on_cell density_cell) (density_inv s0)
    (on_cell (fun i j k s => get3 (Grille.div s) i j k)) (on_cell (density_at s0))
    (cells (Grille.nx s0) (Grille.ny s0) (Grille.nz s0)) s0.
Proof.
  intros Hwf. split; [|split; [|split]].
  - by constructor.
  - intros [[i j] k] s Hc [Hw Hd Hv Hvel Ha Hp]. simpl.
    constructor; try done.
    apply wf_set_div; [done|apply shape3_set3; apply Hw].
  - intros [[i j] k] s Hc [Hw Hd Hv Hvel Ha Hp] _. simpl.
    apply in_grid_cells in Hc as (Hi & Hj & Hk).
    unfold density_cell. simpl. rewrite (density_at_frozen s s0) by done.
    destruct Hd as (Hx & Hy & Hz). rewrite <- Hx, <- Hy, <- Hz in *.
    rewrite (get3_set3_eq (Grille.nx s) (Grille.ny s) (Grille.nz s));
      try done; apply Hw.
  - intros [[i j] k] [[i' j'] k'] s Hc Hc' Hne _. simpl.
    apply in_grid_cells in Hc as (Hi & Hj & Hk).
    apply in_grid_cells in Hc' as (Hi' & Hj' & Hk').
    unfold density_cell. simpl. rewrite get3_set3_ne; try done; lia.
Qed.

Lemma force_cellwise rest p sp s0 :
  wf s0 ->
  cellwise (on_cell (force_cell rest p sp)) (fun s => force_inv s0 s /\ kept s0 s)
    (on_cell (fun i j k s => (acceleration s i j k, particle s i j k)))
    (on_cell (fun i j k =>
       (force_at s0 rest i j k,
        force_vertex p sp (pressure_of (get3 (Grille.div s0) i j k) rest)
          rest (particle s0 i j k))))
    (cells (Grille.nx s0) (Grille.ny s0) (Grille.nz s0)) s0.
Proof.
  intros Hwf. split; [|split; [|split]].
  - split; [by constructor|apply kept_refl].
  - intros [[i j] k] s Hc [[Hw Hd Hdiv Hvel Hpos] Hk]. cbn [on_cell].
    split; [|by apply force_cell_kept].
    rewrite force_cell_vertex. cbv zeta.
    destruct (force_at s rest i j k) as [[a1 a2] a3].
    constructor; try done.
    + apply wf_set_vertex, wf_set_a; [done|apply shape3_set3; apply Hw..].
    + intros id. rewrite <- Hpos.
      unfold Grille.vertex, Grille.set_vertex. simpl.
      rewrite list_lookup_total_insert. case_decide as E; [|done].
      destruct E as [-> _]. apply position_force_vertex.
  - intros [[i j] k] s Hc [[Hw Hd Hdiv Hvel Hpos] _] Hown. cbn [on_cell] in *.
    apply pair_equal_spec in Hown as [Hacc Hpart].
    apply in_grid_cells in Hc as Hg.
    rewrite force_cell_vertex. cbv zeta.
    rewrite (force_at_frozen s s0 rest i j k Hd Hdiv Hvel Hpos Hacc).
    destruct (force_at s0 rest i j k) as [[a1 a2] a3].
    pose proof (in_grid_dims _ _ _ _ _ Hd Hg) as Hg'.
    f_equal.
    + destruct Hg' as (Hi & Hj & Hk). unfold acceleration. simpl.
      rewrite !(get3_set3_eq (Grille.nx s) (Grille.ny s) (Grille.nz s));
        try done; apply Hw.
    + pose proof (vertex_set_vertex_eq
        (Grille.set_a s (set3 (Grille.ax s) i j k a1) (set3 (Grille.ay s) i j k a2)
           (set3 (Grille.az s) i j k a3)) i j k) as E.
      simpl in E. rewrite E; [|apply wf_set_a; [done|apply shape3_set3; apply Hw..]|done].
      fold (particle s i j k). by rewrite Hpart, Hdiv.
  - intros [[i j] k] [[i' j'] k'] s Hc Hc' Hne [[Hw Hd Hdiv Hvel Hpos] _]. simpl.
    rewrite force_cell_vertex. cbv zeta.
    destruct (force_at s rest i j k) as [[a1 a2] a3].
    apply in_grid_cells in Hc, Hc'.
    pose proof (in_grid_dims _ _ _ _ _ Hd Hc) as Hg.
    pose proof (in_grid_dims _ _ _ _ _ Hd Hc') as Hg'.
    f_equal.
    + destruct Hg as (Hi & Hj & Hk), Hg' as (Hi' & Hj' & Hk').
      unfold acceleration. simpl. rewrite !get3_set3_ne; try done; lia.
    + pose proof (vertex_set_vertex_ne
        (Grille.set_a s (set3 (Grille.ax s) i j k a1) (set3 (Grille.ay s) i j k a2)
           (set3 (Grille.az s) i j k a3)) i j k i' j' k') as E.
      simpl in E. by rewrite E.
Qed.

Lemma integrate_cellwise dt sp s0 :
  wf s0 ->
  cellwise (on_cell (integrate_cell dt sp)) (fun s => integrate_inv s0 s /\ kept s0 s)
    (on_cell (fun i j k s => (particle s i j k, velocity s i j k)))
    (on_cell (integrate_grid dt sp s0))
    (cells (Grille.nx s0) (Grille.ny s0) (Grille.nz s0)) s0.
Proof.
  intros Hwf. split; [|split; [|split]].
  - split; [by constructor|apply kept_refl].
  - intros [[i j] k] s Hc [[Hw Hd Ha Hdiv] Hk]. cbn [on_cell].
    split; [|by apply integrate_cell_kept].
    unfold integrate_cell. cbv zeta.
    destruct (integrate_at _ _ _ _ _ _ _ _ _) as [v [[v1 v2] v3]].
    constructor; try done.
    apply wf_set_vertex, wf_set_v; [done|apply shape3_set3; apply Hw..].
  - intros [[i j] k] s Hc [[Hw Hd Ha Hdiv] _] Hown. cbn [on_cell] in *.
    apply pair_equal_spec in Hown as [Hpart Hvel].
    injection Hvel as Hvx Hvy Hvz. injection Ha as Hax Hay Haz.
    apply in_grid_cells in Hc.
    pose proof (in_grid_dims _ _ _ _ _ Hd Hc) as Hg.
    unfold integrate_cell, integrate_grid. cbv zeta.
    fold (particle s i j k). rewrite Hpart, Hvx, Hvy, Hvz, Hax, Hay, Haz.
    destruct (integrate_at _ _ _ _ _ _ _ _ _) as [v [[v1 v2] v3]].
    f_equal.
    + pose proof (vertex_set_vertex_eq
        (Grille.set_v s (set3 (Grille.vx s) i j k v1) (set3 (Grille.vy s) i j k v2)
           (set3 (Grille.vz s) i j k v3)) i j k) as E.
      simpl in E. rewrite E; [done| |done].
      apply wf_set_v; [done|apply shape3_set3; apply Hw..].
    + destruct Hg as (Hi & Hj & Hk). unfold velocity. simpl.
      rewrite !(get3_set3_eq (Grille.nx s) (Grille.ny s) (Grille.nz s));
        try done; apply Hw.
  - intros [[i j] k] [[i' j'] k'] s Hc Hc' Hne [[Hw Hd Ha Hdiv] _]. cbn [on_cell].
    unfold integrate_cell. cbv zeta.
    destruct (integrate_at _ _ _ _ _ _ _ _ _) as [v [[v1 v2] v3]].
    apply in_grid_cells in Hc, Hc'.
    pose proof (in_grid_dims _ _ _ _ _ Hd Hc) as Hg.
    pose proof (in_grid_dims _ _ _ _ _ Hd Hc') as Hg'.
    f_equal.
    + pose proof (vertex_set_vertex_ne
        (Grille.set_v s (set3 (Grille.vx s) i j k v1) (set3 (Grille.vy s) i j k v2)
           (set3 (Grille.vz s) i j k v3)) i j k i' j' k') as E.
      simpl in E. by rewrite E.
    + destruct Hg as (Hi & Hj & Hk), Hg' as (Hi' & Hj' & Hk').
      unfold velocity. simpl. rewrite !get3_set3_ne; try done; lia.
Qed.

(** Each loop of [UpdateGrid] gives the same grid whatever the order of
    its iterations. *)
Lemma reset_any_order s0 l :
  wf s0 -> l ≡ₚ cells (Grille.nx s0) (Grille.ny s0) (Grille.nz s0) ->
  pass_in_order l reset_cell s0 = reset_pass s0.
Proof.
  intros Hwf Hp. unfold pass_in_order, reset_pass. rewrite for3_cells.
  eapply cellwise_any_order; [by apply reset_cellwise| |apply NoDup_cells|done].
  intros s s' [[Hw Hd Hv Hvel Hdiv] Hk] [[Hw' Hd' Hv' Hvel' Hdiv'] Hk'] Hobs.
  apply grid_ext; [done|done|by apply (same_dims_both s0)|by apply (kept_pressure s0)|].
  intros i j k Hg.
  pose proof (in_grid_back _ _ _ _ _ Hd Hg) as Hg0.
  apply in_grid_cells in Hg0. specialize (Hobs _ Hg0). cbn [on_cell] in Hobs.
  injection Hvel as ? ? ?. injection Hvel' as ? ? ?.
  split_and!; [|unfold velocity; congruence|done|congruence].
  rewrite (particle_frozen s s0), (particle_frozen s' s0); done.
Qed.

Lemma density_any_order s0 l :
  wf s0 -> l ≡ₚ cells (Grille.nx s0) (Grille.ny s0) (Grille.nz s0) ->
  pass_in_order l density_cell s0 = density_pass s0.
Proof.
  intros Hwf Hp. unfold pass_in_order, density_pass. rewrite for3_cells.
  eapply cellwise_any_order; [by apply density_cellwise| |apply NoDup_cells|done].
  intros s s' [Hw Hd Hv Hvel Ha Hpr] [Hw' Hd' Hv' Hvel' Ha' Hpr'] Hobs.
  apply grid_ext; [done|done|by apply (same_dims_both s0)|congruence|].
  intros i j k Hg.
  pose proof (in_grid_back _ _ _ _ _ Hd Hg) as Hg0.
  apply in_grid_cells in Hg0. specialize (Hobs _ Hg0). cbn [on_cell] in Hobs.
  injection Hvel as ? ? ?. injection Hvel' as ? ? ?.
  injection Ha as ? ? ?. injection Ha' as ? ? ?.
  split_and!; [|unfold velocity; congruence|unfold acceleration; congruence|done].
  rewrite (particle_frozen s s0), (particle_frozen s' s0); done.
Qed.

Lemma force_any_order rest p sp s0 l :
  wf s0 -> l ≡ₚ cells (Grille.nx s0) (Grille.ny s0) (Grille.nz s0) ->
  pass_in_order l (force_cell rest p sp) s0 = force_pass rest p sp s0.
Proof.
  intros Hwf Hp. unfold pass_in_order, force_pass. rewrite for3_cells.
  eapply cellwise_any_order; [by apply force_cellwise| |apply NoDup_cells|done].
  intros s s' [[Hw Hd Hdiv Hvel Hpos] Hk] [[Hw' Hd' Hdiv' Hvel' Hpos'] Hk'] Hobs.
  apply grid_ext; [done|done|by apply (same_dims_both s0)|by apply (kept_pressure s0)|].
  intros i j k Hg.
  pose proof (in_grid_back _ _ _ _ _ Hd Hg) as Hg0.
  apply in_grid_cells in Hg0. specialize (Hobs _ Hg0). cbn [on_cell] in Hobs.
  apply pair_equal_spec in Hobs as [Hacc Hpart].
  injection Hvel as ? ? ?. injection Hvel' as ? ? ?.
  split_and!; [done|unfold velocity; congruence|done|congruence].
Qed.

Lemma integrate_any_order dt sp s0 l :
  wf s0 -> l ≡ₚ cells (Grille.nx s0) (Grille.ny s0) (Grille.nz s0) ->
  pass_in_order l (integrate_cell dt sp) s0 = integrate_pass dt sp s0.
Proof.
  intros Hwf Hp. unfold pass_in_order, integrate_pass. rewrite for3_cells.
  eapply cellwise_any_order; [by apply integrate_cellwise| |apply NoDup_cells|done].
  intros s s' [[Hw Hd Ha Hdiv] Hk] [[Hw' Hd' Ha' Hdiv'] Hk'] Hobs.
  apply grid_ext; [done|done|by apply (same_dims_both s0)|by apply (kept_pressure s0)|].
  intros i j k Hg.
  pose proof (in_grid_back _ _ _ _ _ Hd Hg) as Hg0.
  apply in_grid_cells in Hg0. specialize (Hobs _ Hg0). cbn [on_cell] in Hobs.
  apply pair_equal_spec in Hobs as [Hpart Hvel].
  injection Ha as ? ? ?. injection Ha' as ? ? ?.
  split_and!; [done|done|unfold acceleration; congruence|congruence].
Qed.

(** X1.  The four loops of [UpdateGrid] carry [#pragma omp parallel for]:
    their iterations may run in any order.  On a well-formed grid, whatever
    the order in which each loop visits the lattice (four permutations of
    the cells, one per loop), the grid after the step is the one the loops
    give in index order: every iteration writes the slots of its own
    particle only and reads nothing that another iteration of the same
    loop writes. *)
Theorem UpdateGrid_any_order l0 l1 l2 l3 dt grid pressure speed :
  wf grid ->
  let all := cells (Grille.nx grid) (Grille.ny grid) (Grille.nz grid) in
  l0 ≡ₚ all -> l1 ≡ₚ all -> l2 ≡ₚ all -> l3 ≡ₚ all ->
  UpdateGrid_in_order l0 l1 l2 l3 dt grid pressure speed
  = UpdateGrid dt grid pressure speed.
Proof.
  intros Hwf all H0 H1 H2 H3. unfold UpdateGrid_in_order, UpdateGrid. cbv zeta.
  destruct (reset_pass_spec grid Hwf) as [[Hw1 (Hx1 & Hy1 & Hz1) _ _ _] _].
  rewrite (reset_any_order grid l0 Hwf H0).
  destruct (density_pass_spec _ Hw1) as [[Hw2 (Hx2 & Hy2 & Hz2) _ _ _ _] _].
  rewrite (density_any_order (reset_pass grid) l1 Hw1)
    by (by rewrite Hx1, Hy1, Hz1).
  set (rest := restDensity _).
  destruct (force_pass_spec rest pressure speed _ Hw2) as [[Hw3 (Hx3 & Hy3 & Hz3) _ _ _] _].
  rewrite (force_any_order rest pressure speed _ l2 Hw2)
    by (by rewrite Hx2, Hy2, Hz2, Hx1, Hy1, Hz1).
  rewrite (integrate_any_order dt speed _ l3 Hw3)
    by (by rewrite Hx3, Hy3, Hz3, Hx2, Hy2, Hz2, Hx1, Hy1, Hz1).
  done.
Qed.

Lemma UpdateGrid_any_order_witness :
  let all := cells 2 1 1 in
  wf two_particles /\ reverse all ≡ₚ all /\
  UpdateGrid_in_order (reverse all) all (reverse all) all f1 two_particles true false
  = UpdateGrid f1 two_particles true false.
Proof.
  intros all.
  assert (Hwf : wf two_particles) by wf_by_computation.
  assert (Hr : reverse all ≡ₚ all) by apply reverse_Permutation.
  split; [exact Hwf|]. split; [exact Hr|].
  exact (UpdateGrid_any_order (reverse all) all (reverse all) all f1 two_particles
           true false Hwf Hr (reflexivity all) Hr (reflexivity all)).
Defined.

(** ** The linear index, as a user of the lattice sees it *)

Lemma int_of_congr a b q : a = b + 2 ^ 32 * q -> int_of a = int_of b.
Proof.
  intros ->. unfold int_of. f_equal.
  replace (b + 2 ^ 32 * q + 2 ^ 31) with (b + 2 ^ 31 + q * 2 ^ 32) by lia.
  apply Z_mod_plus_full.
Qed.

Lemma int_of_eq z : exists q, int_of z = z + 2 ^ 32 * q.
Proof.
  exists (- ((z + 2 ^ 31) / 2 ^ 32)). unfold int_of.
  pose proof (Z.div_mod (z + 2 ^ 31) (2 ^ 32) ltac:(lia)). lia.
Qed.

Lemma int_of_small z : - 2 ^ 31 <= z <= INT_MAX -> int_of z = z.
Proof.
  unfold INT_MAX, int_of. intros Hz.
  rewrite Z.mod_small; lia.
Qed.

Lemma int_of_add_l a b : int_of (int_of a + b) = int_of (a + b).
Proof. destruct (int_of_eq a) as [q ->]. apply (int_of_congr _ _ q). lia. Qed.

Lemma int_of_add_r a b : int_of (a + int_of b) = int_of (a + b).
Proof. destruct (int_of_eq b) as [q ->]. apply (int_of_congr _ _ q). lia. Qed.

(** Whatever the arguments, the 32-bit computation gives the exact value
    reduced to 32 bits. *)
Lemma idx3_int_wrap i j k ny nz : idx3_int i j k ny nz = int_of (idx3 i j k ny nz).
Proof.
  unfold idx3_int, idx3. rewrite int_of_add_l, <- Z.add_assoc, int_of_add_l.
  rewrite (Z.add_comm (int_of (j * nz))), Z.add_assoc, int_of_add_r.
  destruct (int_of_eq (ny * nz)) as [q ->]. apply (int_of_congr _ _ (i * q)). lia.
Qed.

(** Beyond the range of [int] the index is lost: a lattice of
    46341 x 46341 x 1 has more than [INT_MAX] cells. *)
Lemma idx3_int_overflow :
  idx3_int 46341 0 0 46341 1 = -2147479015 /\ idx3 46341 0 0 46341 1 = 2147488281.
Proof. by vm_compute. Qed.

(** X2.  For positive [ny] and [nz] and a lattice of at most [INT_MAX]
    cells, [idx3] maps the lattice [0..nx-1] x [0..ny-1] x [0..nz-1] one
    to one onto the indices [0 .. nx*ny*nz - 1] of [vertices]: no
    operation of its body leaves the range of [int], so that the 32-bit
    result is the exact one; no two cells share a slot and no slot is
    left without a cell.  It checks nothing: whatever the arguments, the
    out-of-range coordinate [k = nz] gives the slot of [(i, j+1, 0)]. *)
Theorem idx3_bijection nx ny nz :
  0 < ny -> 0 < nz -> nx * ny * nz <= INT_MAX ->
  (forall i j k, 0 <= i < nx -> 0 <= j < ny -> 0 <= k < nz ->
     (0 <= ny * nz <= INT_MAX /\ 0 <= i * (ny * nz) <= INT_MAX /\
      0 <= j * nz <= INT_MAX /\ 0 <= i * (ny * nz) + j * nz <= INT_MAX) /\
     idx3_int i j k ny nz = idx3 i j k ny nz /\
     0 <= idx3_int i j k ny nz < nx * ny * nz) /\
  (forall i j k i' j' k',
     0 <= i < nx -> 0 <= j < ny -> 0 <= k < nz ->
     0 <= i' < nx -> 0 <= j' < ny -> 0 <= k' < nz ->
     idx3_int i j k ny nz = idx3_int i' j' k' ny nz -> (i, j, k) = (i', j', k')) /\
  (forall id, 0 <= id < nx * ny * nz ->
     exists i j k, 0 <= i < nx /\ 0 <= j < ny /\ 0 <= k < nz /\
       idx3_int i j k ny nz = id) /\
  (forall i j, idx3_int i j nz ny nz = idx3_int i (j + 1) 0 ny nz).
Proof.
  intros Hy Hz HN.
  assert (Hsame : forall i j k, 0 <= i < nx -> 0 <= j < ny -> 0 <= k < nz ->
            idx3_int i j k ny nz = idx3 i j k ny nz).
  { intros i j k Hi Hj Hk. rewrite idx3_int_wrap. apply int_of_small.
    pose proof (idx3_bounds nx ny nz i j k Hi Hj Hk). unfold INT_MAX in *. lia. }
  split_and!.
  - intros i j k Hi Hj Hk.
    pose proof (idx3_bounds nx ny nz i j k Hi Hj Hk) as Hb.
    rewrite (Hsame i j k Hi Hj Hk). split; [|done].
    unfold idx3 in Hb.
    assert (0 < ny * nz) by nia.
    assert (0 <= i * (ny * nz)) by nia.
    assert (0 <= j * nz) by nia.
    assert (ny * nz <= nx * (ny * nz)) by nia.
    lia.
  - intros i j k i' j' k' Hi Hj Hk Hi' Hj' Hk'.
    rewrite !Hsame by done. by apply idx3_inj.
  - intros id Hid. destruct (idx3_surj nx ny nz id Hy Hz Hid)
      as (i & j & k & Hi & Hj & Hk & E).
    exists i, j, k. by rewrite Hsame.
  - intros i j. rewrite !idx3_int_wrap. f_equal. unfold idx3. lia.
Qed.

Lemma idx3_bijection_witness :
  0 < 50 /\ 0 < 10 /\ 10 * 50 * 10 <= INT_MAX /\
  (forall i j k, 0 <= i < 10 -> 0 <= j < 50 -> 0 <= k < 10 ->
     (0 <= 50 * 10 <= INT_MAX /\ 0 <= i * (50 * 10) <= INT_MAX /\
      0 <= j * 10 <= INT_MAX /\ 0 <= i * (50 * 10) + j * 10 <= INT_MAX) /\
     idx3_int i j k 50 10 = idx3 i j k 50 10 /\
     0 <= idx3_int i j k 50 10 < 10 * 50 * 10) /\
  (forall i j k i' j' k',
     0 <= i < 10 -> 0 <= j < 50 -> 0 <= k < 10 ->
     0 <= i' < 10 -> 0 <= j' < 50 -> 0 <= k' < 10 ->
     idx3_int i j k 50 10 = idx3_int i' j' k' 50 10 -> (i, j, k) = (i', j', k')) /\
  (forall id, 0 <= id < 10 * 50 * 10 ->
     exists i j k, 0 <= i < 10 /\ 0 <= j < 50 /\ 0 <= k < 10 /\
       idx3_int i j k 50 10 = id) /\
  (forall i j, idx3_int i j 10 50 10 = idx3_int i (j + 1) 0 50 10).
Proof.
  assert (HN : 10 * 50 * 10 <= INT_MAX) by (unfold INT_MAX; lia).
  split; [lia|]. split; [lia|]. split; [exact HN|].
  apply (idx3_bijection 10 50 10); [lia|lia|exact HN].
Defined.

(** ** What a run of steps keeps *)

Lemma run_kept calls grid : kept grid (run calls grid).
Proof.
  unfold run. apply foldl_preserves; [|apply kept_refl].
  intros s [[dt p] sp] (Hx & Hy & Hz & Hp).
  destruct (UpdateGrid_kept dt s p sp) as (Hx' & Hy' & Hz' & Hp').
  unfold kept. split_and!; congruence.
Qed.


(** X4.  No step resizes anything: after any run of steps on a
    well-formed grid there are as many vertices as before, and every
    array that [UpdateGrid] indexes still has the shape [nx] x [ny] x
    [nz], so that no access of the next step is out of range. *)
Theorem run_keeps_shape calls grid :
  wf grid ->
  wf (run calls grid) /\
  length (Grille.vertices (run calls grid)) = length (Grille.vertices grid) /\
  forall i j k, in_grid grid i j k ->
    in_grid (run calls grid) i j k /\
    (Z.to_nat (idx3 i j k (Grille.ny (run calls grid)) (Grille.nz (run calls grid)))
     < length (Grille.vertices (run calls grid)))%nat.
Proof.
  intros Hwf. destruct (run_wf calls grid Hwf) as [Hw Hd].
  split; [done|]. split.
  - rewrite (wf_vertices _ Hw), (wf_vertices _ Hwf).
    destruct Hd as (-> & -> & ->). done.
  - intros i j k Hg. pose proof (in_grid_dims _ _ _ _ _ Hd Hg) as Hg'.
    split; [done|]. rewrite (wf_vertices _ Hw).
    destruct Hg' as (Hi & Hj & Hk).
    pose proof (idx3_bounds _ _ _ _ _ _ Hi Hj Hk). lia.
Qed.

Lemma run_keeps_shape_witness :
  wf two_particles /\
  wf (run [(f1, true, false); (f0, false, true)] two_particles) /\
  length (Grille.vertices (run [(f1, true, false); (f0, false, true)] two_particles))
  = length (Grille.vertices two_particles).
Proof.
  assert (Hwf : wf two_particles) by wf_by_computation.
  split; [exact Hwf|].
  destruct (run_keeps_shape [(f1, true, false); (f0, false, true)] two_particles Hwf)
    as (H1 & H2 & _).
  split; [exact H1|exact H2].
Defined.

(** ** Densities *)

(** X5.  Whatever the positions, even infinite or NaN, the density a step
    stores for a particle is a number between 0 and [2^40]: never NaN,
    never an infinity, never negative. *)
Theorem stored_density_bounded dt pressure speed grid i j k :
  wf grid -> in_grid grid i j k ->
  let rho := get3 (Grille.div (UpdateGrid dt grid pressure speed)) i j k in
  capped 40 rho /\ is_finite rho = true.
Proof.
  intros Hwf Hg rho.
  destruct (UpdateGrid_spec dt pressure speed grid Hwf) as (_ & _ & Hcell).
  destruct (Hcell i j k Hg) as (Hrho & _). unfold rho. rewrite Hrho.
  rewrite density_at_spec by done.
  pose proof (density_spec_capped (Grille.nx grid) (Grille.ny grid) (Grille.nz grid)
    (position <$> Grille.vertices grid) i j k) as Hc.
  split; [done|]. apply (small_finite 41), (capped_small 40). exact Hc.
Qed.

Lemma stored_density_bounded_witness :
  let rho := get3 (Grille.div (UpdateGrid f1 two_particles true false)) 0 0 0 in
  wf two_particles /\ in_grid two_particles 0 0 0 /\
  capped 40 rho /\ is_finite rho = true.
Proof.
  intros rho.
  assert (Hwf : wf two_particles) by wf_by_computation.
  assert (Hg : in_grid two_particles 0 0 0) by (unfold in_grid; simpl; lia).
  split; [exact Hwf|]. split; [exact Hg|].
  exact (stored_density_bounded f1 true false two_particles 0 0 0 Hwf Hg).
Defined.

(** ** Colours without a mode *)

(** X6.  With neither colour mode set, a step paints every particle plain
    blue, [(0, 0, 1)], whatever its colour was. *)
Theorem plain_color_is_blue dt grid i j k :
  wf grid -> in_grid grid i j k ->
  color (particle (UpdateGrid dt grid false false) i j k) = (f0, f0, f1).
Proof.
  intros Hwf Hg.
  destruct (step_cell_particle dt false false grid i j k Hwf Hg) as [-> _].
  unfold step_cell. destruct (forces grid i j k) as [[a1 a2] a3].
  by rewrite color_integrate_plain.
Qed.

Lemma plain_color_is_blue_witness :
  wf two_particles /\ in_grid two_particles 1 0 0 /\
  color (particle (UpdateGrid f1 two_particles false false) 1 0 0) = (f0, f0, f1).
Proof.
  assert (Hwf : wf two_particles) by wf_by_computation.
  assert (Hg : in_grid two_particles 1 0 0) by (unfold in_grid; simpl; lia).
  split; [exact Hwf|]. split; [exact Hg|].
  exact (plain_color_is_blue f1 two_particles 1 0 0 Hwf Hg).
Defined.

(** ** Grids without particles *)

Lemma cells_empty nx ny nz : nx <= 0 \/ ny <= 0 \/ nz <= 0 -> cells nx ny nz = [].
Proof.
  intros H. destruct (cells nx ny nz) as [|[[i j] k] l] eqn:E; [done|].
  assert (Hc : (i, j, k) ∈ cells nx ny nz) by (rewrite E; left).
  apply elem_of_cells in Hc. lia.
Qed.

Lemma for3_empty {S : Type} nx ny nz (body : Z -> Z -> Z -> S -> S) (s : S) :
  nx <= 0 \/ ny <= 0 \/ nz <= 0 -> for3 nx ny nz body s = s.
Proof. intros H. by rewrite for3_cells, cells_empty. Qed.

(** X7.  A grid with a dimension equal to zero has no particle: a step
    leaves it exactly as it is (the rest density, [24000 / 0], is computed
    and never used), and [ComputeAverageVelocity] divides [0.0] by zero:
    it returns NaN on the three axes. *)
Theorem empty_grid grid dt pressure speed :
  Grille.nx grid = 0 \/ Grille.ny grid = 0 \/ Grille.nz grid = 0 ->
  UpdateGrid dt grid pressure speed = grid /\
  ComputeAverageVelocity grid = Vertex.mk S754_nan S754_nan S754_nan f0 f0 f0.
Proof.
  intros H.
  assert (H' : Grille.nx grid <= 0 \/ Grille.ny grid <= 0 \/ Grille.nz grid <= 0) by lia.
  split.
  - unfold UpdateGrid, integrate_pass, force_pass, density_pass, reset_pass. cbv zeta.
    rewrite (for3_empty _ _ _ reset_cell) by done.
    rewrite (for3_empty _ _ _ density_cell) by done.
    rewrite (for3_empty _ _ _ (force_cell _ _ _)) by done.
    by rewrite for3_empty.
  - unfold ComputeAverageVelocity. cbv zeta. rewrite for3_empty by done.
    replace (Grille.nx grid * Grille.ny grid * Grille.nz grid) with 0 by nia.
    reflexivity.
Qed.

Lemma empty_grid_witness :
  Grille.nx (CreateGrid 0 50 10 f1) = 0 /\
  UpdateGrid f1 (CreateGrid 0 50 10 f1) true true = CreateGrid 0 50 10 f1 /\
  ComputeAverageVelocity (CreateGrid 0 50 10 f1)
  = Vertex.mk S754_nan S754_nan S754_nan f0 f0 f0.
Proof.
  assert (H : Grille.nx (CreateGrid 0 50 10 f1) = 0) by reflexivity.
  split; [exact H|].
  exact (empty_grid (CreateGrid 0 50 10 f1) f1 true true (or_introl H)).
Defined.

(** ** Diagnostics on a grid that holds a NaN *)

Lemma F64_add_nan_l a : F64.add S754_nan a = S754_nan.
Proof. done. Qed.

Lemma F64_add_nan_r a : F64.add a S754_nan = S754_nan.
Proof. by destruct a. Qed.

(** The three sums of [ComputeAverageVelocity], one at a time. *)
Lemma average_sums (fx fy fz : Z * Z * Z -> float) (l : list (Z * Z * Z))
    (a : float * float * float) :
  foldl (fun '(tx, ty, tz) c =>
           (F64.add tx (F64.of_f32 (fx c)), F64.add ty (F64.of_f32 (fy c)),
            F64.add tz (F64.of_f32 (fz c)))) a l
  = (foldl (fun t c => F64.add t (F64.of_f32 (fx c))) a.1.1 l,
     foldl (fun t c => F64.add t (F64.of_f32 (fy c))) a.1.2 l,
     foldl (fun t c => F64.add t (F64.of_f32 (fz c))) a.2 l).
Proof.
  revert a. induction l as [|c l IH]; intros [[tx ty] tz]; [done|].
  simpl. by rewrite IH.
Qed.

Lemma sum_nan_sticky (f : Z * Z * Z -> float) (l : list (Z * Z * Z)) :
  foldl (fun t c => F64.add t (F64.of_f32 (f c))) S754_nan l = S754_nan.
Proof. induction l as [|c l IH]; [done|]. cbn [foldl]. by rewrite F64_add_nan_l. Qed.

Lemma sum_nan (f : Z * Z * Z -> float) (l : list (Z * Z * Z)) (t : float) c :
  c ∈ l -> f c = S754_nan ->
  foldl (fun t c => F64.add t (F64.of_f32 (f c))) t l = S754_nan.
Proof.
  intros Hc Hf. revert t. induction l as [|c' l IH]; intros t.
  - by apply elem_of_nil in Hc.
  - cbn [foldl]. apply elem_of_cons in Hc as [<-|Hc].
    + rewrite Hf. cbn [F64.of_f32]. rewrite F64_add_nan_r. apply sum_nan_sticky.
    + by apply IH.
Qed.

Lemma ComputeAverageVelocity_sums grid :
  let count := F64.of_int (Grille.nx grid * Grille.ny grid * Grille.nz grid) in
  let all := cells (Grille.nx grid) (Grille.ny grid) (Grille.nz grid) in
  let total (a : field) :=
    foldl (fun t c => F64.add t (F64.of_f32 (on_cell (get3 a) c))) f0 all in
  ComputeAverageVelocity grid
  = Vertex.mk (F64.to_f32 (F64.div (total (Grille.vx grid)) count))
      (F64.to_f32 (F64.div (total (Grille.vy grid)) count))
      (F64.to_f32 (F64.div (total (Grille.vz grid)) count)) f0 f0 f0.
Proof.
  cbv zeta. unfold ComputeAverageVelocity. cbv zeta. rewrite for3_cells.
  rewrite (foldl_ext_in _
    (fun '(tx, ty, tz) c =>
       (F64.add tx (F64.of_f32 (on_cell (get3 (Grille.vx grid)) c)),
        F64.add ty (F64.of_f32 (on_cell (get3 (Grille.vy grid)) c)),
        F64.add tz (F64.of_f32 (on_cell (get3 (Grille.vz grid)) c))))).
  2:{ intros [[i j] k] [[tx ty] tz] _. done. }
  by rewrite average_sums.
Qed.

(** X8.  One NaN is enough: if the velocity of some particle has a NaN
    component, the average velocity reported for the whole grid is NaN on
    that axis. *)
Theorem average_of_nan grid i j k :
  in_grid grid i j k ->
  (get3 (Grille.vx grid) i j k = S754_nan ->
   Vertex.x (ComputeAverageVelocity grid) = S754_nan) /\
  (get3 (Grille.vy grid) i j k = S754_nan ->
   Vertex.y (ComputeAverageVelocity grid) = S754_nan) /\
  (get3 (Grille.vz grid) i j k = S754_nan ->
   Vertex.z (ComputeAverageVelocity grid) = S754_nan).
Proof.
  intros Hg. apply in_grid_cells in Hg.
  rewrite ComputeAverageVelocity_sums. cbn [Vertex.x Vertex.y Vertex.z].
  split_and!; intros Hnan;
    rewrite (sum_nan _ _ _ (i, j, k) Hg) by done; reflexivity.
Qed.

Lemma average_of_nan_witness :
  let grid :=
    Grille.set_v two_particles [[[f1]]; [[S754_nan]]] (zero_field 2 1 1)
      (zero_field 2 1 1) in
  in_grid grid 1 0 0 /\ get3 (Grille.vx grid) 1 0 0 = S754_nan /\
  Vertex.x (ComputeAverageVelocity grid) = S754_nan.
Proof.
  intros grid.
  assert (Hg : in_grid grid 1 0 0) by (unfold in_grid; simpl; lia).
  assert (Hn : get3 (Grille.vx grid) 1 0 0 = S754_nan) by reflexivity.
  split; [exact Hg|]. split; [exact Hn|].
  exact (proj1 (average_of_nan grid 1 0 0 Hg) Hn).
Defined.

(** ** Colours are colours *)

Lemma color_constants :
  f1 = S754_finite false 8388608 (-23) /\
  F32.lit 2 10 = S754_finite false 13421773 (-26) /\
  F32.of_int 15 = S754_finite false 15728640 (-20) /\
  F32.of_int 2 = S754_finite false 8388608 (-22).
Proof. vm_compute. repeat split. Qed.

Lemma capped_mono B B' x : capped B x -> B <= B' -> capped B' x.
Proof.
  destruct x as [s|s| |[] m e]; try done. cbn [capped]. intros [He Hm] HB.
  split; [lia|]. assert (2 ^ (B - e) <= 2 ^ (B' - e)) by (apply Z.pow_le_mono_r; lia).
  lia.
Qed.

Lemma capped_one : capped 0 f1.
Proof. destruct color_constants as (-> & _). cbn [capped]. simpl. lia. Qed.

(** Rounding a positive number below [2^B] gives a number that is not
    negative and at most [2^B]. *)
Lemma round_capped B m e l :
  0 <= m -> e <= B -> -149 <= B -> B <= 104 -> m < 2 ^ (B - e) ->
  capped B (binary_round_aux F32.prec F32.emax false m e l).
Proof.
  intros Hm He HB HB' Hlt.
  pose proof (round_le B false m e l Hm He HB HB' Hlt) as H.
  destruct (binary_round_aux _ _ _ _ _ _) as [s|s| |s m3 e3]; try done.
  by destruct H as (-> & H).
Qed.

Lemma binary_round_capped B p e :
  e <= B -> -149 <= B -> B <= 104 -> Z.pos p < 2 ^ (B - e) ->
  capped B (binary_round F32.prec F32.emax false p e).
Proof.
  intros He HB HB' Hlt. unfold binary_round.
  pose proof (shl_align_value p e
    (fexp F32.prec F32.emax (Z.pos (digits2_pos p) + e))) as [Hle Hv].
  destruct (shl_align p e _) as [mz ez]. cbn [fst snd] in Hle, Hv.
  apply round_capped; [lia|lia|done|done|]. rewrite Hv.
  assert (2 ^ (B - e) * 2 ^ (e - ez) = 2 ^ (B - ez)).
  { rewrite <- Z.pow_add_r by lia. f_equal. lia. }
  assert (0 < 2 ^ (e - ez)) by (apply Z.pow_pos_nonneg; lia).
  nia.
Qed.

(** [1 - t] for [t] between 0 and 1. *)
Lemma one_minus_capped t : capped 0 t -> capped 0 (f1 - t)%f32.
Proof.
  intros Ht. destruct color_constants as (E1 & _). rewrite E1.
  destruct t as [s|s| |[] m e]; try done.
  cbn [capped] in Ht. destruct Ht as [He Hm].
  unfold F32.sub. cbn [SFsub cond_Zopp].
  set (ez := Z.min (-23) e).
  pose proof (shl_align_value 8388608 (-23) ez) as [_ H1].
  pose proof (shl_align_value m e ez) as [_ Ht].
  rewrite shl_align_snd in H1, Ht by lia.
  set (M1 := (shl_align 8388608 (-23) ez).1) in *.
  set (Mt := (shl_align m e ez).1) in *.
  assert (HM1 : Z.pos M1 = 2 ^ (- ez)).
  { rewrite H1. change (Z.pos 8388608) with (2 ^ 23).
    rewrite <- Z.pow_add_r by lia. f_equal. lia. }
  assert (HMt : Z.pos Mt <= 2 ^ (- ez)).
  { rewrite Ht. assert (2 ^ (0 - e) * 2 ^ (e - ez) = 2 ^ (- ez)).
    { rewrite <- Z.pow_add_r by lia. f_equal. lia. }
    assert (0 < 2 ^ (e - ez)) by (apply Z.pow_pos_nonneg; lia). nia. }
  destruct (Z.pos M1 - Z.pos Mt) as [|p|p] eqn:ED; cbn [binary_normalize];
    [done| |lia].
  apply binary_round_capped; [lia|lia|lia|].
  replace (0 - ez) with (- ez) by lia. lia.
Qed.

(** A product of a number below [2^a] and a number at most [2^b]. *)
Lemma mul_capped a b x y :
  small a x -> nonneg x -> capped b y -> -149 <= a + b -> a + b <= 104 ->
  capped (a + b) (x * y)%f32.
Proof.
  intros Hx Hn Hy Hlo Hhi.
  destruct x as [sx|sx| |[] mx ex], y as [sy|sy| |[] my ey]; try done.
  cbn [small capped] in Hx, Hy. unfold magnitude in Hx. destruct Hy as [Hey Hmy].
  unfold F32.mul. cbn [SFmul xorb].
  pose proof (pos_lt_pow_digits mx) as Hmx.
  assert (2 ^ Z.pos (digits2_pos mx) <= 2 ^ (a - ex)) by (apply Z.pow_le_mono_r; lia).
  assert (2 ^ (a - ex) * 2 ^ (b - ey) = 2 ^ (a + b - (ex + ey))).
  { rewrite <- Z.pow_add_r by lia. f_equal. lia. }
  assert (0 < 2 ^ (b - ey)) by (apply Z.pow_pos_nonneg; lia).
  apply round_capped; [lia|lia|done|done|]. rewrite Pos2Z.inj_mul. nia.
Qed.

(** The gradient of a number between 0 and 1 is a colour. *)
Lemma gradient_valid t : capped 0 t -> valid_color (gradient t).
Proof.
  intros Ht. pose proof (one_minus_capped t Ht) as Hb.
  unfold valid_color, gradient. cbn [fst snd]. split_and!; [done| |done].
  destruct color_constants as (_ & E2 & _).
  apply (capped_mono (-2 + 0)); [|lia].
  apply mul_capped; [|by rewrite E2|done|lia|lia].
  rewrite E2. cbn [small]. unfold magnitude. simpl. lia.
Qed.

(** Regular, not negative and not above 1. *)
Lemma not_above_one_capped v :
  regular v -> nonneg v -> (f1 <? v)%f32 = false -> capped 0 v.
Proof.
  intros Hreg Hn Hlt. destruct color_constants as (E1 & _). rewrite E1 in Hlt.
  destruct v as [s|[]| |[] m e]; try done.
  destruct Hreg as [He Hd]. cbn [capped].
  unfold F32.ltb, SFltb, SFcompare in Hlt.
  pose proof (pos_lt_pow_digits m) as Hm.
  assert (2 ^ Z.pos (digits2_pos m) <= 2 ^ 24) by (apply Z.pow_le_mono_r; lia).
  destruct (Z.compare_spec (-23) e) as [<-|Hlt'|Hgt]; [| done |].
  - split; [lia|]. change (2 ^ (0 - -23)) with 8388608.
    change (Pos.compare_cont Eq 8388608 m) with (8388608 ?= m)%positive in Hlt.
    destruct (Pos.compare_spec 8388608 m); [lia|done|lia].
  - split; [lia|]. assert (2 ^ 24 <= 2 ^ (0 - e)) by (apply Z.pow_le_mono_r; lia).
    lia.
Qed.

Lemma sqrt_nonneg x : nonneg x -> nonneg (F32.sqrt x).
Proof.
  intros Hn. destruct x as [s|[]| |[] m e]; try done.
  unfold F32.sqrt. cbn [SFsqrt].
  pose proof (sqrt_core_bounds m e) as (q & Hq & _). cbv zeta in *.
  destruct (SFsqrt_core_binary _ _ _ _) as [[mz ez] lz]. cbn [fst snd] in *.
  subst mz. by apply round_nonneg.
Qed.

Lemma div_nonneg x my ey :
  nonneg x -> nonneg (x / S754_finite false my ey)%f32.
Proof.
  intros Hx. destruct x as [sx|[]| |[] mx ex]; try done.
  unfold F32.div. cbn [SFdiv xorb].
  pose proof (div_core_small mx ex my ey) as [H0 _]. cbv zeta in *.
  destruct (SFdiv_core_binary _ _ _ _ _ _) as [[mz ez] lz]. cbn [fst snd] in *.
  by apply round_nonneg.
Qed.

Lemma add_nan_l a : (S754_nan + a)%f32 = S754_nan.
Proof. done. Qed.

Lemma add_nan_r a : (a + S754_nan)%f32 = S754_nan.
Proof. by destruct a. Qed.

(** The squared norm of a vector is NaN or not negative. *)
Lemma sum_squares_nonneg x y z :
  let s := (x * x + y * y + z * z)%f32 in s = S754_nan \/ nonneg s.
Proof.
  cbv zeta.
  destruct (square_nonneg x) as [->|Hx]; [left; by rewrite !add_nan_l|].
  destruct (square_nonneg y) as [->|Hy]; [left; by rewrite add_nan_r, add_nan_l|].
  destruct (square_nonneg z) as [->|Hz]; [left; by rewrite add_nan_r|].
  right. by apply add_nonneg; [apply add_nonneg|].
Qed.

(** The speed colour is a colour for any velocity, finite or not. *)
Lemma speed_color_valid vx vy vz : valid_color (speed_color vx vy vz).
Proof.
  unfold speed_color. cbv zeta. apply gradient_valid.
  destruct color_constants as (E1 & _ & E15 & _).
  set (a := (F32.sqrt (vx * vx + vy * vy + vz * vz) / F32.of_int 15)%f32).
  assert (Hreg : regular a) by apply div_regular.
  assert (Ha : a = S754_nan \/ nonneg a).
  { unfold a. destruct (sum_squares_nonneg vx vy vz) as [->|Hn]; [by left|].
    right. rewrite E15. by apply div_nonneg, sqrt_nonneg. }
  destruct Ha as [->|Hn]; [apply capped_one|].
  assert (Hf : F32.fmin a f1 = if (a <? f1)%f32 then a else f1).
  { rewrite E1. by destruct a. }
  rewrite Hf. destruct (a <? f1)%f32 eqn:Hlt; [|apply capped_one].
  apply not_above_one_capped; [done|done|by apply ltb_true_flip].
Qed.

(** X9.  With the speed mode set, and whatever the pressure mode, the
    colour of every particle after a step is the speed gradient of the
    velocity the step stores, and it is a colour: its three channels are
    numbers between 0 and 1, even when the velocity is infinite or NaN
    ([fmin] drops the NaN). *)
Theorem speed_mode_colors dt pressure grid i j k :
  wf grid -> in_grid grid i j k ->
  let grid' := UpdateGrid dt grid pressure true in
  let v := velocity grid' i j k in
  color (particle grid' i j k) = speed_color v.1.1 v.1.2 v.2 /\
  valid_color (color (particle grid' i j k)).
Proof.
  intros Hwf Hg grid' v.
  destruct (step_cell_particle dt pressure true grid i j k Hwf Hg) as [Hp Hv].
  assert (Hc : color (particle grid' i j k) = speed_color v.1.1 v.1.2 v.2).
  { unfold v, grid'. rewrite Hp, Hv. unfold step_cell.
    destruct (forces grid i j k) as [[a1 a2] a3]. apply color_integrate_speed. }
  split; [done|]. rewrite Hc. apply speed_color_valid.
Qed.

Lemma speed_mode_colors_witness :
  let grid' := UpdateGrid f1 two_particles false true in
  let v := velocity grid' 0 0 0 in
  wf two_particles /\ in_grid two_particles 0 0 0 /\
  color (particle grid' 0 0 0) = speed_color v.1.1 v.1.2 v.2 /\
  valid_color (color (particle grid' 0 0 0)).
Proof.
  intros grid' v.
  assert (Hwf : wf two_particles) by wf_by_computation.
  assert (Hg : in_grid two_particles 0 0 0) by (unfold in_grid; simpl; lia).
  split; [exact Hwf|]. split; [exact Hg|].
  exact (speed_mode_colors f1 false two_particles 0 0 0 Hwf Hg).
Defined.

(** *** The pressure colour *)

(** The quotient computed by the division core is at least
    [2^(E1 - E2 - 1)], away from the underflow. *)
Lemma div_core_big mx ex my ey :
  -125 <= magnitude mx ex - magnitude my ey ->
  let r := SFdiv_core_binary F32.prec F32.emax (Z.pos mx) ex (Z.pos my) ey in
  exists q, r.1.1 = Z.pos q /\
    magnitude mx ex - magnitude my ey <= Z.pos (digits2_pos q) + r.1.2.
Proof.
  unfold SFdiv_core_binary, magnitude. cbn [Zdigits2]. intros HD.
  set (d1 := Z.pos (digits2_pos mx)) in *. set (d2 := Z.pos (digits2_pos my)) in *.
  set (e' := Z.min _ _). set (s := ex - ey - e').
  assert (He' : e' <= d1 + ex - (d2 + ey) - 24).
  { unfold e', fexp, emin, F32.prec, F32.emax. lia. }
  assert (Hs : 0 <= s) by (unfold s, e'; lia).
  rewrite (shiftl_pos_mul (Z.pos mx) s Hs).
  pose proof (div_eucl_fst (Z.pos mx * 2 ^ s) (Z.pos my)) as Hq.
  destruct (Z.div_eucl (Z.pos mx * 2 ^ s) (Z.pos my)) as [q r]. cbn [fst snd] in *.
  subst q.
  pose proof (digits2_pos_bounds mx) as [Hmx _]. fold d1 in Hmx.
  pose proof (digits2_pos_bounds my) as [_ Hmy]. fold d2 in Hmy.
  assert (Hd1 : 0 < d1) by (unfold d1; lia).
  assert (Hd2 : 0 < d2) by (unfold d2; lia).
  set (t := d1 - 1 + s - d2).
  assert (Ht : 23 <= t) by (unfold t, s; lia).
  assert (H2s : 0 < 2 ^ s) by (apply Z.pow_pos_nonneg; lia).
  assert (H2t : 0 < 2 ^ t) by (apply Z.pow_pos_nonneg; lia).
  assert (Hnum : 2 ^ (d1 - 1) * 2 ^ s = 2 ^ d2 * 2 ^ t).
  { rewrite <- !Z.pow_add_r by lia. f_equal. unfold t. lia. }
  assert (Hlow : 2 ^ t <= Z.pos mx * 2 ^ s / Z.pos my).
  { apply Z.div_le_lower_bound; [lia|]. nia. }
  destruct (Z.pos mx * 2 ^ s / Z.pos my) as [|q|q] eqn:Eq; [lia| |lia].
  exists q. split; [done|].
  assert (t + 1 <= Z.pos (digits2_pos q)); [|unfold t, s in *; lia].
  pose proof (digits2_pos_bounds q) as [_ Hq].
  destruct (decide (t + 1 <= Z.pos (digits2_pos q))) as [|Hn]; [done|]. exfalso.
  assert (2 ^ Z.pos (digits2_pos q) <= 2 ^ t) by (apply Z.pow_le_mono_r; lia).
  lia.
Qed.

Lemma div_atleast mx ex my ey K :
  K <= magnitude mx ex - magnitude my ey -> -125 <= K ->
  atleast K (S754_finite false mx ex / S754_finite false my ey)%f32.
Proof.
  intros HK Hlo. unfold F32.div. cbn [SFdiv xorb].
  pose proof (div_core_big mx ex my ey ltac:(lia)) as (q & Hq & Hd). cbv zeta in *.
  destruct (SFdiv_core_binary _ _ _ _ _ _) as [[mz ez] lz]. cbn [fst snd] in *.
  subst mz. apply round_atleast; lia.
Qed.

(** The rest density of a grid of 1 to [INT_MAX] particles is a positive
    number between [2^-18] and [2^16]. *)
Lemma restDensity_range N :
  0 < N <= INT_MAX ->
  exists m e, restDensity N = S754_finite false m e /\ -17 <= magnitude m e <= 16.
Proof.
  intros HN. pose proof (restDensity_small N HN) as Hs.
  destruct (F32_of_int_finite N HN) as (p & e & HNf & Hlo & Hhi).
  assert (Ha : atleast (-17) (restDensity N)).
  { unfold restDensity. rewrite domain_volume, HNf.
    change (F32.of_int 24000) with (S754_finite false 12288000 (-9)).
    apply div_atleast; [|lia]. unfold magnitude. simpl. lia. }
  destruct (restDensity N) as [s|[]| |[] m' e']; try done.
  exists m', e'. cbn [small atleast] in *. split; [done|lia].
Qed.

Lemma not_below_zero_nonneg v :
  is_nan v = false -> (v <? f0)%f32 = false -> nonneg v.
Proof. by destruct v as [s|[]| |[] m e]. Qed.

Lemma div_not_nan x my ey :
  is_finite x = true -> is_nan (x / S754_finite false my ey)%f32 = false.
Proof.
  intros Hx. destruct x as [sx|sx| |sx mx ex]; try done.
  unfold F32.div. cbn [SFdiv].
  pose proof (div_core_small mx ex my ey) as [H0 _]. cbv zeta in *.
  destruct (SFdiv_core_binary _ _ _ _ _ _) as [[mz ez] lz]. cbn [fst snd] in *.
  destruct (round_stages (xorb sx false) mz ez lz H0) as [->|(m3 & e3 & -> & _)];
    [done|]. by destruct (e3 <=? 104).
Qed.

(** The pressure colour is a colour when the pressure is below [2^44] and
    the rest density is that of a well-formed grid. *)
Lemma pressure_color_valid PA m e :
  small 44 PA -> -17 <= magnitude m e <= 16 ->
  valid_color (pressure_color PA (S754_finite false m e)).
Proof.
  intros HPA Hm. unfold pressure_color. cbv zeta. apply gradient_valid.
  destruct color_constants as (E1 & _ & _ & E2).
  set (rest := S754_finite false m e).
  assert (Hy : exists my ey, (rest * F32.of_int 2)%f32 = S754_finite false my ey).
  { assert (Ha : atleast (-16) (rest * F32.of_int 2)%f32).
    { rewrite E2. unfold rest, F32.mul. cbn [SFmul xorb].
      apply round_atleast; [|lia].
      pose proof (digits2_pos_mul_ge m 8388608). unfold magnitude in Hm.
      change (Z.pos (digits2_pos 8388608)) with 24 in *. lia. }
    assert (Hs : small 19 (rest * F32.of_int 2)%f32).
    { apply (mul_small 16 2 18); [unfold rest; cbn [small]; lia| |lia|lia].
      rewrite E2. cbn [small]. unfold magnitude. simpl. lia. }
    destruct (rest * F32.of_int 2)%f32 as [s|[]| |[] my ey]; try done.
    by eexists _, _. }
  destruct Hy as (my & ey & ->).
  assert (Hx : is_finite (PA - - rest)%f32 = true).
  { apply (small_finite 46), (sub_small 44); [done| |lia|lia].
    unfold rest. cbn [F32.opp SFopp small]. lia. }
  set (v := ((PA - - rest) / S754_finite false my ey)%f32).
  assert (Hnan : is_nan v = false) by (by apply div_not_nan).
  assert (Hreg : regular v) by apply div_regular.
  unfold F32.clamp. destruct (v <? f0)%f32 eqn:H0; [done|].
  destruct (f1 <? v)%f32 eqn:H1; [apply capped_one|].
  apply not_above_one_capped; [done| |done].
  by apply not_below_zero_nonneg.
Qed.

(** X10.  With the pressure mode set and the speed mode not, the colour
    of every particle after a step on a well-formed grid is the pressure
    gradient of its own density, and it is a colour: its three channels
    are numbers between 0 and 1.  The normalised pressure is never NaN,
    since a density is finite and the rest density is neither zero nor
    infinite. *)
Theorem pressure_mode_colors dt grid i j k :
  wf grid -> in_grid grid i j k ->
  let c := color (particle (UpdateGrid dt grid true false) i j k) in
  c = pressure_color (pressure_of (density_at grid i j k) (rest_of grid)) (rest_of grid) /\
  valid_color c.
Proof.
  intros Hwf Hg c.
  destruct (step_cell_particle dt true false grid i j k Hwf Hg) as [Hp _].
  assert (Hc : c = pressure_color (pressure_of (density_at grid i j k) (rest_of grid))
                     (rest_of grid)).
  { unfold c. rewrite Hp. unfold step_cell.
    destruct (forces grid i j k) as [[a1 a2] a3].
    rewrite color_integrate_plain. apply color_force_pressure. }
  split; [done|]. rewrite Hc.
  pose proof (pressure_of_small _ _ (density_at_small grid i j k Hwf Hg)
    (rest_of_small grid Hwf)) as HPA.
  destruct (restDensity_range (Grille.nx grid * Grille.ny grid * Grille.nz grid))
    as (m & e & Hrest & Hm).
  { destruct Hwf. split; [|done].
    assert (0 < Grille.nx grid * Grille.ny grid) by lia. lia. }
  fold (rest_of grid) in Hrest. rewrite Hrest in *.
  by apply pressure_color_valid.
Qed.

Lemma pressure_mode_colors_witness :
  let c := color (particle (UpdateGrid f1 two_particles true false) 0 0 0) in
  wf two_particles /\ in_grid two_particles 0 0 0 /\
  c = pressure_color (pressure_of (density_at two_particles 0 0 0) (rest_of two_particles))
        (rest_of two_particles) /\
  valid_color c.
Proof.
  intros c.
  assert (Hwf : wf two_particles) by wf_by_computation.
  assert (Hg : in_grid two_particles 0 0 0) by (unfold in_grid; simpl; lia).
  split; [exact Hwf|]. split; [exact Hg|].
  exact (pressure_mode_colors f1 two_particles 0 0 0 Hwf Hg).
Defined.

(** ** A particle on its own *)

Lemma wall_force_clear min max p a :
  (p - radius <? min)%f32 = false -> (p + radius >? max)%f32 = false ->
  wall_force min max p a = a.
Proof. intros H1 H2. unfold wall_force. cbv zeta. by rewrite H1, H2. Qed.

(** X11.  A particle that has no other particle within reach (every other
    pair is skipped by the test [r <= 0 || r > h]) and that is at least
    [radius] away from the six walls feels gravity only: the acceleration
    the step stores for it is exactly [(0, -9.81f, 0)]. *)
Theorem lone_particle_falls dt pressure speed grid i j k :
  wf grid -> in_grid grid i j k ->
  (forall ii jj kk, in_grid grid ii jj kk -> (ii, jj, kk) <> (i, j, k) ->
     out_of_reach (particle grid i j k) (particle grid ii jj kk)) ->
  clear_of_walls (particle grid i j k) ->
  acceleration (UpdateGrid dt grid pressure speed) i j k = (f0, g, f0).
Proof.
  intros Hwf Hg Hfar ((Hx1 & Hx2) & (Hy1 & Hy2) & (Hz1 & Hz2)).
  destruct (UpdateGrid_spec dt pressure speed grid Hwf) as (_ & _ & Hcell).
  destruct (Hcell i j k Hg) as (_ & -> & _).
  destruct (before_force_spec grid Hwf) as (Hw & Hd & Hv & _ & Hbf).
  destruct (Hbf i j k Hg) as [_ Hacc]. injection Hacc as Hax Hay Haz.
  unfold forces, force_at. cbv zeta. rewrite Hax, Hay, Haz.
  set (s := before_force grid) in *.
  assert (HA : Grille.vertex s (idx3 i j k (Grille.ny s) (Grille.nz s))
               = particle grid i j k) by (by apply particle_frozen).
  rewrite HA. rewrite for3_cells.
  rewrite foldl_fixed.
  - by rewrite !wall_force_clear.
  - intros [[ii jj] kk] Hc. cbn [on_cell]. unfold force_pair. cbv zeta.
    destruct ((ii =? i) && (jj =? j) && (kk =? k)) eqn:E; [done|].
    assert (HB : Grille.vertex s (idx3 ii jj kk (Grille.ny s) (Grille.nz s))
                 = particle grid ii jj kk) by (by apply particle_frozen).
    rewrite HB.
    assert (Hne : (ii, jj, kk) <> (i, j, k)).
    { intros [= -> -> ->]. by rewrite !Z.eqb_refl in E. }
    apply in_grid_cells in Hc. apply (in_grid_back _ _ _ _ _ Hd) in Hc.
    specialize (Hfar ii jj kk Hc Hne). unfold out_of_reach, distance in Hfar.
    cbv zeta in Hfar. by rewrite Hfar.
Qed.

Lemma lone_particle_falls_witness :
  wf one_particle /\ in_grid one_particle 0 0 0 /\
  clear_of_walls (particle one_particle 0 0 0) /\
  acceleration (UpdateGrid f1 one_particle false false) 0 0 0 = (f0, g, f0).
Proof.
  assert (Hwf : wf one_particle) by wf_by_computation.
  assert (Hg : in_grid one_particle 0 0 0) by (unfold in_grid; simpl; lia).
  assert (Hw : clear_of_walls (particle one_particle 0 0 0)).
  { unfold clear_of_walls. repeat split; vm_compute; reflexivity. }
  assert (Hfar : forall ii jj kk, in_grid one_particle ii jj kk ->
            (ii, jj, kk) <> (0, 0, 0) ->
            out_of_reach (particle one_particle 0 0 0) (particle one_particle ii jj kk)).
  { intros ii jj kk (Hi & Hj & Hk) Hne. exfalso. apply Hne.
    simpl in Hi, Hj, Hk. f_equal; [f_equal|]; lia. }
  split; [exact Hwf|]. split; [exact Hg|]. split; [exact Hw|].
  exact (lone_particle_falls f1 false false one_particle 0 0 0 Hwf Hg Hfar Hw).
Defined.

(** ** Scratch arrays *)

Lemma before_force_kept grid : kept grid (before_force grid).
Proof.
  unfold before_force, density_pass, reset_pass. rewrite !for3_cells.
  apply pass_kept; [intros; by apply density_cell_kept|].
  apply pass_kept; [intros; by apply reset_cell_kept|]. apply kept_refl.
Qed.

(** X12.  The accelerations and the densities are scratch storage: a step
    overwrites them before it reads them.  Whatever a well-formed grid
    holds in [ax], [ay], [az] and [div], the grid after the step is the
    same. *)
Theorem stale_scratch_ignored dt pressure speed grid ax' ay' az' div' :
  wf grid ->
  shape3 (Grille.nx grid) (Grille.ny grid) (Grille.nz grid) ax' ->
  shape3 (Grille.nx grid) (Grille.ny grid) (Grille.nz grid) ay' ->
  shape3 (Grille.nx grid) (Grille.ny grid) (Grille.nz grid) az' ->
  shape3 (Grille.nx grid) (Grille.ny grid) (Grille.nz grid) div' ->
  UpdateGrid dt (Grille.set_div (Grille.set_a grid ax' ay' az') div') pressure speed
  = UpdateGrid dt grid pressure speed.
Proof.
  intros Hwf Hax Hay Haz Hdiv.
  set (grid' := Grille.set_div (Grille.set_a grid ax' ay' az') div').
  assert (Hwf' : wf grid').
  { apply wf_set_div; [by apply wf_set_a|done]. }
  assert (Hd0 : same_dims grid' grid) by done.
  assert (Hbf : before_force grid' = before_force grid).
  { destruct (before_force_spec grid Hwf) as (Hw & Hd & Hv & Hvel & Hcell).
    destruct (before_force_spec grid' Hwf') as (Hw' & Hd' & Hv' & Hvel' & Hcell').
    apply grid_ext; [done|done| | |].
    - apply (same_dims_trans _ grid'); [done|].
      apply (same_dims_trans _ grid); [done|].
      destruct Hd as (? & ? & ?). by split_and!.
    - destruct (before_force_kept grid) as (_ & _ & _ & ->).
      by destruct (before_force_kept grid') as (_ & _ & _ & ->).
    - intros i j k Hg. apply (in_grid_back _ _ _ _ _ Hd') in Hg.
      destruct (Hcell i j k Hg) as [Hrho Hacc].
      destruct (Hcell' i j k Hg) as [Hrho' Hacc'].
      injection Hvel as ? ? ?. injection Hvel' as ? ? ?.
      split_and!.
      + rewrite (particle_frozen (before_force grid') grid') by done.
        rewrite (particle_frozen (before_force grid) grid) by done. done.
      + unfold velocity. congruence.
      + congruence.
      + rewrite Hrho, Hrho'. by apply density_at_frozen. }
  unfold UpdateGrid. cbv zeta. fold (before_force grid') (before_force grid).
  by rewrite Hbf.
Qed.

Lemma stale_scratch_ignored_witness :
  let junk := [[[S754_nan]]; [[FLT_MAX]]] in
  wf two_particles /\ shape3 2 1 1 junk /\
  UpdateGrid f1 (Grille.set_div (Grille.set_a two_particles junk junk junk) junk)
    true false
  = UpdateGrid f1 two_particles true false.
Proof.
  intros junk.
  assert (Hwf : wf two_particles) by wf_by_computation.
  assert (Hs : shape3 2 1 1 junk) by (split; [reflexivity|repeat constructor]).
  split; [exact Hwf|]. split; [exact Hs|].
  exact (stale_scratch_ignored f1 true false two_particles junk junk junk junk
           Hwf Hs Hs Hs Hs).
Defined.

(** ** Pairs seen from both sides *)

(** X13.  The density pass is symmetric: what the particle [(ii, jj, kk)]
    adds to the density of [(i, j, k)] is, bit for bit, what [(i, j, k)]
    adds to the density of [(ii, jj, kk)], for any positions. *)
Theorem density_pair_symmetric grid i j k ii jj kk d :
  density_pair grid i j k (particle grid i j k) ii jj kk d
  = density_pair grid ii jj kk (particle grid ii jj kk) i j k d.
Proof.
  unfold density_pair. cbv zeta. rewrite (same_cell_sym i j k ii jj kk).
  destruct ((i =? ii) && (j =? jj) && (k =? kk)); [done|].
  fold (particle grid ii jj kk) (particle grid i j k).
  set (A := particle grid i j k). set (B := particle grid ii jj kk).
  by rewrite (negation_mul_self _ _ (sub_negation (Vertex.x A) (Vertex.x B))),
    (negation_mul_self _ _ (sub_negation (Vertex.y A) (Vertex.y B))),
    (negation_mul_self _ _ (sub_negation (Vertex.z A) (Vertex.z B))).
Qed.

Lemma negation_mul_l q a b : negation_of a b -> negation_of (a * q)%f32 (b * q)%f32.
Proof.
  unfold F32.mul. intros [->|[Ha Hb]].
  - left. apply SFmul_opp_l.
  - destruct a as [sa| | |], b as [sb| | |]; try done.
    destruct q as [sr|sr| |sr mr er]; cbn [SFmul]; (by right) || (by left).
Qed.

Lemma viscosity_negation a b q :
  negation_of (nu * (b - a) * q)%f32 (nu * (a - b) * q)%f32.
Proof. apply negation_mul_l, negation_mul, sub_negation. Qed.

(** X14.  Viscosity obeys the third law as the pressure does: for two
    particles, the viscosity term the force pass adds to the one is,
    component by component, the negation of the term it adds to the
    other, computed with the same weight [q = 1 - r/h]; their sum is a
    zero whenever the term is finite (an infinite term and its negation
    add up to NaN).  What the force pass adds for a pair of distinct cells
    is the pressure term plus this one, on either side. *)
Theorem viscosity_pair_opposite s rest i j k ii jj kk acc acc' :
  (ii =? i) && (jj =? j) && (kk =? k) = false ->
  let A := particle s i j k in
  let B := particle s ii jj kk in
  let PA := pressure_of (get3 (Grille.div s) i j k) rest in
  let PB := pressure_of (get3 (Grille.div s) ii jj kk) rest in
  let q := (f1 - distance A B / h)%f32 in
  let viscA := viscosity_pair (velocity s i j k) (velocity s ii jj kk) q in
  let viscB := viscosity_pair (velocity s ii jj kk) (velocity s i j k) q in
  opposite viscA viscB /\
  cancel viscA.1.1 viscB.1.1 /\ cancel viscA.1.2 viscB.1.2 /\ cancel viscA.2 viscB.2 /\
  force_pair s rest i j k A PA ii jj kk acc
  = match pressure_pair A B PA PB with
    | None => acc
    | Some p =>
        ((acc.1.1 + p.1.1 + viscA.1.1)%f32, (acc.1.2 + p.1.2 + viscA.1.2)%f32,
         (acc.2 + p.2 + viscA.2)%f32)
    end /\
  force_pair s rest ii jj kk B PB i j k acc'
  = match pressure_pair B A PB PA with
    | None => acc'
    | Some p =>
        ((acc'.1.1 + p.1.1 + viscB.1.1)%f32, (acc'.1.2 + p.1.2 + viscB.1.2)%f32,
         (acc'.2 + p.2 + viscB.2)%f32)
    end.
Proof.
  intros Hne. cbv zeta.
  assert (Hopp : forall q, opposite
            (viscosity_pair (velocity s i j k) (velocity s ii jj kk) q)
            (viscosity_pair (velocity s ii jj kk) (velocity s i j k) q)).
  { intros q. unfold opposite, viscosity_pair. cbn [fst snd].
    split_and!; apply viscosity_negation. }
  split; [apply Hopp|].
  destruct (Hopp (f1 - distance (particle s i j k) (particle s ii jj kk) / h)%f32)
    as (H1 & H2 & H3).
  split; [by apply negation_sum|]. split; [by apply negation_sum|].
  split; [by apply negation_sum|]. split.
  - by rewrite force_pair_terms.
  - rewrite force_pair_terms by (by rewrite same_cell_sym).
    cbv zeta. by rewrite (distance_sym (particle s i j k)).
Qed.

Lemma viscosity_pair_opposite_witness :
  let s := two_particles in
  let q := (f1 - distance (particle s 0 0 0) (particle s 1 0 0) / h)%f32 in
  let viscA := viscosity_pair (velocity s 0 0 0) (velocity s 1 0 0) q in
  let viscB := viscosity_pair (velocity s 1 0 0) (velocity s 0 0 0) q in
  (1 =? 0) && (0 =? 0) && (0 =? 0) = false /\
  opposite viscA viscB /\
  cancel viscA.1.1 viscB.1.1 /\ cancel viscA.1.2 viscB.1.2 /\ cancel viscA.2 viscB.2.
Proof.
  intros s q viscA viscB.
  assert (Hne : (1 =? 0) && (0 =? 0) && (0 =? 0) = false) by reflexivity.
  split; [exact Hne|].
  destruct (viscosity_pair_opposite two_particles f1 0 0 0 1 0 0 (f0, f0, f0) (f0, f0, f0) Hne)
    as (H1 & H2 & H3 & H4 & _).
  split; [exact H1|]. split; [exact H2|]. split; [exact H3|exact H4].
Defined.

(** ** Order of the iterations of [CreateGrid] *)

(** X15.  The loop of [CreateGrid] is parallel as well; whatever the
    order of its iterations, the grid is the same. *)
Theorem CreateGrid_any_order l nx ny nz scale :
  0 < nx -> 0 < ny -> 0 < nz -> nx * ny * nz <= INT_MAX ->
  l ≡ₚ cells nx ny nz ->
  CreateGrid_in_order l nx ny nz scale = CreateGrid nx ny nz scale.
Proof.
  intros Hx Hy Hz Hint Hp. unfold CreateGrid_in_order, CreateGrid, pass_in_order.
  cbv zeta. rewrite for3_cells.
  set (s0 := Grille.set_vertices _ _).
  assert (Hwf0 : wf s0).
  { constructor; simpl; try done; try apply shape3_zero_field.
    by rewrite length_replicate. }
  eapply (cellwise_any_order _
    (fun s => create_inv nx ny nz s /\ Grille.pressure s = zero_field nx ny nz)
    (on_cell (fun i j k s => particle s i j k))
    (on_cell (lattice_vertex scale)));
    [|clear Hp l|apply NoDup_cells|done].
  - split; [|split; [|split]].
    + split; [by constructor|done].
    + intros [[i j] k] s Hc [[Hw Hd Hv Ha Hdiv] Hpr]. cbn [on_cell].
      split; [|done]. constructor; try done. by apply wf_set_vertex.
    + intros [[i j] k] s Hc [[Hw Hd Hv Ha Hdiv] _] _. cbn [on_cell].
      injection Hd as Hdx Hdy Hdz. apply elem_of_cells in Hc.
      rewrite <- Hdy, <- Hdz. apply vertex_set_vertex_eq; [done|].
      unfold in_grid. by rewrite Hdx, Hdy, Hdz.
    + intros [[i j] k] [[i' j'] k'] s Hc Hc' Hne [[Hw Hd Hv Ha Hdiv] _]. cbn [on_cell].
      injection Hd as Hdx Hdy Hdz. apply elem_of_cells in Hc, Hc'.
      rewrite <- Hdy, <- Hdz. apply vertex_set_vertex_ne; [..|done];
        unfold in_grid; by rewrite Hdx, Hdy, Hdz.
  - intros s s' [[Hw Hd Hv Ha Hdiv] Hpr] [[Hw' Hd' Hv' Ha' Hdiv'] Hpr'] Hobs.
    injection Hd as Hdx Hdy Hdz. injection Hd' as Hdx' Hdy' Hdz'.
    apply grid_ext; [done|done| |congruence|].
    + unfold same_dims. split_and!; congruence.
    + intros i j k Hg.
      assert (Hc : (i, j, k) ∈ cells nx ny nz).
      { apply elem_of_cells. unfold in_grid in Hg. by rewrite Hdx, Hdy, Hdz in Hg. }
      specialize (Hobs _ Hc). cbn [on_cell] in Hobs.
      injection Hv as ? ? ?. injection Hv' as ? ? ?.
      injection Ha as ? ? ?. injection Ha' as ? ? ?.
      split_and!; [done|unfold velocity; congruence|unfold acceleration; congruence
                  |congruence].
Qed.

Lemma CreateGrid_any_order_witness :
  0 < 2 /\ 2 * 2 * 2 <= INT_MAX /\ reverse (cells 2 2 2) ≡ₚ cells 2 2 2 /\
  CreateGrid_in_order (reverse (cells 2 2 2)) 2 2 2 f1 = CreateGrid 2 2 2 f1.
Proof.
  assert (H0 : 0 < 2) by lia.
  assert (H1 : 2 * 2 * 2 <= INT_MAX) by (unfold INT_MAX; lia).
  assert (Hr : reverse (cells 2 2 2) ≡ₚ cells 2 2 2) by apply reverse_Permutation.
  split; [exact H0|]. split; [exact H1|]. split; [exact Hr|].
  exact (CreateGrid_any_order (reverse (cells 2 2 2)) 2 2 2 f1 H0 H0 H0 H1 Hr).
Defined.

(** ** The application *)

(** *** Keys *)

(** [processInput] without its local variables. *)
Lemma processInput_eq keys g :
  let rising_R := Key.R keys && negb (Globals.pressureKeyPressedLast g) in
  let rising_E := Key.E keys && negb (Globals.speedKeyPressedLast g) in
  let pressure1 := if rising_R then negb (Globals.pressure g) else Globals.pressure g in
  let speed1 := if rising_R then false else Globals.speed g in
  processInput keys g
  = Globals.mk (Globals.fov g)
      (if Key.SPACE keys then negb (Globals.simulation g) else Globals.simulation g)
      (if rising_E then false else pressure1)
      (if rising_E then negb speed1 else speed1)
      (Key.R keys) (Key.E keys) (Globals.deltaTime g) (Globals.lastFrame g).
Proof.
  unfold processInput. cbv zeta.
  destruct g as [fov sim p sp pl sl dt lf], keys as [space r e]. cbn.
  by destruct p, sp, pl, sl, r, e.
Qed.

Lemma processInput_exclusive keys g :
  Globals.pressure g && Globals.speed g = false ->
  Globals.pressure (processInput keys g) && Globals.speed (processInput keys g) = false.
Proof.
  rewrite processInput_eq. cbv zeta.
  destruct g as [fov sim p sp pl sl dt lf], keys as [space r e]. cbn.
  by destruct p, sp, pl, sl, r, e.
Qed.

(** X16.  The two colour modes exclude each other: whatever keys are
    pressed and released, and in whatever order, a sequence of calls of
    [processInput] never leaves both [pressure] and [speed] set when it
    did not find them both set, as is the case of the initial globals. *)
Theorem modes_exclude_each_other (frames : list Key.t) g0 :
  Globals.pressure g0 && Globals.speed g0 = false ->
  let g := foldl (fun g keys => processInput keys g) g0 frames in
  Globals.pressure g && Globals.speed g = false.
Proof.
  intros H0. cbv zeta.
  apply (foldl_preserves (fun g => Globals.pressure g && Globals.speed g = false));
    [|exact H0].
  intros g keys. apply processInput_exclusive.
Qed.

Lemma modes_exclude_each_other_witness :
  let frames :=
    [Key.mk false true false; Key.mk false false true; Key.mk true true true] in
  let g := foldl (fun g keys => processInput keys g) Globals.init frames in
  Globals.pressure Globals.init && Globals.speed Globals.init = false /\
  Globals.pressure g && Globals.speed g = false.
Proof.
  intros frames g.
  assert (H0 : Globals.pressure Globals.init && Globals.speed Globals.init = false)
    by reflexivity.
  split; [exact H0|]. exact (modes_exclude_each_other frames Globals.init H0).
Defined.

Lemma hold_R n space g :
  Globals.pressureKeyPressedLast g = true ->
  let keys := Key.mk space true false in
  let g' := foldl (fun g keys => processInput keys g) g (replicate n keys) in
  Globals.pressure g' = Globals.pressure g /\ Globals.speed g' = Globals.speed g.
Proof.
  cbv zeta. revert g. induction n as [|n IH]; intros g Hl; [done|].
  cbn [replicate foldl].
  destruct (IH (processInput (Key.mk space true false) g)) as (H1 & H2).
  { by rewrite processInput_eq. }
  rewrite H1, H2, processInput_eq. cbv zeta. cbn. rewrite Hl. cbn. done.
Qed.

(** X17.  The mode keys are edge triggered and the space key is not.
    Holding [R] down for any number [n >= 1] of frames (with [E] up)
    toggles the pressure mode exactly once and clears the speed mode;
    holding [SPACE] down toggles [simulation] at every frame, so that an
    even number of frames leaves it as it was. *)
Theorem keys_held n space g :
  (0 < n)%nat ->
  Globals.pressureKeyPressedLast g = false ->
  let held keys := foldl (fun g keys => processInput keys g) g (replicate n keys) in
  Globals.pressure (held (Key.mk space true false)) = negb (Globals.pressure g) /\
  Globals.speed (held (Key.mk space true false)) = false /\
  forall r e,
    Globals.simulation (held (Key.mk true r e))
    = if Nat.even n then Globals.simulation g else negb (Globals.simulation g).
Proof.
  intros Hn Hl. cbv zeta.
  assert (Hfirst : forall n',
    let g' := foldl (fun g keys => processInput keys g) g
                (replicate (S n') (Key.mk space true false)) in
    Globals.pressure g' = negb (Globals.pressure g) /\ Globals.speed g' = false).
  { intros n'. cbv zeta. cbn [replicate foldl].
    destruct (hold_R n' space (processInput (Key.mk space true false) g)) as (-> & ->).
    { by rewrite processInput_eq. }
    rewrite processInput_eq. cbv zeta. cbn. rewrite Hl. cbn. done. }
  destruct n as [|n]; [lia|]. destruct (Hfirst n) as [H1 H2].
  split; [exact H1|]. split; [exact H2|].
  intros r e. clear. revert g.
  induction (S n) as [|m IH]; intros g; [done|].
  cbn [replicate foldl]. rewrite IH.
  assert (Hs : Globals.simulation (processInput (Key.mk true r e) g)
               = negb (Globals.simulation g)) by (by rewrite processInput_eq).
  rewrite Hs, Nat.even_succ, <- Nat.negb_even.
  destruct (Nat.even m); cbn; [done|by rewrite negb_involutive].
Qed.

Lemma keys_held_witness :
  let held keys :=
    foldl (fun g keys => processInput keys g) Globals.init (replicate 4 keys) in
  (0 < 4)%nat /\ Globals.pressureKeyPressedLast Globals.init = false /\
  Globals.pressure (held (Key.mk false true false)) = true /\
  Globals.simulation (held (Key.mk true false false)) = false.
Proof.
  intros held.
  assert (H0 : (0 < 4)%nat) by lia.
  assert (H1 : Globals.pressureKeyPressedLast Globals.init = false) by reflexivity.
  split; [exact H0|]. split; [exact H1|].
  destruct (keys_held 4 false Globals.init H0 H1) as (Hp & _ & Hs).
  split; [exact Hp|exact (Hs false false)].
Defined.

(** *** The field of view *)

Lemma binary_round_not_nan s p e :
  is_nan (binary_round F32.prec F32.emax s p e) = false.
Proof.
  unfold binary_round. destruct (shl_align p e _) as [mz ez].
  destruct (round_stages s (Z.pos mz) ez loc_Exact ltac:(lia))
    as [->|(m3 & e3 & -> & _)]; [done|]. by destruct (e3 <=? 104).
Qed.

Lemma to_f32_nan y : is_nan (F64.to_f32 y) = is_nan y.
Proof. destruct y as [s|s| |s m e]; try done. apply binary_round_not_nan. Qed.

(** A finite number minus a number that is not NaN is not NaN. *)
Lemma sub_not_nan a b :
  is_finite a = true -> is_nan b = false -> is_nan (a - b)%f32 = false.
Proof.
  intros Ha Hb. destruct a as [sa|sa| |sa ma ea], b as [sb|sb| |sb mb eb]; try done.
  - by destruct sa, sb.
  - unfold F32.sub. cbn [SFsub].
    destruct (_ - _) as [|p|p]; cbn [binary_normalize];
      [done|apply binary_round_not_nan..].
Qed.

Lemma fov_in_range_finite fov : fov_in_range fov -> is_finite fov = true.
Proof.
  intros [H1 H2]. change f1 with (S754_finite false 8388608 (-23)) in H1.
  change (F32.of_int 45) with (S754_finite false 11796480 (-18)) in H2.
  by destruct fov as [s|[]| |[] m e].
Qed.

Lemma scroll_callback_fov yoffset g :
  let d := (Globals.fov g - F64.to_f32 yoffset)%f32 in
  Globals.fov (scroll_callback yoffset g)
  = if (d <? f1)%f32 then f1 else if (d >? F32.of_int 45)%f32 then F32.of_int 45 else d.
Proof.
  unfold scroll_callback. cbv zeta. cbn [Globals.set_fov Globals.fov].
  destruct (_ <? f1)%f32; [|done]. reflexivity.
Qed.

Lemma scroll_callback_in_range yoffset g :
  fov_in_range (Globals.fov g) -> is_nan yoffset = false ->
  fov_in_range (Globals.fov (scroll_callback yoffset g)).
Proof.
  intros Hr Hy. rewrite scroll_callback_fov. cbv zeta.
  set (d := (Globals.fov g - F64.to_f32 yoffset)%f32).
  assert (Hd : is_nan d = false).
  { apply sub_not_nan; [by apply fov_in_range_finite|by rewrite to_f32_nan]. }
  destruct (d <? f1)%f32 eqn:H1; [by vm_compute|].
  destruct (d >? F32.of_int 45)%f32 eqn:H2; [by vm_compute|].
  split; by apply ltb_false_leb.
Qed.

Lemma scroll_callback_only_fov yoffset g fov :
  Globals.set_fov (scroll_callback yoffset g) fov = Globals.set_fov g fov.
Proof. by destruct g. Qed.

Lemma scroll_callback_nan yoffset g :
  is_nan (Globals.fov g) || is_nan yoffset = true ->
  Globals.fov (scroll_callback yoffset g) = S754_nan.
Proof.
  intros Hnan. rewrite scroll_callback_fov. cbv zeta.
  assert (Hd : (Globals.fov g - F64.to_f32 yoffset)%f32 = S754_nan).
  { apply orb_true_iff in Hnan as [Hn|Hn].
    - by destruct (Globals.fov g).
    - rewrite <- to_f32_nan in Hn. destruct (F64.to_f32 yoffset); try done.
      by destruct (Globals.fov g). }
  by rewrite Hd.
Qed.

(** X18.  [scroll_callback] keeps the field of view between 1 and 45
    degrees: from a value in that range, as the initial 45 is, and after
    any sequence of scroll offsets none of which is NaN (infinite ones
    included), the field of view is in the range; and no other global is
    written. *)
Theorem scroll_keeps_fov_in_range offsets g :
  fov_in_range (Globals.fov g) ->
  Forall (fun y => is_nan y = false) offsets ->
  let g' := foldl (fun g y => scroll_callback y g) g offsets in
  fov_in_range (Globals.fov g') /\ Globals.set_fov g' (Globals.fov g) = g.
Proof.
  intros Hr Hall. cbv zeta.
  induction offsets as [|y offsets IH] using rev_ind.
  { split; [exact Hr|by destruct g]. }
  apply Forall_app in Hall as [Hall Hy]. apply Forall_inv in Hy.
  destruct (IH Hall) as [IH1 IH2]. rewrite foldl_snoc. split.
  - by apply scroll_callback_in_range.
  - by rewrite scroll_callback_only_fov.
Qed.

Lemma scroll_keeps_fov_in_range_witness :
  let offsets :=
    [S754_finite false 4503599627370496 (-52); S754_infinity true;
     S754_infinity false; S754_zero false] in
  let g' := foldl (fun g y => scroll_callback y g) Globals.init offsets in
  fov_in_range (Globals.fov Globals.init) /\
  Forall (fun y => is_nan y = false) offsets /\
  fov_in_range (Globals.fov g') /\ Globals.set_fov g' (Globals.fov Globals.init) = Globals.init.
Proof.
  intros offsets g'.
  assert (Hr : fov_in_range (Globals.fov Globals.init))
    by (split; vm_compute; reflexivity).
  assert (Hall : Forall (fun y => is_nan y = false) offsets)
    by (repeat constructor).
  split; [exact Hr|]. split; [exact Hall|].
  exact (scroll_keeps_fov_in_range offsets Globals.init Hr Hall).
Defined.

(** X21.  A NaN is not caught by the two tests of [scroll_callback]: once
    the scroll offset is NaN, the field of view is NaN, and no later call,
    whatever its offset, brings it back into the range. *)
Theorem scroll_nan_sticks offsets g :
  let g' := foldl (fun g y => scroll_callback y g) (scroll_callback S754_nan g) offsets in
  Globals.fov g' = S754_nan /\ ~ fov_in_range (Globals.fov g').
Proof.
  cbv zeta.
  assert (H : Globals.fov (foldl (fun g y => scroll_callback y g)
                (scroll_callback S754_nan g) offsets) = S754_nan).
  { induction offsets as [|y offsets IH] using rev_ind.
    - by apply scroll_callback_nan, orb_true_iff; right.
    - rewrite foldl_snoc. apply scroll_callback_nan. by rewrite IH. }
  split; [exact H|]. rewrite H. by intros [H1 _].
Qed.

(** *** The render loop *)

Lemma CreateGrid_pressure nx ny nz scale :
  Grille.pressure (CreateGrid nx ny nz scale) = zero_field nx ny nz.
Proof.
  unfold CreateGrid. cbv zeta. rewrite for3_cells.
  apply (foldl_preserves (fun s => Grille.pressure s = zero_field nx ny nz)); [|done].
  by intros s [[i j] k].
Qed.

Lemma run_snoc calls dt p sp grid :
  run (calls ++ [(dt, p, sp)]) grid = UpdateGrid dt (run calls grid) p sp.
Proof. unfold run. by rewrite foldl_snoc. Qed.

Lemma main_iteration_invariant st input :
  loop_invariant st -> loop_invariant (main_iteration st input).
Proof.
  destruct st as [g grid], input as [time keys]. intros [Hex (calls & Hgrid & Hcalls)].
  cbn [fst snd] in *. unfold main_iteration. cbv zeta.
  set (g1 := Globals.set_time g _ _).
  assert (Hex1 : Globals.pressure g1 && Globals.speed g1 = false) by done.
  pose proof (processInput_exclusive keys g1 Hex1) as Hex2.
  set (g2 := processInput keys g1) in *.
  split; [done|]. cbn [snd].
  destruct (Globals.simulation g2).
  - exists (calls ++ [(Globals.deltaTime g2, Globals.pressure g2, Globals.speed g2)]).
    split; [by rewrite run_snoc, Hgrid|].
    apply Forall_app. split; [done|]. by apply Forall_singleton.
  - by exists calls.
Qed.

(** X19.  Whatever the user does and whatever the clock returns, after any
    number of turns of the render loop of [main]: the two colour modes are
    never both set, so that [UpdateGrid] is never called with both; the
    grid is the one [CreateGrid(10, 50, 10, 0.8f)] made, after those calls;
    it still has its 10 x 50 x 10 = 5000 particles and well-shaped arrays;
    its [pressure] array is still all zeros. *)
Theorem main_loop_keeps inputs :
  let g := (main_loop inputs).1 in
  let grid := (main_loop inputs).2 in
  Globals.pressure g && Globals.speed g = false /\
  (exists calls,
     grid = run calls (CreateGrid 10 50 10 (F32.lit 8 10)) /\
     Forall (fun c : float * bool * bool => c.1.2 && c.2 = false) calls) /\
  wf grid /\
  (Grille.nx grid, Grille.ny grid, Grille.nz grid) = (10, 50, 10) /\
  length (Grille.vertices grid) = 5000%nat /\
  Grille.pressure grid = zero_field 10 50 10.
Proof.
  cbv zeta.
  assert (Hinv : loop_invariant (main_loop inputs)).
  { unfold main_loop. apply foldl_preserves; [apply main_iteration_invariant|].
    split; [done|]. exists []. by split. }
  destruct Hinv as [Hex (calls & Hgrid & Hcalls)].
  destruct (CreateGrid_spec 10 50 10 (F32.lit 8 10)) as [[Hw Hd _ _ _] _];
    [lia|lia|lia|unfold INT_MAX; lia|].
  change (main_init.2) with (CreateGrid 10 50 10 (F32.lit 8 10)) in Hgrid.
  destruct (run_wf calls _ Hw) as [Hw' (Hx & Hy & Hz)].
  apply pair_equal_spec in Hd as [Hd Hdz]. apply pair_equal_spec in Hd as [Hdx Hdy].
  split; [done|]. split; [by exists calls|]. rewrite Hgrid.
  split; [done|]. split; [by rewrite Hx, Hy, Hz, Hdx, Hdy, Hdz|].
  split; [by rewrite (wf_vertices _ Hw'), Hx, Hy, Hz, Hdx, Hdy, Hdz|].
  destruct (run_kept calls (CreateGrid 10 50 10 (F32.lit 8 10))) as (_ & _ & _ & ->).
  apply CreateGrid_pressure.
Qed.

(** X22.  The simulation starts paused: as long as the space key is not
    down at any turn of the render loop, whatever the other keys and the
    clock, [UpdateGrid] is not called and the grid is the one
    [CreateGrid(10, 50, 10, 0.8f)] made. *)
Theorem paused_loop_keeps_grid inputs :
  Forall (fun input : float * Key.t => Key.SPACE input.2 = false) inputs ->
  Globals.simulation (main_loop inputs).1 = false /\
  (main_loop inputs).2 = CreateGrid 10 50 10 (F32.lit 8 10).
Proof.
  intros Hall. unfold main_loop.
  change (CreateGrid 10 50 10 (F32.lit 8 10)) with (main_init.2).
  induction inputs as [|[time keys] inputs IH] using rev_ind; [done|].
  apply Forall_app in Hall as [Hall Hk]. apply Forall_inv in Hk. cbn [snd] in Hk.
  rewrite foldl_snoc. destruct (IH Hall) as [Hs Hg].
  destruct (foldl main_iteration main_init inputs) as [g grid]. cbn [fst snd] in *.
  unfold main_iteration. cbv zeta.
  assert (Hs' : Globals.simulation
            (processInput keys
               (Globals.set_time g (F64.to_f32 time - Globals.lastFrame g)%f32
                  (F64.to_f32 time))) = false).
  { rewrite processInput_eq. cbv zeta. cbn. by rewrite Hk. }
  rewrite Hs'. by split.
Qed.

Lemma paused_loop_keeps_grid_witness :
  let inputs :=
    [(S754_zero false, Key.mk false true false);
     (S754_finite false 4503599627370496 (-52), Key.mk false false true)] in
  Forall (fun input : float * Key.t => Key.SPACE input.2 = false) inputs /\
  Globals.simulation (main_loop inputs).1 = false /\
  (main_loop inputs).2 = CreateGrid 10 50 10 (F32.lit 8 10).
Proof.
  intros inputs.
  assert (Hall : Forall (fun input : float * Key.t => Key.SPACE input.2 = false) inputs)
    by (repeat constructor).
  split; [exact Hall|]. exact (paused_loop_keeps_grid inputs Hall).
Defined.

(** ** A NaN in the grid *)

Lemma sub_nan_l a : (S754_nan - a)%f32 = S754_nan.
Proof. done. Qed.

Lemma sub_nan_r a : (a - S754_nan)%f32 = S754_nan.
Proof. by destruct a. Qed.

Lemma mul_nan_l a : (S754_nan * a)%f32 = S754_nan.
Proof. done. Qed.

Lemma mul_nan_r a : (a * S754_nan)%f32 = S754_nan.
Proof. by destruct a. Qed.

Lemma div_nan_l a : (S754_nan / a)%f32 = S754_nan.
Proof. done. Qed.

Lemma div_nan_r a : (a / S754_nan)%f32 = S754_nan.
Proof. by destruct a. Qed.

(** The distance to a particle that has a NaN coordinate is NaN. *)
Lemma distance_nan A B :
  Vertex.x B = S754_nan \/ Vertex.y B = S754_nan \/ Vertex.z B = S754_nan ->
  distance A B = S754_nan.
Proof.
  unfold distance. cbv zeta. intros [->|[->| ->]]; rewrite sub_nan_l, mul_nan_l.
  - by rewrite !add_nan_l.
  - by rewrite add_nan_r, add_nan_l.
  - by rewrite add_nan_r.
Qed.

Lemma force_pair_nan_neighbour s rest i j k A PA ii jj kk acc :
  (ii =? i) && (jj =? j) && (kk =? k) = false ->
  distance A (particle s ii jj kk) = S754_nan ->
  force_pair s rest i j k A PA ii jj kk acc = nan3.
Proof.
  intros Hne Hr. unfold force_pair. cbv zeta. rewrite Hne.
  fold (particle s ii jj kk). unfold distance in Hr. cbv zeta in Hr. rewrite Hr.
  cbn [F32.leb SFleb SFcompare F32.ltb SFltb orb].
  destruct acc as [[a1 a2] a3]. unfold fPress.
  rewrite !div_nan_r, !sub_nan_r, !mul_nan_r, !add_nan_r. done.
Qed.

Lemma force_pair_nan_acc s rest i j k A PA ii jj kk :
  force_pair s rest i j k A PA ii jj kk nan3 = nan3.
Proof.
  unfold force_pair, nan3. cbv zeta.
  destruct ((ii =? i) && (jj =? j) && (kk =? k)); [done|].
  destruct (_ || _); [done|]. by rewrite !add_nan_l.
Qed.

Lemma foldl_absorbed {C S : Type} (f : S -> C -> S) (top : S) (l : list C) (s : S) c :
  c ∈ l -> (forall s, f s c = top) -> (forall c', f top c' = top) ->
  foldl f s l = top.
Proof.
  intros Hc Hhit Htop. revert s. induction l as [|c' l IH]; intros s.
  - by apply elem_of_nil in Hc.
  - cbn [foldl]. apply elem_of_cons in Hc as [<-|Hc].
    + rewrite Hhit. clear IH. induction l as [|c'' l IH]; [done|].
      cbn [foldl]. by rewrite Htop.
    + by apply IH.
Qed.

Lemma wall_force_nan min max p : wall_force min max p S754_nan = S754_nan.
Proof.
  unfold wall_force. cbv zeta.
  destruct (_ <? min)%f32; rewrite ?add_nan_l; by destruct (_ <? _)%f32.
Qed.

Lemma integrate_at_nan dt sp v vx vy vz :
  let r := integrate_at dt sp v vx vy vz S754_nan S754_nan S754_nan in
  position r.1 = nan3 /\ r.2 = nan3.
Proof.
  cbv zeta. split.
  - rewrite position_integrate_at. rewrite ?mul_nan_l, ?add_nan_r, ?mul_nan_l, ?add_nan_r.
    reflexivity.
  - unfold integrate_at. cbv zeta. rewrite ?mul_nan_l, ?add_nan_r, ?mul_nan_l, ?add_nan_r.
    unfold wall_clamp. cbn [F32.ltb SFltb SFcompare].
    assert (Hlt : forall a, (a <? S754_nan)%f32 = false) by (by intros []).
    rewrite !Hlt. cbn [fst snd]. done.
Qed.

(** X20.  NaN is contagious.  [r <= 0 || r > h] is false when [r] is NaN,
    so the force pass does not skip a neighbour whose position has a NaN
    coordinate: it adds NaN to the acceleration of every other particle.
    After one step, whatever [dt] and the modes, the acceleration, the
    velocity and the position of every other particle are NaN on the
    three axes. *)
Theorem nan_is_contagious dt pressure speed grid i0 j0 k0 i j k :
  wf grid -> in_grid grid i0 j0 k0 -> in_grid grid i j k ->
  (i, j, k) <> (i0, j0, k0) ->
  (let B := particle grid i0 j0 k0 in
   Vertex.x B = S754_nan \/ Vertex.y B = S754_nan \/ Vertex.z B = S754_nan) ->
  let grid' := UpdateGrid dt grid pressure speed in
  acceleration grid' i j k = nan3 /\
  velocity grid' i j k = nan3 /\
  position (particle grid' i j k) = nan3.
Proof.
  intros Hwf Hg0 Hg Hne HB grid'. cbv zeta in HB.
  destruct (UpdateGrid_spec dt pressure speed grid Hwf) as (_ & _ & Hcell).
  destruct (Hcell i j k Hg) as (_ & Hacc & Hstep).
  assert (Hf : forces grid i j k = nan3).
  { destruct (before_force_spec grid Hwf) as (Hw & Hd & Hv & _ & _).
    unfold forces, force_at. cbv zeta. set (s := before_force grid) in *.
    rewrite for3_cells.
    rewrite (foldl_absorbed _ nan3 _ _ (i0, j0, k0)).
    - unfold nan3. by rewrite !wall_force_nan.
    - apply in_grid_cells. by apply (in_grid_dims _ grid).
    - intros acc. cbn [on_cell]. apply force_pair_nan_neighbour.
      + destruct ((i0 =? i) && (j0 =? j) && (k0 =? k)) eqn:E; [|done].
        apply andb_true_iff in E as [E E3]. apply andb_true_iff in E as [E1 E2].
        apply Z.eqb_eq in E1, E2, E3. congruence.
      + apply distance_nan. by rewrite (particle_frozen s grid).
    - intros [[ii jj] kk]. apply force_pair_nan_acc. }
  split; [unfold grid'; by rewrite Hacc|].
  destruct (step_cell_particle dt pressure speed grid i j k Hwf Hg) as [Hp Hvel].
  unfold grid'. rewrite Hp, Hvel. unfold step_cell. rewrite Hf. unfold nan3 at 1 3.
  destruct (integrate_at_nan dt speed
    (force_vertex pressure speed
       (pressure_of (density_at grid i j k) (rest_of grid)) (rest_of grid)
       (particle grid i j k))
    (get3 (Grille.vx grid) i j k) (get3 (Grille.vy grid) i j k)
    (get3 (Grille.vz grid) i j k)) as [H1 H2].
  by split.
Qed.

Lemma nan_is_contagious_witness :
  let grid :=
    Grille.set_vertices two_particles
      [Vertex.mk (F32.of_int 5) (F32.of_int 5) (F32.of_int 5) f0 f0 f0;
       Vertex.mk (F32.of_int 6) S754_nan (F32.of_int 5) f0 f0 f0] in
  wf grid /\ in_grid grid 1 0 0 /\ in_grid grid 0 0 0 /\
  position (particle (UpdateGrid f0 grid false false) 0 0 0) = nan3.
Proof.
  intros grid.
  assert (Hwf : wf grid) by wf_by_computation.
  assert (Hg0 : in_grid grid 1 0 0) by (unfold in_grid; simpl; lia).
  assert (Hg : in_grid grid 0 0 0) by (unfold in_grid; simpl; lia).
  assert (Hne : (0, 0, 0) <> (1, 0, 0)) by discriminate.
  assert (HB : let B := particle grid 1 0 0 in
               Vertex.x B = S754_nan \/ Vertex.y B = S754_nan \/ Vertex.z B = S754_nan)
    by (right; left; reflexivity).
  split; [exact Hwf|]. split; [exact Hg0|]. split; [exact Hg|].
  exact (proj2 (proj2 (nan_is_contagious f0 false false grid 1 0 0 0 0 0
                         Hwf Hg0 Hg Hne HB))).
Defined.
